(** * Archery Coach (app.js, storage key archeryCoach.v2): document model,
      load-time normalization, scoring, statistics, the settings and profile
      handlers, the score and tag inputs of the forms, the aim editor's marks.

    app.js holds two versions of the program one after the other; this is
    the second one (STORAGE_KEY = 'archeryCoach.v2', with profiles).

    The program is untyped JavaScript working on one JSON document, so the
    embedding is a value model of the JavaScript data the code touches
    ([jsval]) together with the handful of language operations the code
    uses (property read and write, truthiness, [===], [Object.assign],
    [Array.isArray], [Number(...)], [JSON.stringify]).  Every function of
    app.js modelled below keeps its source name.

    Modelling boundaries, stated once:
    - numbers are exact rationals ([Q]); the rounding of IEEE doubles and
      the values NaN and Infinity inside a stored document are not modelled
      (the conversions [Number(...)] can still yield them, see [jsnum]);
      a statement that would not survive the rounding of the source's
      arithmetic is made for whole numbers of a size that doubles hold
      exactly, and says so;
    - an object is the list of its own properties in insertion order; the
      prototype chain is not modelled (no inherited property is ever read by
      the modelled code, and a stored key named __proto__ counts as an
      ordinary key), nor is the engine's special placement of integer-like
      keys;
    - documents are trees: two positions never hold the same object, and
      [===] is modelled where one side at least is a primitive value (the
      statements compare ids with strings and distances with numbers);
    - the script is a classic (non-strict) script: an assignment to a
      property of a primitive value is silently ignored. *)

From Stdlib Require Import QArith ZArith String Ascii List Bool Lia Lqa DecimalString.
Import ListNotations.
Local Open Scope string_scope.
Local Open Scope list_scope.

(** ** JavaScript values *)

Unset Elimination Schemes.
Inductive jsval : Type :=
| JUndefined
| JNull
| JBool (b : bool)
| JNum (q : Q)
| JStr (s : string)
| JArr (elems : list jsval) (extra : list (string * jsval))
    (* an array: its elements, and the named (non-index) properties that
       may have been assigned to it *)
| JObj (props : list (string * jsval)).
Set Elimination Schemes.

(** Induction over values, with the hypothesis available for every element
    and every property value. *)
Section jsval_induction.

Variable P : jsval -> Prop.
Hypothesis Hundef : P JUndefined.
Hypothesis Hnull : P JNull.
Hypothesis Hbool : forall b, P (JBool b).
Hypothesis Hnum : forall q, P (JNum q).
Hypothesis Hstr : forall s, P (JStr s).
Hypothesis Harr : forall es xs,
  Forall P es -> Forall (fun kv => P (snd kv)) xs -> P (JArr es xs).
Hypothesis Hobj : forall ps, Forall (fun kv => P (snd kv)) ps -> P (JObj ps).

Fixpoint jsval_ind (v : jsval) : P v :=
  let fix all (l : list jsval) : Forall P l :=
    match l with
    | [] => Forall_nil _
    | e :: l' => Forall_cons e (jsval_ind e) (all l')
    end in
  let fix all_snd (l : list (string * jsval)) : Forall (fun kv => P (snd kv)) l :=
    match l with
    | [] => Forall_nil _
    | kv :: l' => Forall_cons kv (jsval_ind (snd kv)) (all_snd l')
    end in
  match v with
  | JUndefined => Hundef
  | JNull => Hnull
  | JBool b => Hbool b
  | JNum q => Hnum q
  | JStr s => Hstr s
  | JArr es xs => Harr es xs (all es) (all_snd xs)
  | JObj ps => Hobj ps (all_snd ps)
  end.

End jsval_induction.

(** Results of the conversions to number: a finite value, or one of the
    three non-finite doubles. *)
Inductive jsnum : Type := Fin (q : Q) | PInf | NInf | NaN.

(** Exceptions the modelled code can raise. *)
Inductive exn : Type := TypeError | SyntaxError | ReadError.

Inductive result (A : Type) : Type :=
| Ok (a : A)
| Throw (e : exn).
Arguments Ok {A} a.
Arguments Throw {A} e.

Definition bind {A B} (r : result A) (k : A -> result B) : result B :=
  match r with
  | Ok a => k a
  | Throw e => Throw e
  end.

Notation "x <- r ;; k" := (bind r (fun x => k))
  (at level 61, r at next level, right associativity).

Fixpoint filterM {A} (f : A -> result bool) (l : list A) : result (list A) :=
  match l with
  | [] => Ok []
  | a :: l' =>
      keep <- f a ;; rest <- filterM f l' ;;
      Ok (if keep then a :: rest else rest)
  end.

Fixpoint foldM {A B} (f : B -> A -> result B) (l : list A) (acc : B) : result B :=
  match l with
  | [] => Ok acc
  | a :: l' => acc' <- f acc a ;; foldM f l' acc'
  end.

(** ** Own properties *)

Fixpoint lookup (k : string) (ps : list (string * jsval)) : option jsval :=
  match ps with
  | [] => None
  | (k', v) :: ps' => if String.eqb k k' then Some v else lookup k ps'
  end.

(** [o[k] = v] on the property list: overwrite in place, or append. *)
Fixpoint put (k : string) (v : jsval) (ps : list (string * jsval))
  : list (string * jsval) :=
  match ps with
  | [] => [(k, v)]
  | (k', v') :: ps' =>
      if String.eqb k k' then (k', v) :: ps' else (k', v') :: put k v ps'
  end.

Definition nullish (v : jsval) : bool :=
  match v with
  | JUndefined | JNull => true
  | _ => false
  end.

Definition num_of_nat (n : nat) : Q := inject_Z (Z.of_nat n).

(** [v.k] for a receiver that is neither [null] nor [undefined] (for those
    two the value is [undefined] here and [get] raises). *)
Definition prop (v : jsval) (k : string) : jsval :=
  match v with
  | JObj ps => match lookup k ps with Some x => x | None => JUndefined end
  | JArr es xs =>
      if String.eqb k "length" then JNum (num_of_nat (length es))
      else match lookup k xs with Some x => x | None => JUndefined end
  | JStr s =>
      if String.eqb k "length" then JNum (num_of_nat (String.length s))
      else JUndefined
  | _ => JUndefined
  end.

(** [v.k] in general: reading a property of [null] or [undefined] throws. *)
Definition get (v : jsval) (k : string) : result jsval :=
  if nullish v then Throw TypeError else Ok (prop v k).

(** [v?.k] *)
Definition get_opt (v : jsval) (k : string) : jsval :=
  if nullish v then JUndefined else prop v k.

(** [v[i]] for a numeric index. *)
Definition at_index (v : jsval) (i : nat) : result jsval :=
  match v with
  | JUndefined | JNull => Throw TypeError
  | JArr es _ => Ok (nth i es JUndefined)
  | JStr s =>
      Ok (match String.get i s with
          | Some c => JStr (String c EmptyString)
          | None => JUndefined
          end)
  | JObj ps =>
      Ok (match lookup (NilZero.string_of_uint (Nat.to_uint i)) ps with
          | Some x => x
          | None => JUndefined
          end)
  | _ => Ok JUndefined
  end.

(** [v.k = x] where [k] is one of the fixed identifiers the code assigns
    (never an index, never [length]).  On a primitive the assignment is
    ignored; the code never assigns through [null] or [undefined]. *)
Definition set_prop (v : jsval) (k : string) (x : jsval) : jsval :=
  match v with
  | JObj ps => JObj (put k x ps)
  | JArr es xs => JArr es (put k x xs)
  | _ => v
  end.

(** [v.k.j = x] in a tree: the child is rebuilt and stored back. *)
Definition set_path2 (v : jsval) (k j : string) (x : jsval) : jsval :=
  match v with
  | JObj _ | JArr _ _ => set_prop v k (set_prop (prop v k) j x)
  | _ => v
  end.

Definition truthy (v : jsval) : bool :=
  match v with
  | JUndefined | JNull => false
  | JBool b => b
  | JNum q => negb (Qeq_bool q 0)
  | JStr s => negb (String.eqb s "")
  | JArr _ _ | JObj _ => true
  end.

(** [a || b] *)
Definition js_or (a b : jsval) : jsval := if truthy a then a else b.

(** [a === b] when one side at least is a primitive value (a string, a
    number, a boolean, [null], [undefined]).  Two objects are [===] when
    they are one and the same object, which a value without identity cannot
    tell; the statements below compare ids with a string and distances with
    a number. *)
Definition strict_eq (a b : jsval) : bool :=
  match a, b with
  | JUndefined, JUndefined => true
  | JNull, JNull => true
  | JBool x, JBool y => Bool.eqb x y
  | JNum x, JNum y => Qeq_bool x y
  | JStr x, JStr y => String.eqb x y
  | _, _ => false
  end.

Definition is_str (v : jsval) (s : string) : bool := strict_eq v (JStr s).

Definition isArray (v : jsval) : bool :=
  match v with JArr _ _ => true | _ => false end.

(** [typeof v === 'number'] *)
Definition is_number (v : jsval) : bool :=
  match v with JNum _ => true | _ => false end.

Definition elems_of (v : jsval) : list jsval :=
  match v with JArr es _ => es | _ => [] end.

Definition arr (es : list jsval) : jsval := JArr es [].

(** The fresh empty array [[]]. *)
Definition empty_arr : jsval := arr [].

(** [Object.assign(target, source)]: the own enumerable properties of the
    source, in order, are assigned to the target. *)
Fixpoint indexed_from (i : nat) (es : list jsval) : list (string * jsval) :=
  match es with
  | [] => []
  | e :: es' => (NilZero.string_of_uint (Nat.to_uint i), e) :: indexed_from (S i) es'
  end.

Fixpoint chars_of (s : string) : list jsval :=
  match s with
  | EmptyString => []
  | String c s' => JStr (String c EmptyString) :: chars_of s'
  end.

Definition own_enumerable (v : jsval) : list (string * jsval) :=
  match v with
  | JObj ps => ps
  | JArr es xs => indexed_from 0 es ++ xs
  | JStr s => indexed_from 0 (chars_of s)
  | _ => []
  end.

Definition Object_assign (target source : jsval) : jsval :=
  fold_left (fun t kv => set_prop t (fst kv) (snd kv)) (own_enumerable source) target.

(** ** Conversions supplied by the language

    [StringToNumber] is the language's reading of a string as a numeric
    literal ([Number("12") = 12], [Number("x") = NaN]); [NumberToString] is
    its printing of a finite number.  Both are built into the host and are
    taken as parameters. *)

Section Conversions.

Variable StringToNumber : string -> jsnum.
Variable NumberToString : Q -> string.

(** [String(v)]; for an array this is [join(",")], where [null] and
    [undefined] elements print as the empty string. *)
Fixpoint js_ToString (v : jsval) : string :=
  match v with
  | JUndefined => "undefined"
  | JNull => "null"
  | JBool true => "true"
  | JBool false => "false"
  | JNum q => NumberToString q
  | JStr s => s
  | JArr es _ =>
      (fix join (l : list jsval) : string :=
         match l with
         | [] => ""
         | e :: l' =>
             let here := if nullish e then "" else js_ToString e in
             match l' with
             | [] => here
             | _ => (here ++ "," ++ join l')%string
             end
         end) es
  | JObj _ => "[object Object]"
  end.

(** [Number(v)].  An array goes through its string form; a plain object
    prints as "[object Object]", which is not a number. *)
Definition ToNumber (v : jsval) : jsnum :=
  match v with
  | JUndefined => NaN
  | JNull => Fin 0
  | JBool b => Fin (if b then 1 else 0)
  | JNum q => Fin q
  | JStr s => StringToNumber s
  | JArr _ _ => StringToNumber (js_ToString v)
  | JObj _ => NaN
  end.

(** [function safeNumber(v) { const n = Number(v); return Number.isFinite(n) ? n : 0; }] *)
Definition safeNumber (v : jsval) : Q :=
  match ToNumber v with
  | Fin q => q
  | _ => 0
  end.

(** The receiver of [.map], [.filter], [.reduce], [.forEach]: only arrays
    have these methods, anything else raises "is not a function". *)
Definition as_array (v : jsval) : result (list jsval) :=
  match v with
  | JArr es _ => Ok es
  | _ => Throw TypeError
  end.

(** [(v || []).reduce((s,n) => s + safeNumber(n), 0)] *)
Definition reduce_safe (v : jsval) : result Q :=
  es <- as_array (js_or v empty_arr) ;;
  Ok (fold_left (fun s n => s + safeNumber n) es 0).

(** ** Scoring *)




Definition nonempty (v : jsval) : bool :=
  match elems_of v with [] => false | _ => true end.


(** [competitionMax(c)]; [None] stands for [null]. *)
Definition competitionMax (c : jsval) : result (option Q) :=
  round <- get c "round" ;;
  if is_str round "animal" then Ok None
  else if is_str round "bullseye" then
    let cat := js_or (prop c "category") (JStr "adult") in
    if is_str cat "cub" || is_str cat "beginner" then Ok (Some 200)
    else if is_str cat "junior" || is_str cat "senior" || is_str cat "adult"
    then Ok (Some 600)
    else if is_str (get_opt (prop c "bullseye") "format") "legacy" then
      let b := prop c "bullseye" in
      let m10 := if isArray (prop b "m10") then length (elems_of (prop b "m10")) else O in
      let m15 := if isArray (prop b "m15") then length (elems_of (prop b "m15")) else O in
      Ok (Some (num_of_nat (m10 + m15) * 50))
    else Ok None
  else Ok None.

(** [competitionTotal(c)] *)
Definition competitionTotal (c : jsval) : result Q :=
  round <- get c "round" ;;
  viaBullseye <-
    (if is_str round "bullseye" && truthy (prop c "bullseye") then
       let b := prop c "bullseye" in
       if is_str (prop b "format") "4x10" then
         t <- reduce_safe (prop b "m10") ;; Ok (Some t)
       else if is_str (prop b "format") "2sets" then
         sets <- as_array (js_or (prop b "sets") empty_arr) ;;
         t <- foldM (fun sum0 set =>
                       m10 <- get set "m10" ;;
                       s10 <- reduce_safe m10 ;;
                       m15 <- get set "m15" ;;
                       s15 <- reduce_safe m15 ;;
                       Ok (sum0 + s10 + s15)) sets 0 ;;
         Ok (Some t)
       else if is_str (prop b "format") "legacy" then
         t10 <- reduce_safe (prop b "m10") ;;
         t15 <- reduce_safe (prop b "m15") ;;
         Ok (Some (t10 + t15))
       else Ok None
     else Ok None) ;;
  match viaBullseye with
  | Some t => Ok t
  | None =>
      if is_str round "animal" && truthy (prop c "animal") then
        rs <- as_array (prop c "animal") ;;
        foldM (fun s r => sc <- get r "score" ;; Ok (s + safeNumber sc)) rs 0
      else Ok 0
  end.

End Conversions.

(** ** Statistics *)

(** [function mean(arr){ return arr.length ? arr.reduce((a,b)=>a+b,0)/arr.length : 0; }] *)
Definition mean (a : list Q) : Q :=
  match a with
  | [] => 0
  | _ => fold_left Qplus a 0 / num_of_nat (length a)
  end.

(** [[...Array(n).keys()]] : the indices 0 .. n-1 as numbers. *)
Definition keys (n : nat) : list Q := map num_of_nat (seq 0 n).

(** One turn of the [for] loop of [linearSlope]:
    [num += (xs[i]-mx)*(values[i]-my); den += (xs[i]-mx)*(xs[i]-mx);] *)
Definition slope_step (mx my : Q) (nd xy : Q * Q) : Q * Q :=
  (fst nd + (fst xy - mx) * (snd xy - my),
   snd nd + (fst xy - mx) * (fst xy - mx)).

(** [linearSlope(values)]; [None] stands for [null].  The loop runs over
    [i = 0 .. n-1] and reads [xs[i]] and [values[i]]; both lists have
    length [n], so it is a fold over their pairing. *)
Definition linearSlope (values : list Q) : option Q :=
  let n := length values in
  if (n <? 2)%nat then None
  else
    let xs := keys n in
    let mx := mean xs in
    let my := mean values in
    let '(num, den) := fold_left (slope_step mx my) (combine xs values) (0, 0) in
    if Qeq_bool den 0 then None else Some (num / den).

(** ** JSON.stringify

    The text is a [string] whose characters stand for code units.  The
    algorithm is the language's: [gap] is the indentation unit (empty for
    [JSON.stringify(v)], two spaces for [JSON.stringify(v, null, 2)]). *)

Definition nl : string := String "010"%char EmptyString.
Definition dquote : string := String "034"%char EmptyString.

Definition hex_digit (n : nat) : ascii :=
  nth n ["0"; "1"; "2"; "3"; "4"; "5"; "6"; "7";
         "8"; "9"; "a"; "b"; "c"; "d"; "e"; "f"]%char "0"%char.

(** One code unit inside a quoted JSON string. *)
Definition escape_char (c : ascii) : string :=
  let n := nat_of_ascii c in
  if (n =? 8)%nat then "\b"
  else if (n =? 9)%nat then "\t"
  else if (n =? 10)%nat then "\n"
  else if (n =? 12)%nat then "\f"
  else if (n =? 13)%nat then "\r"
  else if (n =? 34)%nat then ("\" ++ dquote)%string
  else if (n =? 92)%nat then "\\"
  else if (n <? 32)%nat then
    ("\u00" ++ String (hex_digit (n / 16)) (String (hex_digit (n mod 16)) EmptyString))%string
  else String c EmptyString.

Fixpoint escape_all (s : string) : string :=
  match s with
  | EmptyString => EmptyString
  | String c s' => (escape_char c ++ escape_all s')%string
  end.

Definition QuoteJSONString (s : string) : string :=
  (dquote ++ escape_all s ++ dquote)%string.

Fixpoint join (sep : string) (parts : list string) : string :=
  match parts with
  | [] => EmptyString
  | [p] => p
  | p :: rest => (p ++ sep ++ join sep rest)%string
  end.

Definition is_empty (s : string) : bool :=
  match s with EmptyString => true | _ => false end.

(** The serialized elements of an array ([undefined] prints as [null]) and
    the serialized members of an object (a member without JSON form is left
    out), given the serializer [ser] of the values. *)
Section Members.

Variable ser : jsval -> option string.
Variable colon : string.

Definition item (e : jsval) : string :=
  match ser e with
  | Some t => t
  | None => "null"
  end.

Fixpoint members (l : list (string * jsval)) : list string :=
  match l with
  | [] => []
  | (k, e) :: l' =>
      match ser e with
      | Some t => (QuoteJSONString k ++ colon ++ t)%string :: members l'
      | None => members l'
      end
  end.

End Members.

Section Serialize.

Variable NumberToString : Q -> string.
Variable gap : string.

(** Brackets around the already serialized members of an array or object. *)
Definition wrap (opening closing stepback indent : string) (partial : list string)
  : string :=
  match partial with
  | [] => (opening ++ closing)%string
  | _ =>
      if is_empty gap then (opening ++ join "," partial ++ closing)%string
      else (opening ++ nl ++ indent
              ++ join ("," ++ nl ++ indent) partial
              ++ nl ++ stepback ++ closing)%string
  end.

(** [SerializeJSONProperty]; [None] is the [undefined] the algorithm
    returns for a value that has no JSON form. *)
Fixpoint SerializeJSONProperty (indent : string) (v : jsval) : option string :=
  match v with
  | JUndefined => None
  | JNull => Some "null"
  | JBool true => Some "true"
  | JBool false => Some "false"
  | JNum q => Some (NumberToString q)
  | JStr s => Some (QuoteJSONString s)
  | JArr es _ =>
      let stepback := indent in
      let indent := (indent ++ gap)%string in
      Some (wrap "[" "]" stepback indent
              (map (item (SerializeJSONProperty indent)) es))
  | JObj ps =>
      let stepback := indent in
      let indent := (indent ++ gap)%string in
      Some (wrap "{" "}" stepback indent
              (members (SerializeJSONProperty indent)
                 (if is_empty gap then ":" else ": ") ps))
  end.

End Serialize.

(** [JSON.stringify(v)] and [JSON.stringify(v, null, 2)]. *)
Definition JSON_stringify (NumberToString : Q -> string) (v : jsval) : option string :=
  SerializeJSONProperty NumberToString "" "" v.

Definition JSON_stringify_2 (NumberToString : Q -> string) (v : jsval) : option string :=
  SerializeJSONProperty NumberToString "  " "" v.

(** A string context ([setItem], [new Blob([...])]) turns [undefined] into
    the text "undefined". *)
Definition as_text (t : option string) : string :=
  match t with
  | Some s => s
  | None => "undefined"
  end.

(** Removal of the insignificant white space of a JSON text: blanks, tabs
    and line ends that are not inside a string literal. *)
Inductive lex_state : Type := Outside | Inside | Escaped.

Definition is_ws (c : ascii) : bool :=
  let n := nat_of_ascii c in
  (n =? 32)%nat || (n =? 9)%nat || (n =? 10)%nat || (n =? 13)%nat.

Definition is_dquote (c : ascii) : bool := (nat_of_ascii c =? 34)%nat.
Definition is_backslash (c : ascii) : bool := (nat_of_ascii c =? 92)%nat.

Fixpoint strip_from (st : lex_state) (s : string) : string :=
  match s with
  | EmptyString => EmptyString
  | String c s' =>
      match st with
      | Outside =>
          if is_ws c then strip_from Outside s'
          else String c (strip_from (if is_dquote c then Inside else Outside) s')
      | Inside =>
          String c (strip_from (if is_backslash c then Escaped
                                else if is_dquote c then Outside
                                else Inside) s')
      | Escaped => String c (strip_from Inside s')
      end
  end.

Definition strip_ws (s : string) : string := strip_from Outside s.

(** A text with no blank and no double quote in it (what a number prints as). *)
Fixpoint plain_text (s : string) : bool :=
  match s with
  | EmptyString => true
  | String c s' => negb (is_ws c) && negb (is_dquote c) && plain_text s'
  end.

(** ** The document: defaults, loading, saving

    [uid n] and [isoNow n] are the results of the (n+1)-th call of [uid()]
    and of [new Date().toISOString()] made while one function runs; the
    source obtains them from the random generator and the clock.
    [JSON_parse] is the host's [JSON.parse]: [None] when it raises a
    SyntaxError. *)

Section Document.

Variable uid : nat -> string.
Variable isoNow : nat -> string.
Variable JSON_parse : string -> option jsval.
Variable StringToNumber : string -> jsnum.
Variable NumberToString : Q -> string.

(** [{ id: pid, name: 'Archer 1', createdAt: new Date().toISOString() }] *)
Definition archer1 (i : nat) : jsval :=
  JObj [("id", JStr (uid i)); ("name", JStr "Archer 1"); ("createdAt", JStr (isoNow i))].

Definition defaultSettings : jsval := JObj [("animalScoring", JStr "nasp3d")].

Definition defaultState (i : nat) : jsval :=
  JObj [("profiles", arr [archer1 i]);
        ("activeProfileId", JStr (uid i));
        ("practice", empty_arr);
        ("competitions", empty_arr);
        ("aimMaps", empty_arr);
        ("settings", defaultSettings)].

(** [a.forEach(f)] where [f] updates the element it is given. *)
Definition forEach (f : jsval -> jsval) (a : jsval) : result jsval :=
  match a with
  | JArr es xs => Ok (JArr (map f es) xs)
  | _ => Throw TypeError
  end.

(** [st.k = Array.isArray(st.k) ? st.k : [];] *)
Definition coerce_list (k : string) (st : jsval) : jsval :=
  set_prop st k (if isArray (prop st k) then prop st k else empty_arr).

(** [if (!Array.isArray(st.profiles) || st.profiles.length === 0) { ... }] *)
Definition synthesize_profiles (i : nat) (st : jsval) : jsval :=
  if negb (isArray (prop st "profiles"))
     || (length (elems_of (prop st "profiles")) =? 0)%nat
  then set_prop (set_prop st "profiles" (arr [archer1 i])) "activeProfileId" (JStr (uid i))
  else st.

(** [if (!st.activeProfileId) st.activeProfileId = st.profiles[0].id;] *)
Definition default_active (st : jsval) : result jsval :=
  if truthy (prop st "activeProfileId") then Ok st
  else
    p0 <- at_index (prop st "profiles") 0 ;;
    id <- get p0 "id" ;;
    Ok (set_prop st "activeProfileId" id).

(** [r => { if (r && !r.profileId) r.profileId = pid; }] *)
Definition backfill (pid r : jsval) : jsval :=
  if truthy r && negb (truthy (prop r "profileId"))
  then set_prop r "profileId" pid
  else r.

(** The practice migration callback: bare numbers become one-element
    lists, anything else that is not a list becomes the empty list. *)
Definition migrate_practice (s : jsval) : jsval :=
  if truthy s && truthy (prop s "bullseye") then
    let s1 := if is_number (prop (prop s "bullseye") "m10")
              then set_path2 s "bullseye" "m10" (arr [prop (prop s "bullseye") "m10"])
              else s in
    let s2 := if is_number (prop (prop s1 "bullseye") "m15")
              then set_path2 s1 "bullseye" "m15" (arr [prop (prop s1 "bullseye") "m15"])
              else s1 in
    let s3 := if negb (isArray (prop (prop s2 "bullseye") "m10"))
              then set_path2 s2 "bullseye" "m10" empty_arr
              else s2 in
    if negb (isArray (prop (prop s3 "bullseye") "m15"))
    then set_path2 s3 "bullseye" "m15" empty_arr
    else s3
  else s.

(** The competition migration callback (legacy numeric structure). *)
Definition migrate_competition (c : jsval) : jsval :=
  if truthy c && is_str (prop c "round") "bullseye" && truthy (prop c "bullseye") then
    let b := prop c "bullseye" in
    if is_number (prop b "m10") || is_number (prop b "m15") then
      let c1 :=
        set_prop c "bullseye"
          (JObj [("format", JStr "legacy");
                 ("m10", arr [if is_number (prop b "m10") then prop b "m10" else JNum 0]);
                 ("m15", arr [if is_number (prop b "m15") then prop b "m15" else JNum 0])]) in
      if negb (truthy (prop c1 "category"))
      then set_prop c1 "category" (JStr "adult")
      else c1
    else c
  else c.

(** [st.k.forEach(f)] *)
Definition update_list (k : string) (f : jsval -> jsval) (st : jsval) : result jsval :=
  a <- forEach f (prop st k) ;; Ok (set_prop st k a).

(** The [try] block of [loadState] from [JSON.parse]'s result on. *)
Definition normalize_parsed (parsed : jsval) : result jsval :=
  let st := Object_assign (defaultState 0) parsed in
  ps <- get parsed "settings" ;;
  let st := set_prop st "settings"
              (Object_assign (prop (defaultState 1) "settings") (js_or ps (JObj []))) in
  let st := coerce_list "practice" st in
  let st := coerce_list "competitions" st in
  let st := coerce_list "aimMaps" st in
  let st := synthesize_profiles 2 st in
  st <- default_active st ;;
  let pid := prop st "activeProfileId" in
  st <- update_list "practice" (backfill pid) st ;;
  st <- update_list "competitions" (backfill pid) st ;;
  st <- update_list "aimMaps" (backfill pid) st ;;
  st <- update_list "practice" migrate_practice st ;;
  update_list "competitions" migrate_competition st.

(** The normalization with its [catch]: any exception gives a fresh
    default document (two [defaultState()] calls were made before any
    statement that can raise, so this is the third); the warning written
    to the console is not modelled. *)
Definition normalize (parsed : jsval) : jsval :=
  match normalize_parsed parsed with
  | Ok st => st
  | Throw _ => defaultState 2
  end.

(** [loadState()], given the content of the storage slot. *)
Definition loadState (slot : option string) : jsval :=
  match slot with
  | None => defaultState 0
  | Some raw =>
      if is_empty raw then defaultState 0
      else match JSON_parse raw with
           | None => defaultState 0
           | Some parsed => normalize parsed
           end
  end.

(** [(state.k || []).forEach(f)] *)
Definition update_list_or_empty (k : string) (f : jsval -> jsval) (st : jsval)
  : result jsval :=
  if truthy (prop st k) then update_list k f st else Ok st.

(** [ensureProfiles()], run on the global document right after [loadState]
    and before the profile controls are drawn.  [i] numbers its [uid()]
    call.  When it raises, the model reports the exception only. *)
Definition ensureProfiles (i : nat) (state : jsval) : result jsval :=
  let st := synthesize_profiles i state in
  st <- default_active st ;;
  let pid := prop st "activeProfileId" in
  st <- update_list_or_empty "practice" (backfill pid) st ;;
  st <- update_list_or_empty "competitions" (backfill pid) st ;;
  update_list_or_empty "aimMaps" (backfill pid) st.

(** ** The running application: document, storage slot, messages shown *)

Record world : Type := mkWorld {
  doc : jsval;              (* the global [state] *)
  slot : option string;     (* localStorage item archeryCoach.v2 *)
  alerts : list string      (* texts passed to [alert], latest first *)
}.

Definition set_doc (w : world) (st : jsval) : world :=
  mkWorld st (slot w) (alerts w).

Definition alert (msg : string) (w : world) : world :=
  mkWorld (doc w) (slot w) (msg :: alerts w).

(** [function saveState() { localStorage.setItem(STORAGE_KEY, JSON.stringify(state)); }] *)
Definition saveState (w : world) : world :=
  mkWorld (doc w) (Some (as_text (JSON_stringify NumberToString (doc w)))) (alerts w).

(** The text the Export button puts in the downloaded file:
    [const data = JSON.stringify(state, null, 2);] *)
Definition exportBtn_click (w : world) : string :=
  as_text (JSON_stringify_2 NumberToString (doc w)).

(** *** Import *)

Inductive picked : Type :=
| NoFile                     (* the chooser was closed without a file *)
| Unreadable                 (* [file.text()] rejects *)
| FileText (text : string).

Definition import_failed : string := "Import failed: invalid JSON or incompatible format.".
Definition import_complete : string := "Import complete.".

(** The statements of the [try] block up to [state = st]. *)
Definition import_build (f : picked) : result jsval :=
  text <- match f with
          | FileText t => Ok t
          | _ => Throw ReadError
          end ;;
  imported <- match JSON_parse text with
              | Some v => Ok v
              | None => Throw SyntaxError
              end ;;
  let st := Object_assign (defaultState 0) imported in
  s <- get imported "settings" ;;
  let st := set_prop st "settings"
              (Object_assign (prop (defaultState 1) "settings") (js_or s (JObj []))) in
  let st := set_prop st "practice"
              (if isArray (prop imported "practice") then prop imported "practice" else empty_arr) in
  let st := set_prop st "competitions"
              (if isArray (prop imported "competitions") then prop imported "competitions" else empty_arr) in
  let st := set_prop st "aimMaps"
              (if isArray (prop imported "aimMaps") then prop imported "aimMaps" else empty_arr) in
  Ok st.

(** The [change] handler of the import file input.  [renderAll_ok st]
    tells whether [renderAll()] completes on the document [st]. *)
Definition importFile_change (renderAll_ok : jsval -> bool) (f : picked) (w : world)
  : world :=
  match f with
  | NoFile => w
  | _ =>
      match import_build f with
      | Throw _ => alert import_failed w
      | Ok st =>
          let w1 := saveState (set_doc w st) in
          if renderAll_ok st then alert import_complete w1
          else alert import_failed w1
      end
  end.

(** *** Deleting a profile *)

(** A handler is a sequence of statements; each one either completes,
    giving the next state, or raises, and then the state stays as the
    earlier statements left it. *)
Fixpoint run_statements (steps : list (world -> result world)) (w : world)
  : world * option exn :=
  match steps with
  | [] => (w, None)
  | s :: rest =>
      match s w with
      | Ok w' => run_statements rest w'
      | Throw e => (w, Some e)
      end
  end.

(** [r => r.profileId !== p.id] and [x => x.id !== p.id] *)
Definition differs (field : string) (p r : jsval) : result bool :=
  a <- get r field ;;
  b <- get p "id" ;;
  Ok (negb (strict_eq a b)).

(** [state.k = (state.k || []).filter(r => r.profileId !== p.id);] *)
Definition drop_records (k : string) (p : jsval) (w : world) : result world :=
  es <- as_array (js_or (prop (doc w) k) empty_arr) ;;
  kept <- filterM (differs "profileId" p) es ;;
  Ok (set_doc w (set_prop (doc w) k (arr kept))).

(** [state.profiles = state.profiles.filter(x => x.id !== p.id);] *)
Definition drop_profile (p : jsval) (w : world) : result world :=
  ps <- get (doc w) "profiles" ;;
  es <- as_array ps ;;
  kept <- filterM (differs "id" p) es ;;
  Ok (set_doc w (set_prop (doc w) "profiles" (arr kept))).

(** [if (state.activeProfileId === p.id) state.activeProfileId = state.profiles[0].id;] *)
Definition reassign_active (p : jsval) (w : world) : result world :=
  a <- get (doc w) "activeProfileId" ;;
  b <- get p "id" ;;
  if strict_eq a b then
    p0 <- at_index (prop (doc w) "profiles") 0 ;;
    id <- get p0 "id" ;;
    Ok (set_doc w (set_prop (doc w) "activeProfileId" id))
  else Ok w.

(** [n <= 1] for the value of [state.profiles.length]. *)
Definition at_most_one (v : jsval) : bool :=
  match ToNumber StringToNumber NumberToString v with
  | Fin q => Qle_bool q 1
  | NInf => true
  | _ => false
  end.

Definition need_one_profile : string := "You need at least one profile.".

(** The [click] handler of a profile row's Delete button, for the profile
    [p] of that row, through its [saveState()]; [confirmed] is the answer
    given to [confirm].  The three calls that follow [saveState()] redraw
    the page; the two that draw the profile controls start with
    [ensureProfiles()] (above), which removes nothing. *)
Definition deleteProfile_click (p : jsval) (confirmed : bool) (w : world)
  : world * option exn :=
  match (ps <- get (doc w) "profiles" ;; get ps "length") with
  | Throw e => (w, Some e)
  | Ok len =>
      if at_most_one len then (alert need_one_profile w, None)
      else if negb confirmed then (w, None)
      else
        run_statements
          [drop_records "practice" p;
           drop_records "competitions" p;
           drop_records "aimMaps" p;
           drop_profile p;
           reassign_active p;
           fun w => Ok (saveState w)] w
  end.

End Document.

(** ** Reference definitions used in the statements *)

Fixpoint Qsum (l : list Q) : Q :=
  match l with
  | [] => 0
  | x :: l' => x + Qsum l'
  end.


(** A list of numbers as a JavaScript array. *)
Definition numbers (l : list Q) : jsval := arr (map JNum l).

(** A text made of blanks only. *)
Fixpoint blank (s : string) : bool :=
  match s with
  | EmptyString => true
  | String c s' => is_ws c && blank s'
  end.

(** ** A reader for JSON texts

    The theorems below hold for any [JSON_parse]; the concrete runs use this
    reader, which follows the JSON grammar on texts whose characters are the
    code units 0 to 255 (an escape [\uXXXX] above 00FF is outside this
    text model and is refused).  A repeated key keeps its first position and
    takes the last value, as [JSON.parse] does. *)

Definition is_digit (c : ascii) : bool :=
  let n := nat_of_ascii c in (48 <=? n)%nat && (n <=? 57)%nat.

Definition digit_value (c : ascii) : Z := Z.of_nat (nat_of_ascii c - 48).

Definition hex_value (c : ascii) : option nat :=
  let n := nat_of_ascii c in
  if (48 <=? n)%nat && (n <=? 57)%nat then Some (n - 48)%nat
  else if (65 <=? n)%nat && (n <=? 70)%nat then Some (n - 55)%nat
  else if (97 <=? n)%nat && (n <=? 102)%nat then Some (n - 87)%nat
  else None.

Fixpoint skip_ws (s : string) : string :=
  match s with
  | String c s' => if is_ws c then skip_ws s' else s
  | EmptyString => s
  end.

Fixpoint strip_prefix (lit s : string) : option string :=
  match lit, s with
  | EmptyString, _ => Some s
  | String a lit', String b s' => if Ascii.eqb a b then strip_prefix lit' s' else None
  | _, EmptyString => None
  end.

(** Digits read greedily: their value appended to [acc], how many, the rest. *)
Fixpoint read_digits (s : string) (acc : Z) (count : nat) : Z * nat * string :=
  match s with
  | String c s' =>
      if is_digit c then read_digits s' (10 * acc + digit_value c)%Z (S count)
      else (acc, count, s)
  | EmptyString => (acc, count, s)
  end.

Definition scale10 (m e : Z) : Q :=
  if (0 <=? e)%Z then inject_Z (m * 10 ^ e)
  else Qmake m (Z.to_pos (10 ^ (- e))).

(** [-? int frac? exp?], where [int] is [0] or starts with a non-zero digit. *)
Definition read_number (s : string) : option (Q * string) :=
  let '(neg, s1) := match s with
                    | String "-" r => (true, r)
                    | _ => (false, s)
                    end in
  let '(ip, ic, s2) := read_digits s1 0 0 in
  let leading_zero := match s1 with String "0" _ => true | _ => false end in
  if (ic =? 0)%nat || (leading_zero && negb (ic =? 1)%nat) then None
  else
    let fraction :=
      match s2 with
      | String "." r =>
          let '(m, fc, s3) := read_digits r ip 0 in
          if (fc =? 0)%nat then None else Some (m, fc, s3)
      | _ => Some (ip, O, s2)
      end in
    match fraction with
    | None => None
    | Some (m, fc, s3) =>
        let exponent :=
          match s3 with
          | String c r =>
              if Ascii.eqb c "e" || Ascii.eqb c "E" then
                let '(eneg, r1) := match r with
                                   | String "-" r' => (true, r')
                                   | String "+" r' => (false, r')
                                   | _ => (false, r)
                                   end in
                let '(e, ec, s4) := read_digits r1 0 0 in
                if (ec =? 0)%nat then None
                else Some ((if eneg then - e else e)%Z, s4)
              else Some (0%Z, s3)
          | EmptyString => Some (0%Z, s3)
          end in
        match exponent with
        | None => None
        | Some (e, s4) =>
            Some (scale10 (if neg then - m else m)%Z (e - Z.of_nat fc)%Z, s4)
        end
    end.

(** The characters of a string literal after its opening quote, up to and
    including the closing one. *)
Fixpoint read_string (s : string) : option (string * string) :=
  match s with
  | EmptyString => None
  | String c rest =>
      if is_dquote c then Some (EmptyString, rest)
      else if is_backslash c then
        match rest with
        | String e rest' =>
            let simple (x : ascii) :=
              match read_string rest' with
              | Some (t, r) => Some (String x t, r)
              | None => None
              end in
            if Ascii.eqb e "b" then simple "008"%char
            else if Ascii.eqb e "t" then simple "009"%char
            else if Ascii.eqb e "n" then simple "010"%char
            else if Ascii.eqb e "f" then simple "012"%char
            else if Ascii.eqb e "r" then simple "013"%char
            else if Ascii.eqb e "/" then simple "/"%char
            else if is_dquote e then simple "034"%char
            else if is_backslash e then simple "\"%char
            else if Ascii.eqb e "u" then
              match rest' with
              | String h1 (String h2 (String h3 (String h4 rest4))) =>
                  match hex_value h1, hex_value h2, hex_value h3, hex_value h4 with
                  | Some O, Some O, Some a, Some b =>
                      match read_string rest4 with
                      | Some (t, r) => Some (String (ascii_of_nat (16 * a + b)) t, r)
                      | None => None
                      end
                  | _, _, _, _ => None
                  end
              | _ => None
              end
            else None
        | EmptyString => None
        end
      else if (nat_of_ascii c <? 32)%nat then None
      else
        match read_string rest with
        | Some (t, r) => Some (String c t, r)
        | None => None
        end
  end.

Fixpoint parse_value (fuel : nat) (s : string) {struct fuel} : option (jsval * string) :=
  match fuel with
  | O => None
  | S f =>
      match skip_ws s with
      | EmptyString => None
      | String c rest =>
          if Ascii.eqb c "{" then
            match skip_ws rest with
            | String "}" r => Some (JObj [], r)
            | _ => parse_members f rest []
            end
          else if Ascii.eqb c "[" then
            match skip_ws rest with
            | String "]" r => Some (arr [], r)
            | _ => parse_elements f rest []
            end
          else if is_dquote c then
            match read_string rest with
            | Some (t, r) => Some (JStr t, r)
            | None => None
            end
          else if Ascii.eqb c "t" then
            match strip_prefix "rue" rest with
            | Some r => Some (JBool true, r)
            | None => None
            end
          else if Ascii.eqb c "f" then
            match strip_prefix "alse" rest with
            | Some r => Some (JBool false, r)
            | None => None
            end
          else if Ascii.eqb c "n" then
            match strip_prefix "ull" rest with
            | Some r => Some (JNull, r)
            | None => None
            end
          else
            match read_number (String c rest) with
            | Some (q, r) => Some (JNum q, r)
            | None => None
            end
      end
  end
with parse_elements (fuel : nat) (s : string) (acc : list jsval) {struct fuel}
  : option (jsval * string) :=
  match fuel with
  | O => None
  | S f =>
      match parse_value f s with
      | None => None
      | Some (v, r) =>
          match skip_ws r with
          | String "," r' => parse_elements f r' (acc ++ [v])
          | String "]" r' => Some (arr (acc ++ [v]), r')
          | _ => None
          end
      end
  end
with parse_members (fuel : nat) (s : string) (acc : list (string * jsval)) {struct fuel}
  : option (jsval * string) :=
  match fuel with
  | O => None
  | S f =>
      match skip_ws s with
      | String c r =>
          if is_dquote c then
            match read_string r with
            | None => None
            | Some (k, r1) =>
                match skip_ws r1 with
                | String ":" r2 =>
                    match parse_value f r2 with
                    | None => None
                    | Some (v, r3) =>
                        match skip_ws r3 with
                        | String "," r4 => parse_members f r4 (put k v acc)
                        | String "}" r4 => Some (JObj (put k v acc), r4)
                        | _ => None
                        end
                    end
                | _ => None
                end
            end
          else None
      | EmptyString => None
      end
  end.

Definition read_json (text : string) : option jsval :=
  match parse_value (2 * String.length text + 2) text with
  | Some (v, r) => if is_empty (skip_ws r) then Some v else None
  | None => None
  end.

(** ** Sample environment for the concrete runs *)

Definition sample_uid (n : nat) : string :=
  ("u" ++ NilZero.string_of_uint (Nat.to_uint n))%string.

Definition sample_now (n : nat) : string := "2024-05-01T10:00:00.000Z".

(** An integer prints as its decimal digits; the runs use no other number. *)
Definition sample_NumberToString (q : Q) : string :=
  NilZero.string_of_int (Z.to_int (Qnum q / Zpos (Qden q))).

Definition sample_StringToNumber (s : string) : jsnum :=
  match read_number s with
  | Some (q, EmptyString) => Fin q
  | _ => match s with EmptyString => Fin 0 | _ => NaN end
  end.

(** ** Notions used in the statements and proofs *)


(** One set of a '2sets' result, [{ m10, m15 }], as
    [collectCompetitionBullseye] builds it. *)
Definition set_obj (rounds : list Q * list Q) : jsval :=
  JObj [("m10", numbers (fst rounds)); ("m15", numbers (snd rounds))].





(** The five categories [competitionMax] knows. *)
Definition KNOWN_CATEGORIES : list jsval :=
  [JStr "cub"; JStr "beginner"; JStr "junior"; JStr "senior"; JStr "adult"].

(** A competition record of the older schema, as the migration of
    [loadState] recognises it: a bullseye round whose block holds a bare
    number at one distance at least. *)
Definition older_schema (c : jsval) : Prop :=
  prop c "round" = JStr "bullseye"
  /\ truthy (prop c "bullseye") = true
  /\ is_number (prop (prop c "bullseye") "m10")
     || is_number (prop (prop c "bullseye") "m15") = true.


(** [tight t tc]: wherever the indented text [t] stands, removing the
    insignificant blanks turns it into the compact text [tc]. *)
Definition tight (t tc : string) : Prop :=
  forall rest, strip_from Outside (t ++ rest) = (tc ++ strip_from Outside rest)%string.

(** The indented and the compact serialization of one value agree. *)
Definition agree (NumberToString : Q -> string) (indent : string) (v : jsval) : Prop :=
  match SerializeJSONProperty NumberToString "  " indent v,
        SerializeJSONProperty NumberToString "" "" v with
  | Some t, Some tc => tight t tc
  | None, None => True
  | _, _ => False
  end.

Definition assign_step (t : list (string * jsval)) (kv : string * jsval)
  : list (string * jsval) :=
  put (fst kv) (snd kv) t.

Definition default_keys : list string :=
  ["profiles"; "activeProfileId"; "practice"; "competitions"; "aimMaps"; "settings"].

(** A document whose first six properties are the default ones, in the
    order [defaultState] creates them. *)
Definition mk_doc (P A PR C M S : jsval) (ex : list (string * jsval)) : jsval :=
  JObj (("profiles", P) :: ("activeProfileId", A) :: ("practice", PR)
        :: ("competitions", C) :: ("aimMaps", M) :: ("settings", S) :: ex).

Definition is_container (v : jsval) : bool :=
  match v with JObj _ | JArr _ _ => true | _ => false end.

(** What the practice migration does to the bullseye block itself. *)
Definition migrate_block (b : jsval) : jsval :=
  let b1 := if is_number (prop b "m10") then set_prop b "m10" (arr [prop b "m10"]) else b in
  let b2 := if is_number (prop b1 "m15") then set_prop b1 "m15" (arr [prop b1 "m15"]) else b1 in
  let b3 := if negb (isArray (prop b2 "m10")) then set_prop b2 "m10" empty_arr else b2 in
  if negb (isArray (prop b3 "m15")) then set_prop b3 "m15" empty_arr else b3.

Definition profiles_ok (P A : jsval) : Prop :=
  exists p0 rest xs,
    P = JArr (p0 :: rest) xs
    /\ (truthy A = true \/ (nullish p0 = false /\ A = prop p0 "id")).

Definition settings_ok (S : jsval) : Prop :=
  exists a ex,
    S = JObj (("animalScoring", a) :: ex) /\ NoDup ("animalScoring" :: map fst ex).

(** The documents that normalization leaves as they are. *)
Definition Normal (st : jsval) : Prop :=
  exists P A es1 x1 es2 x2 es3 x3 S ex,
    st = mk_doc P A (JArr es1 x1) (JArr es2 x2) (JArr es3 x3) S ex
    /\ NoDup (default_keys ++ map fst ex)
    /\ settings_ok S
    /\ profiles_ok P A
    /\ Forall (fun r => backfill A r = r) es1
    /\ Forall (fun r => backfill A r = r) es2
    /\ Forall (fun r => backfill A r = r) es3
    /\ Forall (fun s => migrate_practice s = s) es1
    /\ Forall (fun c => migrate_competition c = c) es2.

(** The stored text parses to a value, not [null], that names an active
    profile and has a non-empty list of profiles, its own or the one of the
    default document it is merged over: [m] is
    [Object.assign(defaultState(), parsed)] for that value. *)
Definition stored_names_active (JSON_parse : string -> option jsval)
    (stored : option string) (default m : jsval) : Prop :=
  exists raw d,
    stored = Some raw /\ is_empty raw = false /\ JSON_parse raw = Some d
    /\ nullish d = false /\ m = Object_assign default d
    /\ nonempty (prop m "profiles") = true
    /\ truthy (prop m "activeProfileId") = true.

(** [activeProfileId] is the id of one of the profiles. *)
Definition active_resolves (st : jsval) : bool :=
  existsb (fun p => strict_eq (prop p "id") (prop st "activeProfileId"))
    (elems_of (prop st "profiles")).

(** [r.profileId !== p.id] and [x.id !== p.id], for values that exist. *)
Definition other_owner (p r : jsval) : bool :=
  negb (strict_eq (prop r "profileId") (prop p "id")).

Definition other_profile (p x : jsval) : bool :=
  negb (strict_eq (prop x "id") (prop p "id")).

Definition all_present (es : list jsval) : Prop :=
  Forall (fun r => nullish r = false) es.

(** The three record collections of the document. *)
Definition record_list (k : string) : Prop :=
  k = "practice" \/ k = "competitions" \/ k = "aimMaps".

(** ** Sample data for the concrete runs *)






(** A competition record as the first version of the program stored it:
    one number per distance, no format tag, no category. *)
Definition v1_competition : jsval :=
  JObj [("id", JStr "c1"); ("date", JStr "2023-03-04"); ("event", JStr "Club shoot");
        ("round", JStr "bullseye");
        ("bullseye", JObj [("m10", JNum 40); ("m15", JNum 35)]);
        ("animal", JNull)].

(** A record in format 'legacy' whose category is none of the five. *)
Definition legacy_other_category : jsval :=
  JObj [("round", JStr "bullseye"); ("category", JStr "veteran");
        ("bullseye", JObj [("format", JStr "legacy"); ("m10", numbers [40]); ("m15", numbers [35])])].

(** A stored text whose [activeProfileId] names no profile:
    { profiles: [ { id: a, name: Anna } ], activeProfileId: zzz }, with the
    keys and strings quoted. *)
Definition stale_active_text : string :=
  ("{" ++ QuoteJSONString "profiles" ++ ":[{"
       ++ QuoteJSONString "id" ++ ":" ++ QuoteJSONString "a" ++ ","
       ++ QuoteJSONString "name" ++ ":" ++ QuoteJSONString "Anna" ++ "}],"
       ++ QuoteJSONString "activeProfileId" ++ ":" ++ QuoteJSONString "zzz" ++ "}")%string.

Definition profile_a : jsval :=
  JObj [("id", JStr "a"); ("name", JStr "Anna"); ("createdAt", JStr "2024-01-01T09:00:00.000Z")].

Definition profile_b : jsval :=
  JObj [("id", JStr "b"); ("name", JStr "Ben"); ("createdAt", JStr "2024-02-01T09:00:00.000Z")].

Definition session_of_a : jsval :=
  JObj [("id", JStr "s1"); ("profileId", JStr "a"); ("title", JStr "Monday")].

Definition session_of_b : jsval :=
  JObj [("id", JStr "s2"); ("profileId", JStr "b"); ("title", JStr "Tuesday")].

(** A session that carries no [profileId]. *)
Definition orphan_session : jsval :=
  JObj [("id", JStr "s3"); ("title", JStr "Imported")].

Definition two_profiles_doc : jsval :=
  JObj [("profiles", arr [profile_a; profile_b]);
        ("activeProfileId", JStr "a");
        ("practice", arr [session_of_a; session_of_b; orphan_session]);
        ("competitions", arr [JObj [("id", JStr "c1"); ("profileId", JStr "a")]]);
        ("aimMaps", arr [JObj [("id", JStr "m1"); ("profileId", JStr "b")]]);
        ("settings", defaultSettings)].

Definition two_profiles_world : world := mkWorld two_profiles_doc None [].

Definition fresh_world : world := mkWorld (defaultState sample_uid sample_now 0) None [].

(** ** The forms, the profile controls, the aim editor, the correlation

    The functions below read the page through the values of its inputs.  A
    value is the text the input holds; an input looked up with [?.] may be
    missing ([None]), the others are taken to be in the page.  [trim] and
    [toLowerCase] are the language's, on texts whose code units are below
    256 (the white space there is TAB, LF, VT, FF, CR, SP and NBSP; the
    letters with a lower-case form are A-Z and 00C0-00DE except 00D7). *)

(** ** Numbers typed into the forms *)

(** [Math.min] and [Math.max] of two finite numbers. *)
Definition Math_min (a b : Q) : Q := if Qle_bool a b then a else b.
Definition Math_max (a b : Q) : Q := if Qle_bool a b then b else a.

(** [function clamp(n, lo, hi) { return Math.max(lo, Math.min(hi, n)); }] *)
Definition clamp (n lo hi : Q) : Q := Math_max lo (Math_min hi n).

(** ** Texts typed into the forms *)

Definition is_space (c : ascii) : bool :=
  let n := nat_of_ascii c in
  (n =? 9)%nat || (n =? 10)%nat || (n =? 11)%nat || (n =? 12)%nat
  || (n =? 13)%nat || (n =? 32)%nat || (n =? 160)%nat.

Fixpoint trimStart (s : string) : string :=
  match s with
  | EmptyString => EmptyString
  | String c s' => if is_space c then trimStart s' else s
  end.

Fixpoint trimEnd (s : string) : string :=
  match s with
  | EmptyString => EmptyString
  | String c s' =>
      match trimEnd s' with
      | EmptyString => if is_space c then EmptyString else String c EmptyString
      | t => String c t
      end
  end.

(** [s.trim()] *)
Definition trim (s : string) : string := trimEnd (trimStart s).

Definition lower_char (c : ascii) : ascii :=
  let n := nat_of_ascii c in
  if ((65 <=? n)%nat && (n <=? 90)%nat)
     || ((192 <=? n)%nat && (n <=? 222)%nat && negb (n =? 215)%nat)
  then ascii_of_nat (n + 32)
  else c.

(** [s.toLowerCase()] *)
Fixpoint toLowerCase (s : string) : string :=
  match s with
  | EmptyString => EmptyString
  | String c s' => String (lower_char c) (toLowerCase s')
  end.

Definition is_comma (c : ascii) : bool := (nat_of_ascii c =? 44)%nat.

(** [s.split(',')]: the pieces between the commas, at least one. *)
Fixpoint split_comma (s : string) : list string :=
  match s with
  | EmptyString => [EmptyString]
  | String c s' =>
      if is_comma c then EmptyString :: split_comma s'
      else match split_comma s' with
           | piece :: rest => String c piece :: rest
           | [] => [String c EmptyString]
           end
  end.

(** [s.slice(0, n)] *)
Fixpoint slice_to (n : nat) (s : string) : string :=
  match n, s with
  | S n', String c s' => String c (slice_to n' s')
  | _, _ => EmptyString
  end.

(** [function parseTags(s)], for the text of the tags input:
    [(s || '').split(',').map(t => t.trim().toLowerCase()).filter(Boolean).slice(0, 30)] *)
Definition parseTags (s : string) : list string :=
  firstn 30
    (filter (fun t => negb (is_empty t))
       (map (fun t => toLowerCase (trim t)) (split_comma s))).

(** What [editPractice] writes back into the tags input:
    [(sess.tags || []).join(', ')] for a list of tags. *)
Definition tags_text (tags : list string) : string := join ", " tags.

(** ** The active profile *)

(** [function getActiveProfileId()] on the global document. *)
Definition getActiveProfileId (state : jsval) : result jsval :=
  a <- get state "activeProfileId" ;;
  if truthy a then Ok a
  else
    let ps := prop state "profiles" in
    if truthy ps && truthy (prop ps "length") then
      p0 <- at_index ps 0 ;; get p0 "id"
    else Ok JNull.

(** [r => (r.profileId || pid) === pid] *)
Definition shown_for (pid r : jsval) : result bool :=
  o <- get r "profileId" ;; Ok (strict_eq (js_or o pid) pid).

(** [practiceForActive()], [competitionsForActive()], [aimMapsForActive()]
    for [k] = practice, competitions, aimMaps. *)
Definition forActive (k : string) (state : jsval) : result (list jsval) :=
  pid <- getActiveProfileId state ;;
  es <- as_array (js_or (prop state k) empty_arr) ;;
  filterM (shown_for pid) es.

Section Forms.

Variable uid : nat -> string.
Variable isoNow : nat -> string.
Variable StringToNumber : string -> jsnum.
Variable NumberToString : Q -> string.

(** [safeNumber(inp?.value)] *)
Definition input_number (text : option string) : Q :=
  safeNumber StringToNumber NumberToString
    (match text with Some t => JStr t | None => JUndefined end).

(** [clamp(safeNumber(inp.value), 0, 50)]: one round as the forms store it. *)
Definition round_score (text : string) : Q := clamp (input_number (Some text)) 0 50.

(** *** Practice rounds *)




(** *** The competition form *)

Record comp_form : Type := mkCompForm {
  c_date : string;
  c_event : string;
  c_location : string;
  c_round : string;
  c_category : option string;
  c_tens : option string;
  c_notes : string;
  c10_round : list string;           (* values of the inputs of class c10_round *)
  cset10 : list (string * string);   (* class cset10: data-set attribute, value *)
  cset15 : list (string * string);   (* class cset15: data-set attribute, value *)
  c_animal_name : nat -> option string;   (* name input of a distance *)
  c_animal_score : nat -> option string   (* score input of a distance *)
}.

Definition ANIMAL_DISTANCES : list nat := [10; 11; 12; 13; 14; 15]%nat.

(** [$('#c_category')?.value || 'adult'] *)
Definition category_choice (f : comp_form) : string :=
  match c_category f with
  | Some s => if is_empty s then "adult" else s
  | None => "adult"
  end.

(** The rounds of the inputs whose [data-set] attribute is [s]. *)
Definition flights (s : string) (inputs : list (string * string)) : list Q :=
  map (fun i => round_score (snd i)) (filter (fun i => String.eqb (fst i) s) inputs).

(** [function collectCompetitionBullseye()] *)
Definition collectCompetitionBullseye (f : comp_form) : jsval :=
  let cat := category_choice f in
  if String.eqb cat "cub" || String.eqb cat "beginner" then
    JObj [("format", JStr "4x10"); ("m10", numbers (map round_score (c10_round f)))]
  else
    JObj [("format", JStr "2sets");
          ("sets", arr [set_obj (flights "0" (cset10 f), flights "0" (cset15 f));
                        set_obj (flights "1" (cset10 f), flights "1" (cset15 f))])].

(** [{ distance: dist, animal: (nameInp?.value || '').trim(),
       score: clamp(safeNumber(scoreInp?.value), 0, 999) }] *)
Definition comp_animal_row (f : comp_form) (dist : nat) : jsval :=
  JObj [("distance", JNum (num_of_nat dist));
        ("animal", JStr (trim (match c_animal_name f dist with
                               | Some s => s
                               | None => ""
                               end)));
        ("score", JNum (clamp (input_number (c_animal_score f dist)) 0 999))].

(** The record the submit handler of the competition form builds, up to the
    point where it stores it: [None] when the handler returns because the
    date or the event is empty.  [editingCompId] is the id of the record
    being edited, or [null]. *)
Definition compForm_record (editingCompId : jsval) (f : comp_form) (state : jsval)
  : result (option jsval) :=
  let id := if truthy editingCompId then editingCompId else JStr (uid 0) in
  pid <- getActiveProfileId state ;;
  let comp :=
    JObj [("id", id);
          ("profileId", pid);
          ("date", JStr (c_date f));
          ("event", JStr (trim (c_event f)));
          ("location", JStr (trim (c_location f)));
          ("round", JStr (c_round f));
          ("category", if String.eqb (c_round f) "bullseye"
                       then JStr (category_choice f) else JNull);
          ("bullseye", JNull);
          ("animal", JNull);
          ("tens", JNum (clamp (input_number (c_tens f)) 0 999));
          ("notes", JStr (trim (c_notes f)));
          ("updatedAt", JStr (isoNow 0))] in
  if is_empty (c_date f) || is_empty (trim (c_event f)) then Ok None
  else
    let comp :=
      if String.eqb (c_round f) "bullseye"
      then set_prop comp "bullseye" (collectCompetitionBullseye f)
      else set_prop comp "animal" (arr (map (comp_animal_row f) ANIMAL_DISTANCES)) in
    Ok (Some (if truthy editingCompId then comp
              else set_prop comp "createdAt" (JStr (isoNow 0)))).

End Forms.

(** ** Correlation *)

Section Correlation.

(** [Math.sqrt], on the finite numbers it is given here. *)
Variable sqrt : Q -> Q.

(** One turn of the [for] loop of [pearson]:
    [const a = xs[i]-mx; const b = ys[i]-my; num += a*b; dx += a*a; dy += b*b;] *)
Definition pearson_step (mx my : Q) (acc : Q * Q * Q) (xy : Q * Q) : Q * Q * Q :=
  let '(num, dx, dy) := acc in
  let a := fst xy - mx in
  let b := snd xy - my in
  (num + a * b, dx + a * a, dy + b * b).

(** The three sums the loop leaves in [num], [dx] and [dy]. *)
Definition pearson_sums (xs ys : list Q) : Q * Q * Q :=
  fold_left (pearson_step (mean xs) (mean ys)) (combine xs ys) (0, 0, 0).

(** [function pearson(xs, ys)]; [None] stands for [null]. *)
Definition pearson (xs ys : list Q) : option Q :=
  if negb (length xs =? length ys)%nat || (length xs <? 2)%nat then None
  else
    let '(num, dx, dy) := pearson_sums xs ys in
    let den := sqrt (dx * dy) in
    if Qeq_bool den 0 then None else Some (num / den).

End Correlation.

(** ** Aim points of the map being edited

    [aimDraft] is the copy of an aim map the editor works on.  The distance
    passed by the click handlers is [getCurrentAimDistance()], a finite
    number. *)

Fixpoint findM {A} (f : A -> result bool) (l : list A) : result (option A) :=
  match l with
  | [] => Ok None
  | a :: l' => hit <- f a ;; if hit then Ok (Some a) else findM f l'
  end.

(** [m => m.distance === distance] *)
Definition at_distance (distance : Q) (m : jsval) : result bool :=
  d <- get m "distance" ;; Ok (strict_eq d (JNum distance)).

(** [m => m.distance !== distance] *)
Definition off_distance (distance : Q) (m : jsval) : result bool :=
  d <- get m "distance" ;; Ok (negb (strict_eq d (JNum distance))).

(** [function markForDistance(distance)] *)
Definition markForDistance (aimDraft : jsval) (distance : Q) : result jsval :=
  ms <- get aimDraft "marks" ;;
  es <- as_array (js_or ms empty_arr) ;;
  found <- findM (at_distance distance) es ;;
  Ok (match found with
      | Some m => js_or m JNull
      | None => JNull
      end).

(** [{ distance, x, y }] *)
Definition mark (distance x y : Q) : jsval :=
  JObj [("distance", JNum distance); ("x", JNum x); ("y", JNum y)].

(** [function clearMark(distance)], giving the draft it leaves. *)
Definition clearMark (aimDraft : jsval) (distance : Q) : result jsval :=
  ms <- get aimDraft "marks" ;;
  es <- as_array (js_or ms empty_arr) ;;
  kept <- filterM (off_distance distance) es ;;
  Ok (set_prop aimDraft "marks" (arr kept)).

(** [function setMark(distance, x, y)], giving the draft it leaves.  The
    [push] goes to [aimDraft.marks] as read back after the assignment, which
    is the filtered list when the draft is an object. *)
Definition setMark (aimDraft : jsval) (distance x y : Q) : result jsval :=
  d1 <- clearMark aimDraft distance ;;
  es <- as_array (prop d1 "marks") ;;
  Ok (set_prop d1 "marks" (arr (es ++ [mark distance x y]))).

(** ** Adding a profile *)

Section Profiles.

Variable uid : nat -> string.
Variable isoNow : nat -> string.
Variable StringToNumber : string -> jsnum.
Variable NumberToString : Q -> string.

(** [!Array.isArray(state.profiles) || state.profiles.length === 0]: the
    test under which [ensureProfiles] draws an id. *)
Definition lacks_profiles (st : jsval) : bool :=
  negb (isArray (prop st "profiles"))
  || (length (elems_of (prop st "profiles")) =? 0)%nat.

(** [ensureProfiles()] as a handler runs it on the global document: when a
    statement raises, the document stays as the statements before it left
    it. *)
Definition ensureProfiles_run (i : nat) (w : world) : world * option exn :=
  let w1 := set_doc w (synthesize_profiles uid isoNow i (doc w)) in
  match default_active (doc w1) with
  | Throw e => (w1, Some e)
  | Ok st =>
      let pid := prop st "activeProfileId" in
      run_statements
        [fun w => st <- update_list_or_empty "practice" (backfill pid) (doc w) ;;
                  Ok (set_doc w st);
         fun w => st <- update_list_or_empty "competitions" (backfill pid) (doc w) ;;
                  Ok (set_doc w st);
         fun w => st <- update_list_or_empty "aimMaps" (backfill pid) (doc w) ;;
                  Ok (set_doc w st)]
        (set_doc w1 st)
  end.

Definition up_to_five : string := "You can have up to 5 profiles.".
Definition enter_a_name : string := "Enter a name for the new profile.".

(** [n >= 5] for the value of [state.profiles.length]. *)
Definition five_or_more (v : jsval) : bool :=
  match ToNumber StringToNumber NumberToString v with
  | Fin q => Qle_bool 5 q
  | PInf => true
  | _ => false
  end.

(** [state.profiles.push({ id: uid(), name, createdAt: new Date().toISOString() })] *)
Definition push_profile (j : nat) (name : string) (w : world) : result world :=
  ps <- get (doc w) "profiles" ;;
  match ps with
  | JArr es xs =>
      Ok (set_doc w
            (set_prop (doc w) "profiles"
               (JArr (es ++ [JObj [("id", JStr (uid j)); ("name", JStr name);
                                   ("createdAt", JStr (isoNow j))]]) xs)))
  | _ => Throw TypeError
  end.

(** The [click] handler of the Add button, through its [saveState()].
    [newProfileName] is the text of the name input ([None]: no such input);
    [i] numbers the first call of [uid()] and of the clock that the handler
    makes, which is the one of [ensureProfiles] when it has to supply a
    profile. *)
Definition addProfileBtn_click (i : nat) (newProfileName : option string) (w : world)
  : world * option exn :=
  match ensureProfiles_run i w with
  | (w1, Some e) => (w1, Some e)
  | (w1, None) =>
      match (ps <- get (doc w1) "profiles" ;; get ps "length") with
      | Throw e => (w1, Some e)
      | Ok len =>
          if five_or_more len then (alert up_to_five w1, None)
          else
            let name :=
              slice_to 40 (trim (match newProfileName with Some s => s | None => "" end)) in
            if is_empty name then (alert enter_a_name w1, None)
            else
              let j := if lacks_profiles (doc w) then S i else i in
              run_statements
                [push_profile j name; fun w => Ok (saveState NumberToString w)] w1
      end
  end.

End Profiles.

(** ** The built-in aim maps *)

Section AimMaps.

Variable uid : nat -> string.
Variable NumberToString : Q -> string.

(** [const DEFAULT_ANIMALS = [ { key: 'buck', name: 'Buck' }, ... ];] as
    pairs of key and name. *)
Definition DEFAULT_ANIMALS : list (string * string) :=
  [("buck", "Buck"); ("warthog", "Warthog"); ("bushpig", "Bushpig");
   ("baboon", "Baboon"); ("porcupine", "Porcupine")].

(** [{ id: uid(), name, type, imageKind: 'builtin', builtinKey, imageData: null, marks: [] }] *)
Definition builtin_map (i : nat) (name type key : string) : jsval :=
  JObj [("id", JStr (uid i)); ("name", JStr name); ("type", JStr type);
        ("imageKind", JStr "builtin"); ("builtinKey", JStr key);
        ("imageData", JNull); ("marks", empty_arr)].

(** [state.aimMaps.push(m)] *)
Definition push_aimMap (m : jsval) (w : world) : result world :=
  ms <- get (doc w) "aimMaps" ;;
  match ms with
  | JArr es xs => Ok (set_doc w (set_prop (doc w) "aimMaps" (JArr (es ++ [m]) xs)))
  | _ => Throw TypeError
  end.

(** The maps [defaultAimMapsIfEmpty] pushes, in order: the paper target,
    then one map for each default animal; [i] numbers its first call of
    [uid()]. *)
Definition default_aim_maps (i : nat) : list jsval :=
  builtin_map i "Paper target" "paper" "paper"
  :: map (fun na => builtin_map (fst na) (snd (snd na)) "animal" (fst (snd na)))
       (combine (seq (S i) (length DEFAULT_ANIMALS)) DEFAULT_ANIMALS).

(** [function defaultAimMapsIfEmpty()] *)
Definition defaultAimMapsIfEmpty (i : nat) (w : world) : world * option exn :=
  match (ms <- get (doc w) "aimMaps" ;; get ms "length") with
  | Throw e => (w, Some e)
  | Ok len =>
      if truthy len then (w, None)
      else
        run_statements
          (map push_aimMap (default_aim_maps i)
             ++ [fun w => Ok (saveState NumberToString w)]) w
  end.

End AimMaps.

(** ** Notions used in the statements about the forms *)

(** [const ARCHER_CATEGORIES = ['cub','beginner','junior','senior','adult'];] *)
Definition ARCHER_CATEGORIES : list string :=
  ["cub"; "beginner"; "junior"; "senior"; "adult"].

(** The score inputs as [renderCompBullseyeDynamic] draws them for the
    chosen category: four of class c10_round for a cub or a beginner;
    otherwise, for the set 0 and then for the set 1, three of class cset10
    and three of class cset15.  Their values are the user's. *)
Definition drawn_inputs (f : comp_form) : Prop :=
  if String.eqb (category_choice f) "cub" || String.eqb (category_choice f) "beginner"
  then length (c10_round f) = 4%nat
  else map fst (cset10 f) = ["0"; "0"; "0"; "1"; "1"; "1"]
       /\ map fst (cset15 f) = ["0"; "0"; "0"; "1"; "1"; "1"].


(** ** Notions used in the statements about tags *)

Fixpoint no_comma (s : string) : bool :=
  match s with
  | EmptyString => true
  | String c s' => negb (is_comma c) && no_comma s'
  end.

(** A tag as [parseTags] stores it: not empty, without comma, without white
    space at either end, in lower case. *)
Definition clean_tag (t : string) : Prop :=
  t <> "" /\ no_comma t = true /\ trim t = t /\ toLowerCase t = t.

(** ** Notions used in the statements about profiles *)

(** A record list on which the back-fill with [pid] has nothing left to do:
    absent, or a list whose records all keep their owner. *)
Definition backfilled (pid v : jsval) : Prop :=
  truthy v = false
  \/ exists es xs, v = JArr es xs /\ Forall (fun r => backfill pid r = r) es.

(** The documents [ensureProfiles] leaves as they are. *)
Definition Ensured (st : jsval) : Prop :=
  is_container st = true
  /\ profiles_ok (prop st "profiles") (prop st "activeProfileId")
  /\ set_prop st "activeProfileId" (prop st "activeProfileId") = st
  /\ backfilled (prop st "activeProfileId") (prop st "practice")
  /\ backfilled (prop st "activeProfileId") (prop st "competitions")
  /\ backfilled (prop st "activeProfileId") (prop st "aimMaps").

(** Number of profiles of a document. *)
Definition profile_count (st : jsval) : nat := length (elems_of (prop st "profiles")).

(** A text that does not start with white space. *)
Definition starts_clean (s : string) : bool :=
  match s with
  | EmptyString => true
  | String c _ => negb (is_space c)
  end.

(** ** Sample data for the concrete runs of the forms, the editor and the
    settings *)

(** A cub's result typed into the competition form: four rounds, one above
    the range and one below it. *)
Definition sample_comp_form : comp_form :=
  mkCompForm "2024-05-01" " Club shoot " "" "bullseye" (Some "cub") (Some "3") ""
    ["12"; "50"; "70"; "-3"] [] [] (fun _ => None) (fun _ => None).



(** An aim map being edited, with an aim point at 10 m and one at 15 m. *)
Definition sample_aim_draft : jsval :=
  JObj [("id", JStr "m1"); ("name", JStr "Paper target"); ("type", JStr "paper");
        ("marks", arr [mark 10 (1 # 2) (1 # 2); mark 15 (1 # 4) (3 # 4)])].

(** A square root for the concrete runs: the root to twenty binary places,
    rounded down; it is exact on 0. *)
Definition sample_sqrt (q : Q) : Q :=
  inject_Z (Z.sqrt (Qnum q * 2 ^ 40 / Zpos (Qden q))) / inject_Z (2 ^ 20).

(** The two-profile document as [loadState] would return it. *)
Definition loaded_world : world :=
  mkWorld (normalize sample_uid sample_now two_profiles_doc) None [].

(** * Proofs *)

(** ** Sums of rationals *)

Section Sums.

Local Open Scope Q_scope.

Lemma fold_left_Qplus (l : list Q) (a : Q) : fold_left Qplus l a == a + Qsum l.
Proof.
  revert a; induction l as [|x l IH]; intros a; simpl.
  - ring.
  - rewrite IH. ring.
Qed.

Lemma num_of_nat_S (n : nat) : num_of_nat (S n) == num_of_nat n + 1.
Proof.
  unfold num_of_nat. rewrite Nat2Z.inj_succ, <- Z.add_1_r, inject_Z_plus. reflexivity.
Qed.

Lemma num_of_nat_nonneg (n : nat) : 0 <= num_of_nat n.
Proof. unfold num_of_nat. change 0 with (inject_Z 0). rewrite <- Zle_Qle. lia. Qed.

Lemma fst_combine {A B} (xs : list A) (ys : list B) :
  length xs = length ys -> map fst (combine xs ys) = xs.
Proof.
  revert ys; induction xs as [|x xs IH]; intros [|y ys] H; simpl in *; try discriminate; auto.
  f_equal. apply IH. lia.
Qed.

Lemma snd_combine {A B} (xs : list A) (ys : list B) :
  length xs = length ys -> map snd (combine xs ys) = ys.
Proof.
  revert ys; induction xs as [|x xs IH]; intros [|y ys] H; simpl in *; try discriminate; auto.
  f_equal. apply IH. lia.
Qed.

Lemma map_on_fst {A B C} (g : A -> C) (xs : list A) (ys : list B) :
  length xs = length ys ->
  map (fun p : A * B => g (fst p)) (combine xs ys) = map g xs.
Proof. intros H. rewrite <- (map_map fst g), fst_combine; auto. Qed.

End Sums.

(** ** linearSlope *)

Section Statistics.

Local Open Scope Q_scope.

(** What the loop of [linearSlope] has accumulated when it ends. *)
Lemma loop_sums (mx my : Q) (l : list (Q * Q)) (nd : Q * Q) :
  fst (fold_left (slope_step mx my) l nd)
    == fst nd + Qsum (map (fun p => (fst p - mx) * (snd p - my)) l)
  /\ snd (fold_left (slope_step mx my) l nd)
    == snd nd + Qsum (map (fun p => (fst p - mx) * (fst p - mx)) l).
Proof.
  revert nd; induction l as [|p l IH]; intros nd; simpl.
  - split; ring.
  - destruct (IH (slope_step mx my nd p)) as [H1 H2].
    rewrite H1, H2. unfold slope_step; simpl. split; ring.
Qed.

Lemma centered_products (a b : Q) (l : list (Q * Q)) :
  Qsum (map (fun p => (fst p - a) * (snd p - b)) l)
  == Qsum (map (fun p => fst p * snd p) l)
     - a * Qsum (map snd l) - b * Qsum (map fst l)
     + num_of_nat (length l) * a * b.
Proof.
  induction l as [|p l IH]; simpl length; simpl map; simpl Qsum.
  - unfold num_of_nat; simpl. ring.
  - rewrite IH, num_of_nat_S. ring.
Qed.

Lemma centered_squares (a : Q) (l : list Q) :
  Qsum (map (fun x => (x - a) * (x - a)) l)
  == Qsum (map (fun x => x * x) l) - 2 * a * Qsum l + num_of_nat (length l) * a * a.
Proof.
  induction l as [|p l IH]; simpl length; simpl map; simpl Qsum.
  - unfold num_of_nat; simpl. ring.
  - rewrite IH, num_of_nat_S. ring.
Qed.

Lemma squares_nonneg (a : Q) (l : list Q) :
  0 <= Qsum (map (fun x => (x - a) * (x - a)) l).
Proof.
  induction l as [|p l IH]; simpl.
  - apply Qle_refl.
  - set (s := Qsum _) in *. set (d := p - a). nra.
Qed.

(** Two different positions cannot both equal the mean: with at least two
    entries the spread of the positions is positive. *)
Lemma index_spread_positive (a : Q) (k : nat) :
  0 < Qsum (map (fun x => (x - a) * (x - a)) (keys (S (S k)))).
Proof.
  unfold keys. simpl seq. simpl map. simpl Qsum.
  pose proof (squares_nonneg a (map num_of_nat (seq 2 k))) as H.
  set (s := Qsum _) in *.
  change (num_of_nat 0) with 0. change (num_of_nat 1) with 1.
  nra.
Qed.

Lemma keys_length (n : nat) : length (keys n) = n.
Proof. unfold keys. rewrite length_map, length_seq. reflexivity. Qed.

Lemma mean_as_sum (l : list Q) :
  l <> [] -> mean l == Qsum l / num_of_nat (length l).
Proof.
  destruct l as [|x l]; [congruence|]. intros _. unfold mean.
  rewrite fold_left_Qplus. unfold Qdiv. ring.
Qed.

Lemma linearSlope_loop (vs : list Q) :
  (2 <= length vs)%nat ->
  let F := fold_left (slope_step (mean (keys (length vs))) (mean vs))
             (combine (keys (length vs)) vs) (0, 0) in
  linearSlope vs = Some (fst F / snd F) /\ 0 < snd F.
Proof.
  intros Hlen F.
  assert (Hpos : 0 < snd F).
  { destruct (loop_sums (mean (keys (length vs))) (mean vs)
                (combine (keys (length vs)) vs) (0, 0)) as [_ Hden].
    fold F in Hden. cbn [snd] in Hden.
    rewrite (map_on_fst (fun x => (x - mean (keys (length vs))) * (x - mean (keys (length vs)))))
      in Hden by apply keys_length.
    rewrite Hden.
    destruct (length vs) as [|[|k]]; [lia | lia |].
    pose proof (index_spread_positive (mean (keys (S (S k)))) k). lra. }
  split; [|exact Hpos].
  unfold linearSlope.
  replace (length vs <? 2)%nat with false by (symmetry; apply Nat.ltb_ge; lia).
  fold F. destruct F as [num den]. cbn [fst snd] in *.
  destruct (Qeq_bool den 0) eqn:Q0; [|reflexivity].
  apply Qeq_bool_eq in Q0. rewrite Q0 in Hpos. exfalso. apply (Qlt_irrefl 0 Hpos).
Qed.



End Statistics.

(** ** Own properties: reading after writing *)

Lemma lookup_put_same k v ps : lookup k (put k v ps) = Some v.
Proof.
  induction ps as [|[k' v'] ps IH]; simpl.
  - now rewrite String.eqb_refl.
  - destruct (String.eqb k k') eqn:E; simpl; rewrite E; auto.
Qed.

Lemma lookup_put_other k k' v ps :
  String.eqb k' k = false -> lookup k' (put k v ps) = lookup k' ps.
Proof.
  intros N. induction ps as [|[k0 v0] ps IH]; simpl.
  - now rewrite N.
  - destruct (String.eqb k k0) eqn:E; simpl.
    + apply String.eqb_eq in E. subst k0. now rewrite N.
    + now rewrite IH.
Qed.

Lemma put_present k v ps : lookup k ps = Some v -> put k v ps = ps.
Proof.
  induction ps as [|[k' v'] ps IH]; simpl; [discriminate|].
  destruct (String.eqb k k') eqn:E.
  - intros [= ->]. reflexivity.
  - intros H. now rewrite IH.
Qed.

Lemma put_keys_present k v ps :
  In k (map fst ps) -> map fst (put k v ps) = map fst ps.
Proof.
  induction ps as [|[k' v'] ps IH]; simpl; [tauto|].
  destruct (String.eqb k k') eqn:E; simpl; [reflexivity|].
  intros [H|H]; [subst; now rewrite String.eqb_refl in E|]. now rewrite IH.
Qed.

Lemma put_keys_absent k v ps :
  ~ In k (map fst ps) -> put k v ps = ps ++ [(k, v)].
Proof.
  induction ps as [|[k' v'] ps IH]; simpl; [reflexivity|].
  intros H. destruct (String.eqb k k') eqn:E.
  - apply String.eqb_eq in E. subst. tauto.
  - rewrite IH; tauto.
Qed.

Lemma put_app_skip k v done l :
  ~ In k (map fst done) -> put k v (done ++ l) = done ++ put k v l.
Proof.
  induction done as [|[k' v'] done IH]; simpl; [reflexivity|].
  intros H. destruct (String.eqb k k') eqn:E.
  - apply String.eqb_eq in E. subst. tauto.
  - rewrite IH; tauto.
Qed.

Lemma lookup_in_keys k ps v : lookup k ps = Some v -> In k (map fst ps).
Proof.
  induction ps as [|[k' v'] ps IH]; simpl; [discriminate|].
  destruct (String.eqb k k') eqn:E.
  - apply String.eqb_eq in E. auto.
  - auto.
Qed.

(** Assigning all the properties of a list to a target whose keys are the
    first keys of that list, in the same order, gives the list back. *)
Lemma assign_onto_prefix todo : forall done rest,
  NoDup (map fst (done ++ todo)) ->
  map fst rest = map fst (firstn (length rest) todo) ->
  fold_left assign_step todo (done ++ rest) = done ++ todo.
Proof.
  induction todo as [|[k v] todo IH]; intros done rest ND Hk.
  - destruct rest; [reflexivity|]. simpl in Hk. discriminate.
  - assert (Hnot : ~ In k (map fst done)).
    { rewrite map_app in ND. simpl in ND. apply NoDup_remove_2 in ND.
      intros X. apply ND, in_or_app. now left. }
    simpl fold_left. unfold assign_step at 2; simpl fst; simpl snd.
    rewrite put_app_skip by exact Hnot.
    replace (done ++ (k, v) :: todo) with ((done ++ [(k, v)]) ++ todo)
      by now rewrite <- app_assoc.
    destruct rest as [|[k' v'] rest].
    + simpl put. rewrite <- (app_nil_r (done ++ [(k, v)])) at 1.
      apply IH; [now rewrite <- app_assoc | reflexivity].
    + simpl in Hk. injection Hk as -> Hk. simpl put. rewrite String.eqb_refl.
      replace (done ++ (k, v) :: rest) with ((done ++ [(k, v)]) ++ rest)
        by now rewrite <- app_assoc.
      apply IH; [now rewrite <- app_assoc | exact Hk].
Qed.

Lemma put_NoDup k v ps : NoDup (map fst ps) -> NoDup (map fst (put k v ps)).
Proof.
  intros ND. destruct (in_dec string_dec k (map fst ps)) as [I|I].
  - now rewrite put_keys_present.
  - rewrite put_keys_absent, map_app by exact I. simpl.
    apply NoDup_app; [exact ND | repeat constructor; simpl; tauto |].
    intros a Ha [<-|[]]. now apply I.
Qed.

Lemma put_prefix k v (pre ps : list (string * jsval)) :
  map fst (firstn (length pre) ps) = map fst pre ->
  map fst (firstn (length pre) (put k v ps)) = map fst pre.
Proof.
  revert ps; induction pre as [|[k0 v0] pre IH]; intros ps H; simpl; [reflexivity|].
  destruct ps as [|[k1 v1] ps]; simpl in H; [discriminate|].
  injection H as -> H. simpl.
  destruct (String.eqb k k0); simpl; f_equal; auto.
Qed.

(** ** Reading and writing properties of values *)

Lemma prop_set_same v k x :
  is_container v = true -> String.eqb k "length" = false ->
  prop (set_prop v k x) k = x.
Proof.
  destruct v; try discriminate; intros _ Hk; simpl.
  - now rewrite Hk, lookup_put_same.
  - now rewrite lookup_put_same.
Qed.

Lemma prop_set_other v k k' x :
  String.eqb k' k = false -> prop (set_prop v k x) k' = prop v k'.
Proof.
  intros N. destruct v; simpl; try reflexivity.
  - destruct (String.eqb k' "length"); [reflexivity|]. now rewrite lookup_put_other.
  - now rewrite lookup_put_other.
Qed.

Lemma put_put k x y ps : put k y (put k x ps) = put k y ps.
Proof.
  induction ps as [|[k' v'] ps IH]; simpl.
  - now rewrite String.eqb_refl.
  - destruct (String.eqb k k') eqn:E; simpl; rewrite E; [reflexivity | now rewrite IH].
Qed.

Lemma set_set v k x y : set_prop (set_prop v k x) k y = set_prop v k y.
Proof. destruct v; simpl; try reflexivity; now rewrite put_put. Qed.

Lemma set_self v k :
  prop v k <> JUndefined -> String.eqb k "length" = false ->
  set_prop v k (prop v k) = v.
Proof.
  destruct v; simpl; try reflexivity; intros H Hk.
  - rewrite Hk in *. destruct (lookup k extra) eqn:E; [|congruence].
    now rewrite (put_present _ _ _ E).
  - destruct (lookup k props) eqn:E; [|congruence].
    now rewrite (put_present _ _ _ E).
Qed.

Lemma set_fixed_other v k x k' y :
  set_prop v k x = v -> String.eqb k k' = false ->
  set_prop (set_prop v k' y) k x = set_prop v k' y.
Proof.
  intros F N. destruct v; simpl in *; try reflexivity.
  - injection F as F. f_equal. apply put_present.
    rewrite lookup_put_other by exact N. rewrite <- F. apply lookup_put_same.
  - injection F as F. f_equal. apply put_present.
    rewrite lookup_put_other by exact N. rewrite <- F. apply lookup_put_same.
Qed.

Lemma truthy_set v k x : truthy (set_prop v k x) = truthy v.
Proof. destruct v; reflexivity. Qed.

Lemma container_set v k x : is_container (set_prop v k x) = is_container v.
Proof. destruct v; reflexivity. Qed.

Lemma truthy_prop_container v k :
  truthy (prop v k) = true -> String.eqb k "length" = false -> is_container v = true.
Proof.
  destruct v; simpl; try discriminate; auto.
  intros H Hk. rewrite Hk in H. discriminate.
Qed.


Lemma container_truthy v : is_container v = true -> truthy v = true.
Proof. destruct v; simpl; auto; discriminate. Qed.

Lemma prop_of_primitive v k :
  is_container v = false -> String.eqb k "length" = false -> prop v k = JUndefined.
Proof. destruct v; simpl; try discriminate; auto. intros _ ->. reflexivity. Qed.

Lemma set_primitive v k x : is_container v = false -> set_prop v k x = v.
Proof. destruct v; simpl; try discriminate; auto. Qed.

Lemma get_nonnull v k : nullish v = false -> get v k = Ok (prop v k).
Proof. unfold get. now intros ->. Qed.

Lemma container_present v : is_container v = true -> nullish v = false.
Proof. destruct v; simpl; auto; discriminate. Qed.

(** ** Scoring *)

Section Scoring.

Local Open Scope Q_scope.

Variable StringToNumber : string -> jsnum.
Variable NumberToString : Q -> string.


Lemma fold_safe_numbers xs a :
  fold_left (fun s n => s + safeNumber StringToNumber NumberToString n) (map JNum xs) a
  = fold_left Qplus xs a.
Proof. revert a; induction xs as [|x xs IH]; intros a; simpl; [reflexivity | apply IH]. Qed.


Lemma reduce_safe_numbers xs ex :
  reduce_safe StringToNumber NumberToString (JArr (map JNum xs) ex) = Ok (fold_left Qplus xs 0).
Proof. unfold reduce_safe. cbn [js_or truthy as_array bind]. now rewrite fold_safe_numbers. Qed.

Lemma fold_sets sets a :
  exists t,
    foldM (fun sum0 set =>
             m10 <- get set "m10" ;; s10 <- reduce_safe StringToNumber NumberToString m10 ;;
             m15 <- get set "m15" ;; s15 <- reduce_safe StringToNumber NumberToString m15 ;;
             Ok (sum0 + s10 + s15)) (map set_obj sets) a = Ok t
    /\ t == a + Qsum (map (fun r => Qsum (fst r) + Qsum (snd r)) sets).
Proof.
  revert a; induction sets as [|[m10 m15] sets IH]; intros a.
  - exists a. split; [reflexivity | simpl; ring].
  - cbn [map foldM].
    change (get (set_obj (m10, m15)) "m10") with (Ok (JArr (map JNum m10) [])).
    change (get (set_obj (m10, m15)) "m15") with (Ok (JArr (map JNum m15) [])).
    cbn [bind]. rewrite !reduce_safe_numbers. cbn [bind].
    destruct (IH (a + fold_left Qplus m10 0 + fold_left Qplus m15 0)) as (t & E & Ht).
    exists t. split; [exact E|]. rewrite Ht, !fold_left_Qplus. cbn [map Qsum fst snd]. ring.
Qed.













End Scoring.



(** ** Serialization: the indented text against the compact text *)

Lemma app_assoc_s (a b c : string) : ((a ++ b) ++ c = a ++ (b ++ c))%string.
Proof. induction a as [|x a IH]; simpl; [reflexivity | now rewrite IH]. Qed.

Lemma app_empty_s (a : string) : (a ++ "")%string = a.
Proof. induction a as [|x a IH]; simpl; [reflexivity | now rewrite IH]. Qed.

Lemma strip_plain (t rest : string) :
  plain_text t = true ->
  strip_from Outside (t ++ rest) = (t ++ strip_from Outside rest)%string.
Proof.
  induction t as [|c t IH]; simpl; intros H; [reflexivity|].
  apply andb_prop in H as [H Ht]. apply andb_prop in H as [Hw Hq].
  apply negb_true_iff in Hw, Hq. rewrite Hw, Hq, IH by exact Ht. reflexivity.
Qed.

Lemma strip_blank (t rest : string) :
  blank t = true -> strip_from Outside (t ++ rest) = strip_from Outside rest.
Proof.
  induction t as [|c t IH]; simpl; intros H; [reflexivity|].
  apply andb_prop in H as [Hw Ht]. rewrite Hw. auto.
Qed.

Lemma strip_escape_char (c : ascii) (rest : string) :
  strip_from Inside (escape_char c ++ rest)
  = (escape_char c ++ strip_from Inside rest)%string.
Proof.
  destruct c as [[] [] [] [] [] [] [] []]; reflexivity.
Qed.

Lemma strip_escape_all (s rest : string) :
  strip_from Inside (escape_all s ++ rest)
  = (escape_all s ++ strip_from Inside rest)%string.
Proof.
  induction s as [|c s IH]; simpl; [reflexivity|].
  rewrite !app_assoc_s, strip_escape_char, IH. reflexivity.
Qed.

Lemma strip_quoted (s rest : string) :
  strip_from Outside (QuoteJSONString s ++ rest)
  = (QuoteJSONString s ++ strip_from Outside rest)%string.
Proof.
  unfold QuoteJSONString. rewrite !app_assoc_s.
  change (strip_from Outside (dquote ++ escape_all s ++ dquote ++ rest))
    with (String "034"%char (strip_from Inside (escape_all s ++ dquote ++ rest))).
  rewrite strip_escape_all. reflexivity.
Qed.

Lemma tight_plain t : plain_text t = true -> tight t t.
Proof. intros H rest. apply strip_plain, H. Qed.

Lemma tight_quoted s : tight (QuoteJSONString s) (QuoteJSONString s).
Proof. intros rest. apply strip_quoted. Qed.

Lemma tight_app a ac b bc : tight a ac -> tight b bc -> tight (a ++ b) (ac ++ bc).
Proof. intros Ha Hb rest. rewrite !app_assoc_s, Ha, Hb. reflexivity. Qed.

Lemma tight_blank a : blank a = true -> tight a "".
Proof. intros H rest. simpl. apply strip_blank, H. Qed.

Lemma blank_app a b : blank a = true -> blank b = true -> blank (a ++ b) = true.
Proof.
  induction a as [|c a IH]; simpl; intros Ha Hb; [exact Hb|].
  apply andb_prop in Ha as [Hc Ha]. rewrite Hc. simpl. auto.
Qed.

Lemma tight_join sep parts partsc :
  blank sep = true ->
  Forall2 tight parts partsc ->
  tight (join ("," ++ sep) parts) (join "," partsc).
Proof.
  intros Hsep H. induction H as [|p pc l lc Hp Hl IH].
  - intros rest. reflexivity.
  - destruct Hl as [|q qc l lc Hq Hl].
    + exact Hp.
    + change (join ("," ++ sep) (p :: q :: l))
        with (p ++ ("," ++ sep) ++ join ("," ++ sep) (q :: l))%string.
      change (join "," (pc :: qc :: lc)) with (pc ++ "," ++ join "," (qc :: lc))%string.
      apply tight_app; [exact Hp|].
      change ("," ++ join "," (qc :: lc))%string with (("," ++ "") ++ join "," (qc :: lc))%string.
      apply tight_app; [|exact IH].
      apply tight_app; [apply tight_plain; reflexivity | apply tight_blank, Hsep].
Qed.

Lemma tight_wrap opening closing stepback indent parts partsc :
  plain_text opening = true -> plain_text closing = true ->
  blank stepback = true -> blank indent = true ->
  Forall2 tight parts partsc ->
  tight (wrap "  " opening closing stepback indent parts)
        (wrap "" opening closing "" "" partsc).
Proof.
  intros Ho Hc Hs Hi H. unfold wrap.
  destruct H as [|p pc l lc Hp Hl].
  - apply tight_app; apply tight_plain; assumption.
  - cbn [is_empty].
    apply tight_app; [apply tight_plain, Ho|].
    change (join "," (pc :: lc) ++ closing)%string
      with ("" ++ "" ++ join "," (pc :: lc) ++ "" ++ "" ++ closing)%string.
    apply tight_app; [apply tight_blank; reflexivity|].
    apply tight_app; [apply tight_blank, Hi|].
    apply tight_app.
    { apply (tight_join (nl ++ indent)).
      - apply blank_app; [reflexivity | exact Hi].
      - constructor; assumption. }
    apply tight_app; [apply tight_blank; reflexivity|].
    apply tight_app; [apply tight_blank, Hs|].
    apply tight_plain, Hc.
Qed.

Lemma plain_decimal (u : Decimal.uint) : plain_text (NilEmpty.string_of_uint u) = true.
Proof. induction u; simpl; auto. Qed.

Lemma sample_number_plain (q : Q) : plain_text (sample_NumberToString q) = true.
Proof.
  unfold sample_NumberToString. destruct (Z.to_int _) as [u|u]; simpl.
  - destruct u; try apply (plain_decimal (Decimal.D0 _)); try reflexivity;
      apply plain_decimal.
  - destruct u; try reflexivity; apply plain_decimal.
Qed.

Section Stripping.

Variable NumberToString : Q -> string.
Hypothesis number_plain : forall q, plain_text (NumberToString q) = true.

Lemma agree_items indent es :
  Forall (fun e => forall i, blank i = true -> agree NumberToString i e) es ->
  blank indent = true ->
  Forall2 tight
    (map (item (SerializeJSONProperty NumberToString "  " indent)) es)
    (map (item (SerializeJSONProperty NumberToString "" "")) es).
Proof.
  intros H Hi. induction H as [|e es He Hes IH]; simpl; constructor; auto.
  specialize (He indent Hi). unfold agree in He. unfold item.
  destruct (SerializeJSONProperty NumberToString "  " indent e),
           (SerializeJSONProperty NumberToString "" "" e); try contradiction; auto.
  apply tight_plain; reflexivity.
Qed.

Lemma agree_members indent ps :
  Forall (fun kv => forall i, blank i = true -> agree NumberToString i (snd kv)) ps ->
  blank indent = true ->
  Forall2 tight
    (members (SerializeJSONProperty NumberToString "  " indent) ": " ps)
    (members (SerializeJSONProperty NumberToString "" "") ":" ps).
Proof.
  intros H Hi. induction H as [|[k e] ps He Hes IH]; cbn [members]; [constructor|].
  specialize (He indent Hi). unfold agree in He. cbn [snd] in He.
  destruct (SerializeJSONProperty NumberToString "  " indent e) as [t|],
           (SerializeJSONProperty NumberToString "" "" e) as [tc|]; try contradiction; auto.
  constructor; [|exact IH].
  apply tight_app; [apply tight_quoted|].
  change (":" ++ tc)%string with ((":" ++ "") ++ tc)%string.
  change (": " ++ t)%string with ((":" ++ " ") ++ t)%string.
  apply tight_app; [|exact He].
  apply tight_app; [apply tight_plain | apply tight_blank]; reflexivity.
Qed.

Lemma pretty_agrees v : forall indent, blank indent = true -> agree NumberToString indent v.
Proof.
  induction v using jsval_ind; intros indent Hi; unfold agree;
    cbn [SerializeJSONProperty is_empty].
  - exact I.
  - apply tight_plain; reflexivity.
  - destruct b; apply tight_plain; reflexivity.
  - apply tight_plain, number_plain.
  - apply tight_quoted.
  - apply tight_wrap; try reflexivity; try assumption.
    + apply blank_app; [assumption | reflexivity].
    + apply agree_items; [assumption|]. apply blank_app; [assumption | reflexivity].
  - apply tight_wrap; try reflexivity; try assumption.
    + apply blank_app; [assumption | reflexivity].
    + apply agree_members; [assumption|]. apply blank_app; [assumption | reflexivity].
Qed.

(** C1 (as amended).  The text of the Export action is the serialization
    of the same document with two-space indentation: once the blanks and
    line ends outside its string literals are removed it is, character for
    character, the text [saveState] puts in the storage slot. *)
Theorem export_is_saved_text_modulo_blanks (w : world) :
  slot (saveState NumberToString w) = Some (strip_ws (exportBtn_click NumberToString w)).
Proof.
  unfold saveState, exportBtn_click, JSON_stringify, JSON_stringify_2. cbn [slot].
  f_equal. pose proof (pretty_agrees (doc w) "" eq_refl) as H. unfold agree in H.
  destruct (SerializeJSONProperty NumberToString "  " "" (doc w)) as [t|],
           (SerializeJSONProperty NumberToString "" "" (doc w)) as [tc|];
    try contradiction; cbn [as_text]; [|reflexivity].
  unfold strip_ws. specialize (H EmptyString).
  rewrite app_empty_s in H. simpl strip_from in H.
  rewrite H. symmetry. apply app_empty_s.
Qed.

End Stripping.

Lemma export_is_saved_text_witness :
  slot (saveState sample_NumberToString fresh_world)
  = Some (strip_ws (exportBtn_click sample_NumberToString fresh_world)).
Proof.
  apply (export_is_saved_text_modulo_blanks sample_NumberToString sample_number_plain).
Defined.

(** C1 as stated fails: for the default document the exported text and the
    stored text differ (the export has line breaks and indentation). *)
Lemma export_not_byte_identical :
  slot (saveState sample_NumberToString fresh_world)
  <> Some (exportBtn_click sample_NumberToString fresh_world).
Proof. vm_compute. discriminate. Qed.

(** ** Shape of a merged document *)

Lemma Object_assign_obj t src :
  Object_assign (JObj t) src = JObj (fold_left assign_step (own_enumerable src) t).
Proof.
  unfold Object_assign. generalize (own_enumerable src) as l. intros l.
  revert t; induction l as [|kv l IH]; intros t; simpl; [reflexivity|]. apply IH.
Qed.

Lemma fold_assign_shape (pre : list (string * jsval)) l : forall t,
  NoDup (map fst t) -> map fst (firstn (length pre) t) = map fst pre ->
  NoDup (map fst (fold_left assign_step l t))
  /\ map fst (firstn (length pre) (fold_left assign_step l t)) = map fst pre.
Proof.
  induction l as [|kv l IH]; intros t ND Hp; simpl; [auto|].
  apply IH; [apply put_NoDup, ND | apply put_prefix, Hp].
Qed.

Lemma merged_form uid isoNow i d :
  exists P A PR C M S ex,
    Object_assign (defaultState uid isoNow i) d = mk_doc P A PR C M S ex
    /\ NoDup (default_keys ++ map fst ex).
Proof.
  unfold defaultState. rewrite Object_assign_obj.
  match goal with |- context [fold_left assign_step ?l ?t] =>
    destruct (fold_assign_shape t l t) as [ND Hp];
      [ simpl; repeat constructor; simpl; intuition discriminate | reflexivity | ];
    destruct (fold_left assign_step l t)
      as [|[k1 v1] [|[k2 v2] [|[k3 v3] [|[k4 v4] [|[k5 v5] [|[k6 v6] ex]]]]]];
      try discriminate Hp
  end.
  simpl in Hp. injection Hp as -> -> -> -> -> ->.
  exists v1, v2, v3, v4, v5, v6, ex. split; [reflexivity | exact ND].
Qed.

Lemma settings_form src :
  exists a ex,
    Object_assign defaultSettings src = JObj (("animalScoring", a) :: ex)
    /\ NoDup ("animalScoring" :: map fst ex).
Proof.
  unfold defaultSettings. rewrite Object_assign_obj.
  match goal with |- context [fold_left assign_step ?l ?t] =>
    destruct (fold_assign_shape t l t) as [ND Hp];
      [ simpl; repeat constructor; simpl; intuition discriminate | reflexivity | ];
    destruct (fold_left assign_step l t) as [|[k1 v1] ex]; try discriminate Hp
  end.
  simpl in Hp. injection Hp as ->. exists v1, ex. split; [reflexivity | exact ND].
Qed.

(** Merging a document of that shape over fresh defaults gives it back. *)
Lemma merge_fixed uid isoNow i P A PR C M S ex :
  NoDup (default_keys ++ map fst ex) ->
  Object_assign (defaultState uid isoNow i) (mk_doc P A PR C M S ex)
  = mk_doc P A PR C M S ex.
Proof.
  intros ND. unfold defaultState, mk_doc. rewrite Object_assign_obj. f_equal.
  cbn [own_enumerable].
  match goal with |- fold_left assign_step ?l ?t = _ =>
    apply (assign_onto_prefix l [] t) end; [exact ND | reflexivity].
Qed.

Lemma settings_fixed a ex :
  NoDup ("animalScoring" :: map fst ex) ->
  Object_assign defaultSettings (JObj (("animalScoring", a) :: ex))
  = JObj (("animalScoring", a) :: ex).
Proof.
  intros ND. unfold defaultSettings. rewrite Object_assign_obj. f_equal.
  cbn [own_enumerable].
  match goal with |- fold_left assign_step ?l ?t = _ =>
    apply (assign_onto_prefix l [] t) end; [exact ND | reflexivity].
Qed.

(** ** The per-record callbacks are idempotent *)

Lemma backfill_idem pid r : backfill pid (backfill pid r) = backfill pid r.
Proof.
  unfold backfill.
  destruct (truthy r && negb (truthy (prop r "profileId"))) eqn:E.
  - rewrite set_set.
    match goal with |- (if ?c then _ else _) = _ => destruct c end; reflexivity.
  - now rewrite E.
Qed.

(** A change of another property does not undo the back-fill. *)
Lemma backfill_after_set pid r k x :
  String.eqb "profileId" k = false ->
  backfill pid r = r -> backfill pid (set_prop r k x) = set_prop r k x.
Proof.
  intros N. unfold backfill.
  rewrite truthy_set, prop_set_other by exact N.
  destruct (truthy r && negb (truthy (prop r "profileId"))); [|reflexivity].
  intros F. now apply set_fixed_other.
Qed.

Lemma backfill_after_set_path2 pid r k j x :
  String.eqb "profileId" k = false ->
  backfill pid r = r -> backfill pid (set_path2 r k j x) = set_path2 r k j x.
Proof.
  intros N F. unfold set_path2. destruct r; auto; now apply backfill_after_set.
Qed.

Lemma backfill_migrate_practice pid r :
  backfill pid r = r -> backfill pid (migrate_practice r) = migrate_practice r.
Proof.
  intros F. unfold migrate_practice.
  repeat match goal with
         | |- context [if ?c then _ else _] => destruct c
         end;
    repeat (apply backfill_after_set_path2; [reflexivity|]); exact F.
Qed.

Lemma backfill_migrate_competition pid r :
  backfill pid r = r -> backfill pid (migrate_competition r) = migrate_competition r.
Proof.
  intros F. unfold migrate_competition.
  repeat match goal with
         | |- context [if ?c then _ else _] => destruct c
         end;
    repeat (apply backfill_after_set; [reflexivity|]); exact F.
Qed.

Lemma set_path2_inside s k b j x :
  is_container s = true -> String.eqb k "length" = false ->
  set_path2 (set_prop s k b) k j x = set_prop s k (set_prop b j x).
Proof.
  intros Hc Hk. unfold set_path2.
  assert (C : is_container (set_prop s k b) = true) by now rewrite container_set.
  destruct (set_prop s k b) eqn:E; try discriminate;
    rewrite <- E, prop_set_same, set_set by assumption; reflexivity.
Qed.

Lemma migrate_practice_inside s b :
  is_container s = true -> truthy b = true ->
  migrate_practice (set_prop s "bullseye" b) = set_prop s "bullseye" (migrate_block b).
Proof.
  intros Hc Hb. unfold migrate_practice, migrate_block.
  rewrite truthy_set, prop_set_same, (container_truthy _ Hc), Hb by auto.
  cbn [andb].
  destruct (is_number (prop b "m10"));
    rewrite ?set_path2_inside, ?prop_set_same by auto;
    match goal with |- context [is_number (prop ?b1 "m15")] =>
      destruct (is_number (prop b1 "m15")) end;
    rewrite ?set_path2_inside, ?prop_set_same by auto;
    match goal with |- context [isArray (prop ?b2 "m10")] =>
      destruct (isArray (prop b2 "m10")) end; cbn [negb];
    rewrite ?set_path2_inside, ?prop_set_same by auto;
    match goal with |- context [isArray (prop ?b3 "m15")] =>
      destruct (isArray (prop b3 "m15")) end; cbn [negb];
    rewrite ?set_path2_inside, ?prop_set_same by auto; reflexivity.
Qed.

Lemma migrate_block_primitive b : is_container b = false -> migrate_block b = b.
Proof. destruct b; intros H; try discriminate H; reflexivity. Qed.

Lemma container_if (c : bool) b k x :
  is_container (if c then set_prop b k x else b) = is_container b.
Proof. destruct c; [apply container_set | reflexivity]. Qed.

Lemma migrate_block_lists b :
  is_container b = true ->
  isArray (prop (migrate_block b) "m10") = true
  /\ isArray (prop (migrate_block b) "m15") = true
  /\ is_container (migrate_block b) = true.
Proof.
  intros H. unfold migrate_block.
  set (b1 := if is_number (prop b "m10") then _ else b).
  set (b2 := if is_number (prop b1 "m15") then _ else b1).
  set (b3 := if negb (isArray (prop b2 "m10")) then _ else b2).
  assert (C1 : is_container b1 = true) by (unfold b1; now rewrite container_if).
  assert (C2 : is_container b2 = true) by (unfold b2; now rewrite container_if).
  assert (C3 : is_container b3 = true) by (unfold b3; now rewrite container_if).
  assert (A3 : isArray (prop b3 "m10") = true).
  { unfold b3. destruct (isArray (prop b2 "m10")) eqn:E; cbn [negb]; [exact E|].
    now rewrite prop_set_same. }
  clearbody b3.
  destruct (isArray (prop b3 "m15")) eqn:E; cbn [negb].
  - auto.
  - rewrite prop_set_other, prop_set_same, container_set by auto. auto.
Qed.

Lemma migrate_block_settled b :
  isArray (prop b "m10") = true -> isArray (prop b "m15") = true -> migrate_block b = b.
Proof.
  intros H10 H15. unfold migrate_block.
  assert (N10 : is_number (prop b "m10") = false) by (destruct (prop b "m10"); auto; discriminate).
  assert (N15 : is_number (prop b "m15") = false) by (destruct (prop b "m15"); auto; discriminate).
  cbv zeta. rewrite N10. cbv iota. rewrite N15. cbv iota.
  rewrite H10. cbn [negb]. cbv iota. rewrite H15. reflexivity.
Qed.

Lemma migrate_block_idem b : migrate_block (migrate_block b) = migrate_block b.
Proof.
  destruct (is_container b) eqn:C.
  - destruct (migrate_block_lists b C) as (A & B & _). now apply migrate_block_settled.
  - now rewrite !(migrate_block_primitive b C).
Qed.

Lemma truthy_migrate_block b : truthy (migrate_block b) = truthy b.
Proof.
  destruct (is_container b) eqn:C.
  - destruct (migrate_block_lists b C) as (_ & _ & C'). now rewrite !container_truthy.
  - now rewrite migrate_block_primitive.
Qed.

Lemma migrate_practice_idem s :
  migrate_practice (migrate_practice s) = migrate_practice s.
Proof.
  destruct (truthy s && truthy (prop s "bullseye")) eqn:E.
  - apply andb_prop in E as [Hs Hb].
    assert (Hc : is_container s = true) by (apply (truthy_prop_container s "bullseye"); auto).
    assert (S : s = set_prop s "bullseye" (prop s "bullseye")).
    { symmetry. apply set_self; [|reflexivity]. intros Z. rewrite Z in Hb. discriminate. }
    rewrite S, !migrate_practice_inside; rewrite ?truthy_migrate_block; auto.
    now rewrite migrate_block_idem.
  - unfold migrate_practice. rewrite E, E. reflexivity.
Qed.

Lemma migrate_competition_idem c :
  migrate_competition (migrate_competition c) = migrate_competition c.
Proof.
  remember (migrate_competition c) as cc eqn:Hcc.
  unfold migrate_competition in Hcc.
  destruct (truthy c && is_str (prop c "round") "bullseye" && truthy (prop c "bullseye")) eqn:E;
    [|subst cc; unfold migrate_competition; now rewrite E].
  destruct (is_number (prop (prop c "bullseye") "m10") || is_number (prop (prop c "bullseye") "m15")) eqn:N;
    [|subst cc; unfold migrate_competition; now rewrite E, N].
  apply andb_prop in E as [E Hb]. apply andb_prop in E as [Hc Hr].
  assert (C : is_container c = true).
  { apply (truthy_prop_container c "round"); [|reflexivity].
    destruct (prop c "round"); try discriminate. simpl in Hr. simpl.
    destruct s; [discriminate | reflexivity]. }
  assert (T : truthy cc = true /\ prop cc "round" = prop c "round"
              /\ exists x y, prop cc "bullseye"
                   = JObj [("format", JStr "legacy"); ("m10", arr [x]); ("m15", arr [y])]).
  { rewrite Hcc.
    match goal with |- context [if ?t then _ else _] => destruct t end;
      rewrite ?truthy_set, ?prop_set_other, ?prop_set_same, ?container_set by auto;
      (split; [exact Hc | split; [reflexivity | eauto]]). }
  clear Hcc. destruct T as (T1 & T2 & x & y & T3).
  unfold migrate_competition. rewrite T1, T2, Hr, T3. reflexivity.
Qed.

(** ** Documents that normalization leaves alone *)

Section DocFields.
Variables P A PR C M S : jsval.
Variable ex : list (string * jsval).

Lemma doc_profiles : prop (mk_doc P A PR C M S ex) "profiles" = P. Proof. reflexivity. Qed.
Lemma doc_active : prop (mk_doc P A PR C M S ex) "activeProfileId" = A. Proof. reflexivity. Qed.
Lemma doc_practice : prop (mk_doc P A PR C M S ex) "practice" = PR. Proof. reflexivity. Qed.
Lemma doc_competitions : prop (mk_doc P A PR C M S ex) "competitions" = C. Proof. reflexivity. Qed.
Lemma doc_aimMaps : prop (mk_doc P A PR C M S ex) "aimMaps" = M. Proof. reflexivity. Qed.
Lemma doc_settings : prop (mk_doc P A PR C M S ex) "settings" = S. Proof. reflexivity. Qed.

Lemma doc_set_profiles x : set_prop (mk_doc P A PR C M S ex) "profiles" x = mk_doc x A PR C M S ex.
Proof. reflexivity. Qed.
Lemma doc_set_active x : set_prop (mk_doc P A PR C M S ex) "activeProfileId" x = mk_doc P x PR C M S ex.
Proof. reflexivity. Qed.
Lemma doc_set_practice x : set_prop (mk_doc P A PR C M S ex) "practice" x = mk_doc P A x C M S ex.
Proof. reflexivity. Qed.
Lemma doc_set_competitions x : set_prop (mk_doc P A PR C M S ex) "competitions" x = mk_doc P A PR x M S ex.
Proof. reflexivity. Qed.
Lemma doc_set_aimMaps x : set_prop (mk_doc P A PR C M S ex) "aimMaps" x = mk_doc P A PR C x S ex.
Proof. reflexivity. Qed.
Lemma doc_set_settings x : set_prop (mk_doc P A PR C M S ex) "settings" x = mk_doc P A PR C M x ex.
Proof. reflexivity. Qed.
End DocFields.

Create Rewrite HintDb doc.
#[local] Hint Rewrite doc_profiles doc_active doc_practice doc_competitions
  doc_aimMaps doc_settings doc_set_profiles doc_set_active doc_set_practice
  doc_set_competitions doc_set_aimMaps doc_set_settings : doc.

Lemma map_fixed {A} (f : A -> A) (l : list A) :
  Forall (fun x => f x = x) l -> map f l = l.
Proof. induction 1; simpl; congruence. Qed.

Lemma Forall_map_fixed {A} (f g : A -> A) (l : list A) :
  (forall x, f (g x) = g x) -> Forall (fun x => f x = x) (map g l).
Proof. intros H. induction l; simpl; constructor; auto. Qed.

Lemma Forall_map_keeps {A} (f g : A -> A) (l : list A) :
  (forall x, f x = x -> f (g x) = g x) ->
  Forall (fun x => f x = x) l -> Forall (fun x => f x = x) (map g l).
Proof. intros H. induction 1; simpl; constructor; auto. Qed.

Lemma coerced_form v : exists es xs, (if isArray v then v else empty_arr) = JArr es xs.
Proof. destruct v; simpl; unfold empty_arr, arr; eauto. Qed.

Section Idempotence.

Variables uid isoNow : nat -> string.

Lemma default_normal i : Normal (defaultState uid isoNow i).
Proof.
  exists (arr [archer1 uid isoNow i]), (JStr (uid i)), [], [], [], [], [], [], defaultSettings, [].
  split; [reflexivity|].
  split; [simpl; repeat constructor; simpl; intuition discriminate|].
  split; [exists (JStr "nasp3d"), []; split; [reflexivity | repeat constructor; simpl; tauto]|].
  split; [exists (archer1 uid isoNow i), [], []; split; [reflexivity | right; split; reflexivity]|].
  repeat split; constructor.
Qed.

Lemma normal_fixed st : Normal st -> normalize_parsed uid isoNow st = Ok st.
Proof.
  intros (P & A & es1 & x1 & es2 & x2 & es3 & x3 & S & ex & -> & ND & HS & HP & F1 & F2 & F3 & M1 & M2).
  destruct HS as (a & sx & -> & NDs).
  destruct HP as (p0 & rest & xs & -> & HA).
  unfold normalize_parsed. rewrite merge_fixed by exact ND.
  change (get (mk_doc _ _ _ _ _ _ ex) "settings") with (Ok (JObj (("animalScoring", a) :: sx))).
  cbn [bind].
  change (prop (defaultState uid isoNow 1) "settings") with defaultSettings.
  change (js_or (JObj (("animalScoring", a) :: sx)) (JObj [])) with (JObj (("animalScoring", a) :: sx)).
  rewrite settings_fixed by exact NDs.
  unfold coerce_list, synthesize_profiles, default_active, update_list, forEach.
  autorewrite with doc. cbn [isArray elems_of length Nat.eqb negb orb].
  autorewrite with doc.
  assert (D : forall d0,
             d0 = mk_doc (JArr (p0 :: rest) xs) A (JArr es1 x1) (JArr es2 x2) (JArr es3 x3)
                    (JObj (("animalScoring", a) :: sx)) ex ->
             (if truthy A then Ok d0
              else p1 <- at_index (JArr (p0 :: rest) xs) 0 ;; id <- get p1 "id" ;;
                   Ok (set_prop d0 "activeProfileId" id))
             = Ok d0).
  { intros d0 ->. destruct (truthy A) eqn:T; [reflexivity|].
    destruct HA as [HA | [Hn HA]]; [discriminate|].
    cbn [at_index nth bind]. unfold get. rewrite Hn. cbn [bind].
    autorewrite with doc. now rewrite <- HA. }
  rewrite (D _ eq_refl). cbn [bind]. autorewrite with doc. cbn [bind]. autorewrite with doc.
  cbn [bind]. autorewrite with doc. cbn [bind]. autorewrite with doc.
  cbn [bind]. autorewrite with doc.
  rewrite !(map_fixed _ _ F1), !(map_fixed _ _ F2), !(map_fixed _ _ F3).
  rewrite (map_fixed _ _ M1), (map_fixed _ _ M2). reflexivity.
Qed.

Lemma normalize_parsed_normal d st :
  normalize_parsed uid isoNow d = Ok st ->
  Normal st
  /\ (exists p0 rest xs,
        prop st "profiles" = JArr (p0 :: rest) xs
        /\ (prop st "activeProfileId" = prop p0 "id"
            \/ (truthy (prop (Object_assign (defaultState uid isoNow 0) d) "activeProfileId") = true
                /\ prop st "activeProfileId"
                   = prop (Object_assign (defaultState uid isoNow 0) d) "activeProfileId"
                /\ prop st "profiles"
                   = prop (Object_assign (defaultState uid isoNow 0) d) "profiles"))).
Proof.
  unfold normalize_parsed.
  destruct (merged_form uid isoNow 0 d) as (P & A & PR & C & M & S & ex & -> & ND).
  destruct (get d "settings") as [s|] eqn:G; [|discriminate]. cbn [bind].
  change (prop (defaultState uid isoNow 1) "settings") with defaultSettings.
  destruct (settings_form (js_or s (JObj []))) as (a & sx & -> & NDs).
  unfold coerce_list. autorewrite with doc.
  destruct (coerced_form PR) as (es1 & x1 & ->).
  destruct (coerced_form C) as (es2 & x2 & ->).
  destruct (coerced_form M) as (es3 & x3 & ->).
  assert (Y : exists P' A' p0 rest xs,
             synthesize_profiles uid isoNow 2
               (mk_doc P A (JArr es1 x1) (JArr es2 x2) (JArr es3 x3) (JObj (("animalScoring", a) :: sx)) ex)
             = mk_doc P' A' (JArr es1 x1) (JArr es2 x2) (JArr es3 x3) (JObj (("animalScoring", a) :: sx)) ex
             /\ P' = JArr (p0 :: rest) xs
             /\ ((nullish p0 = false /\ A' = prop p0 "id") \/ (A' = A /\ P' = P))).
  { unfold synthesize_profiles. autorewrite with doc.
    destruct (negb (isArray P) || (length (elems_of P) =? 0)%nat) eqn:E.
    - autorewrite with doc.
      exists (arr [archer1 uid isoNow 2]), (JStr (uid 2)), (archer1 uid isoNow 2), [], [].
      split; [reflexivity|]. split; [reflexivity|]. left. split; reflexivity.
    - apply orb_false_elim in E as [E1 E2]. destruct P; try discriminate.
      destruct elems as [|p0 rest]; [discriminate|].
      exists (JArr (p0 :: rest) extra), A, p0, rest, extra. auto 6. }
  destruct Y as (P' & A' & p0 & rest & xs & -> & -> & HA').
  unfold default_active. autorewrite with doc.
  assert (Z : forall A2,
             (truthy A2 = true \/ (nullish p0 = false /\ A2 = prop p0 "id")) ->
             (A2 = prop p0 "id" \/ (truthy A = true /\ A2 = A /\ JArr (p0 :: rest) xs = P)) ->
             (st0 <- Ok (mk_doc (JArr (p0 :: rest) xs) A2 (JArr es1 x1) (JArr es2 x2) (JArr es3 x3)
                           (JObj (("animalScoring", a) :: sx)) ex) ;;
              st1 <- update_list "practice" (backfill (prop st0 "activeProfileId")) st0 ;;
              st2 <- update_list "competitions" (backfill (prop st0 "activeProfileId")) st1 ;;
              st3 <- update_list "aimMaps" (backfill (prop st0 "activeProfileId")) st2 ;;
              st4 <- update_list "practice" migrate_practice st3 ;;
              update_list "competitions" migrate_competition st4) = Ok st ->
             Normal st
             /\ (exists p0 rest xs,
                   prop st "profiles" = JArr (p0 :: rest) xs
                   /\ (prop st "activeProfileId" = prop p0 "id"
                       \/ (truthy A = true /\ prop st "activeProfileId" = A
                           /\ prop st "profiles" = P)))).
  { intros A2 H1 H2. cbn [bind]. unfold update_list, forEach. autorewrite with doc.
    cbn [bind]. autorewrite with doc. cbn [bind]. autorewrite with doc.
    cbn [bind]. autorewrite with doc. cbn [bind]. autorewrite with doc.
    intros [= <-]. split.
    - exists (JArr (p0 :: rest) xs), A2,
        (map migrate_practice (map (backfill A2) es1)), x1,
        (map migrate_competition (map (backfill A2) es2)), x2,
        (map (backfill A2) es3), x3, (JObj (("animalScoring", a) :: sx)), ex.
      split; [reflexivity|]. split; [exact ND|].
      split; [exists a, sx; auto|].
      split; [exists p0, rest, xs; auto|].
      split; [apply Forall_map_keeps; [apply backfill_migrate_practice|];
              apply Forall_map_fixed, backfill_idem|].
      split; [apply Forall_map_keeps; [apply backfill_migrate_competition|];
              apply Forall_map_fixed, backfill_idem|].
      split; [apply Forall_map_fixed, backfill_idem|].
      split; [apply Forall_map_fixed, migrate_practice_idem|].
      apply Forall_map_fixed, migrate_competition_idem.
    - exists p0, rest, xs. autorewrite with doc. split; [reflexivity|].
      destruct H2 as [-> | (T & -> & <-)]; [now left | right; auto]. }
  destruct (truthy A') eqn:T.
  - apply Z; [now left|]. destruct HA' as [[_ ->] | [-> HP]]; [now left|]. right. auto.
  - cbn [at_index nth bind]. unfold get at 1.
    destruct (nullish p0) eqn:Np; [discriminate|]. cbn [bind]. autorewrite with doc.
    apply Z; [right; auto | now left].
Qed.

(** With an active profile named and a non-empty list of profiles in the
    merged document, the normalization completes and keeps both. *)
Lemma normalize_parsed_kept d :
  let m := Object_assign (defaultState uid isoNow 0) d in
  nullish d = false ->
  nonempty (prop m "profiles") = true ->
  truthy (prop m "activeProfileId") = true ->
  exists st,
    normalize_parsed uid isoNow d = Ok st
    /\ prop st "activeProfileId" = prop m "activeProfileId"
    /\ prop st "profiles" = prop m "profiles".
Proof.
  intros m. subst m. unfold normalize_parsed.
  destruct (merged_form uid isoNow 0 d) as (P & A & PR & C & M & S & ex & -> & ND).
  autorewrite with doc. intros Nd HP HA.
  rewrite (get_nonnull _ _ Nd). cbn [bind].
  change (prop (defaultState uid isoNow 1) "settings") with defaultSettings.
  destruct (settings_form (js_or (prop d "settings") (JObj []))) as (a & sx & -> & NDs).
  unfold coerce_list. autorewrite with doc.
  destruct (coerced_form PR) as (es1 & x1 & ->).
  destruct (coerced_form C) as (es2 & x2 & ->).
  destruct (coerced_form M) as (es3 & x3 & ->).
  destruct P as [| | | | |ps xs|]; try discriminate HP.
  destruct ps as [|p0 rest]; [discriminate HP|].
  unfold synthesize_profiles. autorewrite with doc.
  cbn [isArray elems_of length Nat.eqb negb orb].
  unfold default_active. autorewrite with doc. rewrite HA. cbn [bind].
  unfold update_list, forEach. autorewrite with doc.
  cbn [bind]. autorewrite with doc. cbn [bind]. autorewrite with doc.
  cbn [bind]. autorewrite with doc. cbn [bind]. autorewrite with doc.
  eexists. split; [reflexivity|]. autorewrite with doc. split; reflexivity.
Qed.

End Idempotence.

(** C4.  Load-time normalization is idempotent: whatever value the stored
    text parsed to, running the normalization (merge over the defaults, list
    coercion, profile synthesis, back-fill of [profileId], migration of the
    older bullseye shapes) on its own result changes nothing, also when the
    second run draws other random ids and another clock reading. *)
Theorem normalize_idempotent (uid1 isoNow1 uid2 isoNow2 : nat -> string) (d : jsval) :
  normalize uid2 isoNow2 (normalize uid1 isoNow1 d) = normalize uid1 isoNow1 d.
Proof.
  assert (N : Normal (normalize uid1 isoNow1 d)).
  { unfold normalize. destruct (normalize_parsed uid1 isoNow1 d) eqn:E.
    - apply (normalize_parsed_normal _ _ _ _ E).
    - apply default_normal. }
  unfold normalize at 1. now rewrite normal_fixed.
Qed.

(** What [loadState] returns for [profiles] and [activeProfileId], by the
    content of the storage slot. *)
Lemma loadState_active_cases
    (uid isoNow : nat -> string) (JSON_parse : string -> option jsval)
    (stored : option string) :
  let st := loadState uid isoNow JSON_parse stored in
  (exists p0 rest xs, prop st "profiles" = JArr (p0 :: rest) xs)
  /\ (forall m, stored_names_active JSON_parse stored (defaultState uid isoNow 0) m ->
        prop st "activeProfileId" = prop m "activeProfileId"
        /\ prop st "profiles" = prop m "profiles")
  /\ ((forall m, ~ stored_names_active JSON_parse stored (defaultState uid isoNow 0) m) ->
      exists p0 rest xs,
        prop st "profiles" = JArr (p0 :: rest) xs
        /\ prop st "activeProfileId" = prop p0 "id").
Proof.
  assert (D : forall i, exists p0 rest xs,
             prop (defaultState uid isoNow i) "profiles" = JArr (p0 :: rest) xs
             /\ prop (defaultState uid isoNow i) "activeProfileId" = prop p0 "id").
  { intros i. exists (archer1 uid isoNow i), [], []. split; reflexivity. }
  assert (First : forall st : jsval,
             (exists p0 rest xs, prop st "profiles" = JArr (p0 :: rest) xs
                                 /\ prop st "activeProfileId" = prop p0 "id") ->
             exists p0 rest xs, prop st "profiles" = JArr (p0 :: rest) xs).
  { intros st (p0 & rest & xs & H & _). eauto. }
  cbv zeta. unfold loadState.
  destruct stored as [raw|];
    [destruct (is_empty raw) eqn:Er; [|destruct (JSON_parse raw) as [d|] eqn:Ep]|].
  - split; [apply First, D|]. split; [|intros _; apply D].
    intros m (raw' & d & [= <-] & F & _). congruence.
  - unfold normalize. destruct (normalize_parsed uid isoNow d) as [st|e] eqn:N.
    + destruct (normalize_parsed_normal _ _ _ _ N) as (_ & p0 & rest & xs & H1 & H2).
      split; [eauto|]. split.
      * intros m (raw' & d' & [= <-] & _ & Ep' & Nd & -> & HP & HA).
        rewrite Ep in Ep'. injection Ep' as <-.
        destruct (normalize_parsed_kept uid isoNow d Nd HP HA) as (st' & N' & K1 & K2).
        rewrite N in N'. injection N' as <-. auto.
      * intros No. exists p0, rest, xs. split; [exact H1|].
        destruct H2 as [H2 | (T & H2 & H3)]; [exact H2|].
        exfalso. apply (No (Object_assign (defaultState uid isoNow 0) d)).
        exists raw, d. repeat split; auto.
        -- destruct (nullish d) eqn:Nd; [|reflexivity].
           unfold normalize_parsed, get in N. rewrite Nd in N. discriminate N.
        -- rewrite <- H3, H1. reflexivity.
    + split; [apply First, D|]. split; [|intros _; apply D].
      intros m (raw' & d' & [= <-] & _ & Ep' & Nd & -> & HP & HA).
      rewrite Ep in Ep'. injection Ep' as <-.
      destruct (normalize_parsed_kept uid isoNow d Nd HP HA) as (st' & N' & _).
      congruence.
  - split; [apply First, D|]. split; [|intros _; apply D].
    intros m (raw' & d & [= <-] & _ & F & _). congruence.
  - split; [apply First, D|]. split; [|intros _; apply D].
    intros m (raw' & d & F & _). discriminate F.
Qed.

(** ** competitionMax *)

Lemma is_str_true v s : is_str v s = true <-> v = JStr s.
Proof.
  unfold is_str. destruct v; simpl; split; try discriminate.
  - intros H. apply String.eqb_eq in H. now subst.
  - intros [= ->]. apply String.eqb_refl.
Qed.

Lemma is_str_false v s : v <> JStr s -> is_str v s = false.
Proof.
  intros H. destruct (is_str v s) eqn:E; [|reflexivity].
  apply is_str_true in E. contradiction.
Qed.

Section MaxCases.

Local Open Scope Q_scope.

(** What the migration makes of a record of the older schema. *)
Lemma migrate_competition_older c0 :
  older_schema c0 ->
  exists x y,
    migrate_competition c0
    = (let c1 := set_prop c0 "bullseye"
                   (JObj [("format", JStr "legacy"); ("m10", arr [x]); ("m15", arr [y])]) in
       if truthy (prop c0 "category") then c1 else set_prop c1 "category" (JStr "adult"))
    /\ is_container c0 = true.
Proof.
  intros (Hr & Tb & Hn).
  assert (C : is_container c0 = true).
  { apply (truthy_prop_container c0 "round"); [now rewrite Hr | reflexivity]. }
  unfold migrate_competition.
  rewrite (container_truthy _ C), Hr, Tb, Hn.
  cbn [is_str strict_eq String.eqb Ascii.eqb Bool.eqb andb].
  rewrite prop_set_other by reflexivity.
  eexists _, _. split; [|exact C].
  destruct (truthy (prop c0 "category")); reflexivity.
Qed.

(** C3 (as amended).  [competitionMax] answers [null] for an animal round,
    and for every record whose round is not 'bullseye'.  For a bullseye
    record it goes by the category, 'adult' when the record has none: 200
    for 'cub' and 'beginner', 600 for 'junior', 'senior' and 'adult'.  Only
    when the category is none of these five does it look at the format:
    'legacy' gives (len(m10) + len(m15)) * 50, anything else [null].  A
    record the migration produced from the older single-number schema has
    format 'legacy', one entry per distance and the category it had, or
    'adult' if it had none: it is answered by its category, with 600 when it
    had none. *)
Theorem competitionMax_cases (c : jsval) :
  nullish c = false ->
  let cat := js_or (prop c "category") (JStr "adult") in
  let b := prop c "bullseye" in
  (prop c "round" <> JStr "bullseye" -> competitionMax c = Ok None)
  /\ (prop c "round" = JStr "bullseye" ->
      (cat = JStr "cub" \/ cat = JStr "beginner" -> competitionMax c = Ok (Some 200))
      /\ (cat = JStr "junior" \/ cat = JStr "senior" \/ cat = JStr "adult" ->
          competitionMax c = Ok (Some 600))
      /\ (~ In cat KNOWN_CATEGORIES ->
          (get_opt b "format" = JStr "legacy" ->
           competitionMax c
           = Ok (Some (num_of_nat (length (elems_of (prop b "m10"))
                                   + length (elems_of (prop b "m15"))) * 50)))
          /\ (get_opt b "format" <> JStr "legacy" -> competitionMax c = Ok None)))
  /\ (forall c0, older_schema c0 -> c = migrate_competition c0 ->
        prop c "round" = JStr "bullseye"
        /\ get_opt b "format" = JStr "legacy"
        /\ length (elems_of (prop b "m10")) = 1%nat
        /\ length (elems_of (prop b "m15")) = 1%nat
        /\ cat = js_or (prop c0 "category") (JStr "adult")
        /\ (truthy (prop c0 "category") = false -> competitionMax c = Ok (Some 600))).
Proof.
  intros Hc cat b.
  assert (M : competitionMax c
              = if is_str (prop c "round") "animal" then Ok None
                else if is_str (prop c "round") "bullseye" then
                  if is_str cat "cub" || is_str cat "beginner" then Ok (Some 200)
                  else if is_str cat "junior" || is_str cat "senior" || is_str cat "adult"
                  then Ok (Some 600)
                  else if is_str (get_opt b "format") "legacy" then
                    Ok (Some (num_of_nat (length (elems_of (prop b "m10"))
                                          + length (elems_of (prop b "m15"))) * 50))
                  else Ok None
                else Ok None).
  { unfold competitionMax. rewrite (get_nonnull _ _ Hc). cbn [bind]. fold cat. fold b.
    destruct (prop b "m10"), (prop b "m15"); reflexivity. }
  assert (Bull : prop c "round" = JStr "bullseye" ->
            (cat = JStr "cub" \/ cat = JStr "beginner" -> competitionMax c = Ok (Some 200))
            /\ (cat = JStr "junior" \/ cat = JStr "senior" \/ cat = JStr "adult" ->
                competitionMax c = Ok (Some 600))).
  { intros Hr. rewrite M, Hr. cbn [is_str strict_eq String.eqb Ascii.eqb Bool.eqb].
    split.
    - intros [-> | ->]; reflexivity.
    - intros [-> | [-> | ->]]; reflexivity. }
  split; [|split].
  - intros Hr. rewrite M. rewrite (is_str_false _ "bullseye" Hr).
    destruct (is_str (prop c "round") "animal"); reflexivity.
  - intros Hr. split; [apply (Bull Hr)|]. split; [apply (Bull Hr)|].
    intros Hcat. rewrite M, Hr. cbn [is_str strict_eq String.eqb Ascii.eqb Bool.eqb].
    fold (is_str cat "cub") (is_str cat "beginner") (is_str cat "junior")
         (is_str cat "senior") (is_str cat "adult").
    rewrite !is_str_false by (intros E; apply Hcat; rewrite E; simpl; tauto).
    cbn [orb]. split.
    + intros ->. reflexivity.
    + intros Hf. now rewrite is_str_false.
  - intros c0 Hold E.
    destruct (migrate_competition_older c0 Hold) as (x & y & E' & C0).
    rewrite <- E in E'. cbv zeta in E'.
    destruct Hold as (Hr0 & _ & _).
    assert (Hr : prop c "round" = JStr "bullseye").
    { rewrite E'. destruct (truthy (prop c0 "category"));
        now rewrite !prop_set_other by reflexivity. }
    assert (Hb : b = JObj [("format", JStr "legacy"); ("m10", arr [x]); ("m15", arr [y])]).
    { unfold b. rewrite E'. destruct (truthy (prop c0 "category"));
        rewrite ?(prop_set_other _ "category" "bullseye") by reflexivity;
        now rewrite prop_set_same. }
    assert (Hcat : cat = js_or (prop c0 "category") (JStr "adult")).
    { unfold cat. rewrite E'. unfold js_or at 2. destruct (truthy (prop c0 "category")) eqn:T.
      - rewrite prop_set_other by reflexivity. unfold js_or. now rewrite T.
      - rewrite prop_set_same by (rewrite ?container_set; auto). reflexivity. }
    split; [exact Hr|]. rewrite Hb. cbn [get_opt nullish prop lookup String.eqb Ascii.eqb Bool.eqb
                                          arr elems_of length].
    repeat split; try exact Hcat.
    intros F. apply (Bull Hr). right. right. rewrite Hcat. unfold js_or. now rewrite F.
Qed.

End MaxCases.

(** C3 as stated fails on a record produced by the migration: the record
    of the older schema with 40 and 35 points comes out in format 'legacy'
    with one entry per distance, and its maximum is 600, not
    (1 + 1) * 50. *)
Lemma competitionMax_of_migrated_record :
  let c := migrate_competition v1_competition in
  prop (prop c "bullseye") "format" = JStr "legacy"
  /\ prop (prop c "bullseye") "m10" = arr [JNum 40]
  /\ prop (prop c "bullseye") "m15" = arr [JNum 35]
  /\ competitionMax c = Ok (Some 600%Q)
  /\ ~ (600 == num_of_nat (1 + 1) * 50)%Q.
Proof. vm_compute. repeat split. intros H. discriminate H. Qed.

Lemma competitionMax_cases_witness :
  competitionMax (migrate_competition v1_competition) = Ok (Some 600%Q)
  /\ competitionMax legacy_other_category = Ok (Some (num_of_nat (1 + 1) * 50)%Q).
Proof.
  split.
  - destruct (competitionMax_cases (migrate_competition v1_competition) eq_refl)
      as (_ & _ & H).
    destruct (H v1_competition) as (_ & _ & _ & _ & _ & H6).
    + repeat split.
    + reflexivity.
    + apply H6. reflexivity.
  - destruct (competitionMax_cases legacy_other_category eq_refl) as (_ & H & _).
    destruct (H eq_refl) as (_ & _ & H3).
    destruct H3 as [H3 _].
    + simpl. intros [F | [F | [F | [F | [F | []]]]]]; discriminate F.
    + apply H3. reflexivity.
Defined.

(** ** The settings handlers *)

Section ImportHandler.

Variable uid : nat -> string.
Variable isoNow : nat -> string.
Variable JSON_parse : string -> option jsval.
Variable NumberToString : Q -> string.
Variable renderAll_ok : jsval -> bool.

(** C8.  When the text of the file chosen for Import does not parse as
    JSON, the document in memory and the content of the storage slot stay
    as they were, and the failure message is shown. *)
Theorem import_of_malformed_text (text : string) (w : world) :
  JSON_parse text = None ->
  let w' := importFile_change uid isoNow JSON_parse NumberToString renderAll_ok (FileText text) w in
  doc w' = doc w /\ slot w' = slot w /\ alerts w' = import_failed :: alerts w.
Proof.
  intros H. unfold importFile_change, import_build. cbn [bind]. rewrite H. cbn [bind].
  repeat split.
Qed.

End ImportHandler.

Section DeleteHandler.

Variable StringToNumber : string -> jsnum.
Variable NumberToString : Q -> string.

Lemma filterM_present (f : string) (p : jsval) (es : list jsval) :
  nullish p = false -> all_present es ->
  filterM (differs f p) es
  = Ok (filter (fun r => negb (strict_eq (prop r f) (prop p "id"))) es).
Proof.
  intros Hp H. induction H as [|r es Hr _ IH]; cbn [filterM filter]; [reflexivity|].
  unfold differs at 1, get. rewrite Hr, Hp. cbn [bind]. rewrite IH. reflexivity.
Qed.

Lemma at_most_one_length (n : nat) :
  at_most_one StringToNumber NumberToString (JNum (num_of_nat n)) = (n <=? 1)%nat.
Proof.
  unfold at_most_one, ToNumber, num_of_nat.
  destruct (n <=? 1)%nat eqn:E.
  - apply Nat.leb_le in E. apply Qle_bool_iff. change 1%Q with (inject_Z 1).
    rewrite <- Zle_Qle. lia.
  - apply Nat.leb_gt in E. destruct (Qle_bool (inject_Z (Z.of_nat n)) 1) eqn:Q; [|reflexivity].
    apply Qle_bool_iff in Q. change 1%Q with (inject_Z 1) in Q. rewrite <- Zle_Qle in Q. lia.
Qed.

Lemma drop_records_ok k p w es xs :
  nullish p = false -> prop (doc w) k = JArr es xs -> all_present es ->
  drop_records k p w
  = Ok (set_doc w (set_prop (doc w) k (arr (filter (other_owner p) es)))).
Proof.
  intros Hp E H. unfold drop_records. rewrite E. cbn [js_or truthy as_array bind].
  rewrite (filterM_present _ _ _ Hp H). reflexivity.
Qed.

Lemma drop_profile_ok p w es xs :
  nullish p = false -> nullish (doc w) = false ->
  prop (doc w) "profiles" = JArr es xs -> all_present es ->
  drop_profile p w
  = Ok (set_doc w (set_prop (doc w) "profiles" (arr (filter (other_profile p) es)))).
Proof.
  intros Hp Hd E H. unfold drop_profile, get at 1. rewrite Hd, E. cbn [as_array bind].
  rewrite (filterM_present _ _ _ Hp H). reflexivity.
Qed.

(** C9.  Deleting a profile removes from practice, competitions and aim
    maps exactly the records whose [profileId] is that profile's id, removes
    the profile, makes a remaining profile the active one when the deleted
    profile was active, and saves; with a single profile left the deletion
    is refused and nothing changes.  (The profile has a string id, as every
    profile the program creates; the lists hold existing records, and a
    profile with another id is left after the deletion.) *)
Theorem deleteProfile_effect (p : jsval) (pid : string) (w : world)
    (prs cs ms ps : list jsval) (x1 x2 x3 x4 : list (string * jsval)) :
  is_container (doc w) = true ->
  prop p "id" = JStr pid ->
  prop (doc w) "practice" = JArr prs x1 -> all_present prs ->
  prop (doc w) "competitions" = JArr cs x2 -> all_present cs ->
  prop (doc w) "aimMaps" = JArr ms x3 -> all_present ms ->
  prop (doc w) "profiles" = JArr ps x4 -> all_present ps ->
  ((length ps <= 1)%nat ->
   forall confirmed,
     deleteProfile_click StringToNumber NumberToString p confirmed w
     = (alert need_one_profile w, None))
  /\ ((1 < length ps)%nat ->
      deleteProfile_click StringToNumber NumberToString p false w = (w, None))
  /\ ((1 < length ps)%nat ->
      (exists x, In x ps /\ is_str (prop x "id") pid = false) ->
      let others := filter (fun x => negb (is_str (prop x "id") pid)) ps in
      exists w',
        deleteProfile_click StringToNumber NumberToString p true w = (w', None)
        /\ prop (doc w') "practice"
           = arr (filter (fun r => negb (is_str (prop r "profileId") pid)) prs)
        /\ prop (doc w') "competitions"
           = arr (filter (fun r => negb (is_str (prop r "profileId") pid)) cs)
        /\ prop (doc w') "aimMaps"
           = arr (filter (fun r => negb (is_str (prop r "profileId") pid)) ms)
        /\ prop (doc w') "profiles" = arr others
        /\ (if is_str (prop (doc w) "activeProfileId") pid
            then exists q, In q others
                           /\ prop (doc w') "activeProfileId" = prop q "id"
            else prop (doc w') "activeProfileId" = prop (doc w) "activeProfileId")
        /\ (forall k, ~ In k ["practice"; "competitions"; "aimMaps"; "profiles"; "activeProfileId"] ->
                      prop (doc w') k = prop (doc w) k)
        /\ slot w' = Some (as_text (JSON_stringify NumberToString (doc w')))
        /\ alerts w' = alerts w).
Proof.
  intros Hd Hid E1 H1 E2 H2 E3 H3 E4 H4.
  assert (Hp : nullish p = false) by (destruct p; try discriminate; reflexivity).
  pose proof (container_present _ Hd) as Nd.
  assert (L : (ps0 <- get (doc w) "profiles" ;; get ps0 "length")
              = Ok (JNum (num_of_nat (length ps)))).
  { unfold get at 1. rewrite Nd, E4. reflexivity. }
  unfold deleteProfile_click. rewrite L, at_most_one_length.
  split; [|split].
  - intros Hlen confirmed. apply Nat.leb_le in Hlen. now rewrite Hlen.
  - intros Hlen. apply Nat.leb_gt in Hlen. now rewrite Hlen.
  - intros Hlen (x & Hx & Ox). cbv zeta.
    assert (Ho : forall r, negb (is_str (prop r "profileId") pid) = other_owner p r)
      by (intros r; unfold other_owner, is_str; now rewrite Hid).
    assert (Hq' : forall r, negb (is_str (prop r "id") pid) = other_profile p r)
      by (intros r; unfold other_profile, is_str; now rewrite Hid).
    rewrite !(filter_ext _ _ Ho), (filter_ext _ _ Hq').
    rewrite <- (negb_involutive (is_str (prop x "id") pid)), Hq' in Ox.
    apply negb_false_iff in Ox.
    unfold is_str. rewrite <- Hid.
    apply Nat.leb_gt in Hlen. rewrite Hlen. cbn [negb].
    cbn [run_statements].
    rewrite (drop_records_ok _ _ _ _ _ Hp E1 H1).
    set (d1 := set_prop (doc w) "practice" (arr (filter (other_owner p) prs))).
    assert (C1 : is_container d1 = true) by (unfold d1; now rewrite container_set).
    rewrite (drop_records_ok "competitions" p (set_doc w d1) cs x2 Hp)
      by (cbn [doc set_doc]; unfold d1; rewrite ?prop_set_other by reflexivity; assumption).
    cbn [doc set_doc].
    set (d2 := set_prop d1 "competitions" (arr (filter (other_owner p) cs))).
    assert (C2 : is_container d2 = true) by (unfold d2; now rewrite container_set).
    rewrite (drop_records_ok "aimMaps" p (set_doc (set_doc w d1) d2) ms x3 Hp)
      by (cbn [doc set_doc]; unfold d2, d1; rewrite ?prop_set_other by reflexivity; assumption).
    cbn [doc set_doc].
    set (d3 := set_prop d2 "aimMaps" (arr (filter (other_owner p) ms))).
    assert (C3 : is_container d3 = true) by (unfold d3; now rewrite container_set).
    rewrite (drop_profile_ok p (set_doc (set_doc (set_doc w d1) d2) d3) ps x4 Hp);
      [ | cbn [doc set_doc]; apply container_present, C3
        | cbn [doc set_doc]; unfold d3, d2, d1; rewrite ?prop_set_other by reflexivity; assumption
        | assumption ].
    cbn [doc set_doc].
    set (d4 := set_prop d3 "profiles" (arr (filter (other_profile p) ps))).
    assert (C4 : is_container d4 = true) by (unfold d4; now rewrite container_set).
    assert (A4 : prop d4 "activeProfileId" = prop (doc w) "activeProfileId").
    { unfold d4, d3, d2, d1. now rewrite !prop_set_other by reflexivity. }
    assert (P4 : prop d4 "profiles" = arr (filter (other_profile p) ps)).
    { unfold d4. now rewrite prop_set_same. }
    assert (Hq : exists q rest, filter (other_profile p) ps = q :: rest /\ nullish q = false).
    { assert (I : In x (filter (other_profile p) ps)) by (apply filter_In; auto).
      destruct (filter (other_profile p) ps) as [|q rest] eqn:F; [destruct I|].
      exists q, rest. split; [reflexivity|].
      assert (Iq : In q ps).
      { assert (X : In q (filter (other_profile p) ps)) by (rewrite F; now left).
        apply filter_In in X. tauto. }
      unfold all_present in H4. rewrite Forall_forall in H4. auto. }
    destruct Hq as (q & rest & F & Nq).
    unfold reassign_active. cbn [doc set_doc slot alerts].
    rewrite (get_nonnull d4), (get_nonnull p) by (assumption || (apply container_present; assumption)).
    cbn [bind]. rewrite A4.
    assert (Keep : forall d, d = d4 \/ d = set_prop d4 "activeProfileId" (prop q "id") ->
              prop d "practice" = arr (filter (other_owner p) prs)
              /\ prop d "competitions" = arr (filter (other_owner p) cs)
              /\ prop d "aimMaps" = arr (filter (other_owner p) ms)
              /\ prop d "profiles" = arr (filter (other_profile p) ps)
              /\ (forall k, ~ In k ["practice"; "competitions"; "aimMaps"; "profiles"; "activeProfileId"] ->
                            prop d k = prop (doc w) k)).
    { intros d Dd.
      assert (G : forall k, String.eqb k "activeProfileId" = false -> prop d k = prop d4 k).
      { intros k Hk. destruct Dd as [-> | ->]; [reflexivity | now rewrite prop_set_other]. }
      rewrite !G by reflexivity. unfold d4, d3, d2, d1.
      repeat split.
      - now rewrite !prop_set_other, prop_set_same by auto.
      - rewrite !prop_set_other by reflexivity.
        now rewrite prop_set_same by (rewrite ?container_set; auto).
      - rewrite !prop_set_other by reflexivity.
        now rewrite prop_set_same by (rewrite ?container_set; auto).
      - now rewrite prop_set_same by (rewrite ?container_set; auto).
      - intros k Hk. simpl in Hk.
        assert (Q : forall k0, k0 <> k -> String.eqb k k0 = false)
          by (intros k0 Hk0; apply String.eqb_neq; congruence).
        destruct Dd as [-> | ->]; unfold d4, d3, d2, d1;
          rewrite !prop_set_other by (apply Q; intuition); reflexivity. }
    destruct (strict_eq (prop (doc w) "activeProfileId") (prop p "id")) eqn:S.
    + rewrite P4. unfold arr at 1. rewrite F. cbn [at_index nth bind].

      rewrite (get_nonnull q) by assumption. cbn [bind doc set_doc].
      eexists. split; [reflexivity|]. cbn [doc saveState set_doc slot alerts].
      destruct (Keep (set_prop d4 "activeProfileId" (prop q "id"))) as (K1 & K2 & K3 & K4 & K5); [now right|].
      rewrite F in K4.
      split; [exact K1|]. split; [exact K2|]. split; [exact K3|]. split; [exact K4|].
      split; [|split; [exact K5 | split; reflexivity]].
      exists q. split; [now left|]. now rewrite prop_set_same.
    + eexists. split; [reflexivity|]. cbn [doc saveState set_doc slot alerts].
      destruct (Keep d4) as (K1 & K2 & K3 & K4 & K5); [now left|].
      split; [exact K1|]. split; [exact K2|]. split; [exact K3|]. split; [exact K4|].
      split; [exact A4|]. split; [exact K5 | split; reflexivity].
Qed.

Lemma run_statements_preserves (Inv : world -> Prop) steps :
  Forall (fun s : world -> result world => forall w w', Inv w -> s w = Ok w' -> Inv w') steps ->
  forall w, Inv w -> Inv (fst (run_statements steps w)).
Proof.
  induction 1 as [|s steps Hs _ IH]; intros w Hw; cbn [run_statements]; [exact Hw|].
  destruct (s w) as [w'|e] eqn:E; [|exact Hw]. apply IH. eapply Hs; eauto.
Qed.




End DeleteHandler.

Lemma import_of_malformed_text_witness :
  let w' := importFile_change sample_uid sample_now read_json sample_NumberToString
              (fun _ => true) (FileText "{oops") fresh_world in
  doc w' = doc fresh_world /\ slot w' = slot fresh_world
  /\ alerts w' = import_failed :: alerts fresh_world.
Proof.
  apply (import_of_malformed_text sample_uid sample_now read_json sample_NumberToString
           (fun _ => true) "{oops" fresh_world).
  vm_compute. reflexivity.
Defined.

Lemma deleteProfile_effect_witness :
  exists w',
    deleteProfile_click sample_StringToNumber sample_NumberToString profile_a true
      two_profiles_world = (w', None)
    /\ prop (doc w') "practice" = arr [session_of_b; orphan_session]
    /\ prop (doc w') "profiles" = arr [profile_b]
    /\ prop (doc w') "activeProfileId" = JStr "b".
Proof.
  destruct (deleteProfile_effect sample_StringToNumber sample_NumberToString
              profile_a "a" two_profiles_world
              [session_of_a; session_of_b; orphan_session]
              [JObj [("id", JStr "c1"); ("profileId", JStr "a")]]
              [JObj [("id", JStr "m1"); ("profileId", JStr "b")]]
              [profile_a; profile_b] [] [] [] []
              eq_refl eq_refl eq_refl
              ltac:(repeat constructor) eq_refl ltac:(repeat constructor)
              eq_refl ltac:(repeat constructor) eq_refl ltac:(repeat constructor))
    as (_ & _ & H).
  destruct H as (w' & E & H1 & _ & _ & H4 & H5 & _).
  - simpl. lia.
  - exists profile_b. split; [simpl; auto | reflexivity].
  - exists w'. split; [exact E|]. split; [exact H1|]. split; [exact H4|].
    cbn in H5. destruct H5 as (q & [<- | []] & H5). exact H5.
Defined.


(** ** clamp, mean and pearson *)

Section Bounds.

Local Open Scope Q_scope.

Lemma Math_min_spec a b :
  (a <= b /\ Math_min a b = a) \/ (b < a /\ Math_min a b = b).
Proof.
  unfold Math_min. destruct (Qle_bool a b) eqn:E.
  - left. split; [now apply Qle_bool_iff | reflexivity].
  - right. split; [|reflexivity]. apply Qnot_le_lt. intros H.
    apply Qle_bool_iff in H. congruence.
Qed.

Lemma Math_max_spec a b :
  (a <= b /\ Math_max a b = b) \/ (b < a /\ Math_max a b = a).
Proof.
  unfold Math_max. destruct (Qle_bool a b) eqn:E.
  - left. split; [now apply Qle_bool_iff | reflexivity].
  - right. split; [|reflexivity]. apply Qnot_le_lt. intros H.
    apply Qle_bool_iff in H. congruence.
Qed.

Lemma clamp_range n lo hi : lo <= hi -> lo <= clamp n lo hi /\ clamp n lo hi <= hi.
Proof.
  intros H. unfold clamp.
  destruct (Math_min_spec hi n) as [[H1 ->] | [H1 ->]];
    match goal with |- context [Math_max ?a ?b] =>
      destruct (Math_max_spec a b) as [[H2 ->] | [H2 ->]] end; lra.
Qed.

Lemma clamp_inside n lo hi : lo <= n -> n <= hi -> clamp n lo hi == n.
Proof.
  intros H1 H2. unfold clamp.
  destruct (Math_min_spec hi n) as [[H3 ->] | [H3 ->]];
    match goal with |- context [Math_max ?a ?b] =>
      destruct (Math_max_spec a b) as [[H4 ->] | [H4 ->]] end; lra.
Qed.

Lemma Qsum_bounds lo hi l :
  Forall (fun x => lo <= x /\ x <= hi) l ->
  num_of_nat (length l) * lo <= Qsum l /\ Qsum l <= num_of_nat (length l) * hi.
Proof.
  induction 1 as [|x l [Hx1 Hx2] _ [IH1 IH2]].
  - simpl. change (num_of_nat 0) with 0. lra.
  - cbn [length Qsum]. rewrite num_of_nat_S. lra.
Qed.

Lemma num_of_nat_pos n : (0 < n)%nat -> 0 < num_of_nat n.
Proof.
  intros H. unfold num_of_nat. change 0 with (inject_Z 0). rewrite <- Zlt_Qlt. lia.
Qed.

Lemma quotient_bounds s n lo hi :
  0 < n -> n * lo <= s -> s <= n * hi -> lo <= s / n /\ s / n <= hi.
Proof.
  intros Hn H1 H2. split.
  - apply Qle_shift_div_l; [exact Hn | lra].
  - apply Qle_shift_div_r; [exact Hn | lra].
Qed.

Lemma mean_bounded (values : list Q) (lo hi : Q) :
  Forall (fun x => lo <= x /\ x <= hi) values -> values <> [] ->
  lo <= mean values /\ mean values <= hi.
Proof.
  intros H Hne. rewrite (mean_as_sum _ Hne).
  destruct (Qsum_bounds lo hi values H) as [H1 H2].
  apply quotient_bounds; try assumption.
  apply num_of_nat_pos. destruct values; [congruence | simpl; lia].
Qed.

(** X1.  The mean of a non-empty list lies between the whole numbers that
    bound its entries; that of the empty list is 0.  The bounds are whole
    numbers which, multiplied by the number of entries, stay within 2^53:
    every multiple of a bound that the running sum is compared with is then
    a double, and neither an addition nor the division of the source,
    rounded to the nearest double, can pass it. *)
Theorem mean_between_bounds (values : list Q) (lo hi : Z) :
  (Z.of_nat (length values) * Z.max (Z.abs lo) (Z.abs hi) <= 2 ^ 53)%Z ->
  Forall (fun x => inject_Z lo <= x /\ x <= inject_Z hi) values ->
  (values <> [] -> inject_Z lo <= mean values /\ mean values <= inject_Z hi)
  /\ (values = [] -> mean values = 0).
Proof.
  intros _ H. split; [now apply mean_bounded | intros ->; reflexivity].
Qed.

End Bounds.

Lemma mean_between_bounds_witness :
  (7 <= mean [8; 9; 7; 10] /\ mean [8; 9; 7; 10] <= 10)%Q.
Proof.
  apply (mean_between_bounds [8; 9; 7; 10] 7 10).
  - vm_compute. discriminate.
  - repeat constructor; discriminate.
  - discriminate.
Defined.

Section Pearson.

Local Open Scope Q_scope.

Variable sqrt : Q -> Q.

(** The sums the loop of [pearson] accumulates, over the pairs it visits. *)
Lemma pearson_loop (mx my : Q) (l : list (Q * Q)) : forall num dx dy,
  let '(num', dx', dy') := fold_left (pearson_step mx my) l (num, dx, dy) in
  num' == num + Qsum (map (fun p => (fst p - mx) * (snd p - my)) l)
  /\ dx' == dx + Qsum (map (fun p => (fst p - mx) * (fst p - mx)) l)
  /\ dy' == dy + Qsum (map (fun p => (snd p - my) * (snd p - my)) l).
Proof.
  induction l as [|p l IH]; intros num dx dy.
  - simpl. repeat split; ring.
  - cbn [fold_left map Qsum]. unfold pearson_step at 2.
    specialize (IH (num + (fst p - mx) * (snd p - my))
                   (dx + (fst p - mx) * (fst p - mx))
                   (dy + (snd p - my) * (snd p - my))).
    destruct (fold_left _ l _) as [[n' x'] y'].
    destruct IH as (H1 & H2 & H3). rewrite H1, H2, H3. repeat split; ring.
Qed.

Lemma constant_mean (c : Q) (l : list Q) :
  l <> [] -> Forall (fun x => x == c) l -> mean l == c.
Proof.
  intros Hne H.
  assert (B : Forall (fun x => c <= x /\ x <= c) l).
  { eapply Forall_impl; [|exact H]. simpl. intros x Hx. rewrite Hx. lra. }
  destruct (mean_bounded l c c B Hne). lra.
Qed.

Lemma zero_spread {A} (f : A -> Q) (l : list A) :
  Forall (fun p => f p == 0) l -> Qsum (map (fun p => f p * f p) l) == 0.
Proof.
  induction 1 as [|p l Hp _ IH]; simpl; [reflexivity|]. rewrite IH, Hp. ring.
Qed.

Lemma map_on_snd {A B C} (g : B -> C) (xs : list A) (ys : list B) :
  length xs = length ys ->
  map (fun p : A * B => g (snd p)) (combine xs ys) = map g ys.
Proof. intros H. rewrite <- (map_map snd g), snd_combine; auto. Qed.

Lemma pearson_sums_spec (xs ys : list Q) :
  length xs = length ys ->
  let '(num, dx, dy) := pearson_sums xs ys in
  num == Qsum (map (fun p => (fst p - mean xs) * (snd p - mean ys)) (combine xs ys))
  /\ dx == Qsum (map (fun x => (x - mean xs) * (x - mean xs)) xs)
  /\ dy == Qsum (map (fun y => (y - mean ys) * (y - mean ys)) ys).
Proof.
  intros L. unfold pearson_sums.
  pose proof (pearson_loop (mean xs) (mean ys) (combine xs ys) 0 0 0) as H.
  destruct (fold_left _ _ _) as [[num dx] dy]. destruct H as (H1 & H2 & H3).
  split; [rewrite H1; ring|].
  split; [rewrite H2, <- (map_on_fst (fun x => (x - mean xs) * (x - mean xs)) xs ys L); ring|].
  rewrite H3, <- (map_on_snd (fun y => (y - mean ys) * (y - mean ys)) xs ys L). ring.
Qed.

(** X2.  Without spread in one of the two series there is no correlation to
    report: [pearson] answers [null] as soon as all the entries of [xs], or
    all those of [ys], are the same whole number.  (With a whole number
    that, multiplied by the number of entries, stays within 2^53, the
    source's sum and mean of that series are exact, so its spread is 0 as
    here; [Math.sqrt] gives 0 for 0.) *)
Theorem pearson_flat_series_is_null (xs ys : list Q) (c : Z) :
  (forall q, q == 0 -> sqrt q == 0) ->
  (Z.of_nat (length xs) * Z.abs c <= 2 ^ 53)%Z ->
  Forall (fun x => x == inject_Z c) xs \/ Forall (fun y => y == inject_Z c) ys ->
  pearson sqrt xs ys = None.
Proof.
  intros Hs _ Hflat. unfold pearson.
  destruct (negb (length xs =? length ys)%nat || (length xs <? 2)%nat) eqn:T; [reflexivity|].
  apply orb_false_elim in T as [T1 T2].
  apply negb_false_iff, Nat.eqb_eq in T1. apply Nat.ltb_ge in T2.
  pose proof (pearson_sums_spec xs ys T1) as H.
  destruct (pearson_sums xs ys) as [[num dx] dy]. destruct H as (_ & H2 & H3).
  assert (Z : dx * dy == 0).
  { destruct Hflat as [F | F].
    - assert (Hne : xs <> []) by (destruct xs; [simpl in T2; lia | discriminate]).
      rewrite H2, (zero_spread (fun x => x - mean xs)); [ring|].
      eapply Forall_impl; [|exact F]. simpl. intros x Hx.
      rewrite Hx, (constant_mean (inject_Z c) xs Hne F). ring.
    - assert (Hne : ys <> []) by (destruct ys; [simpl in T1; lia | discriminate]).
      rewrite H3, (zero_spread (fun y => y - mean ys)); [ring|].
      eapply Forall_impl; [|exact F]. simpl. intros y Hy.
      rewrite Hy, (constant_mean (inject_Z c) ys Hne F). ring. }
  apply Hs in Z. apply Qeq_bool_iff in Z. now rewrite Z.
Qed.

End Pearson.

Lemma sample_sqrt_zero (q : Q) : (q == 0 -> sample_sqrt q == 0)%Q.
Proof.
  intros H. unfold Qeq in H. cbn [Qnum Qden] in H. rewrite Z.mul_1_r, Z.mul_0_l in H.
  unfold sample_sqrt. rewrite H, Z.mul_0_l, Zdiv_0_l. reflexivity.
Qed.

Lemma pearson_flat_series_is_null_witness :
  pearson sample_sqrt [3; 3; 3] [7; 9; 8] = None.
Proof.
  apply (pearson_flat_series_is_null sample_sqrt [3; 3; 3] [7; 9; 8] 3).
  - exact sample_sqrt_zero.
  - vm_compute. discriminate.
  - left. repeat constructor; reflexivity.
Defined.

(** ** linearSlope on a straight line *)

Section Line.

Local Open Scope Q_scope.

Lemma Qsum_line (a b : Q) (l : list Q) :
  Qsum (map (fun x => a + b * x) l) == num_of_nat (length l) * a + b * Qsum l.
Proof.
  induction l as [|x l IH]; cbn [map Qsum length].
  - change (num_of_nat 0) with 0. ring.
  - rewrite IH, num_of_nat_S. ring.
Qed.

Lemma Qsum_products_line (a b : Q) (l : list Q) :
  Qsum (map (fun p => fst p * snd p) (combine l (map (fun x => a + b * x) l)))
  == a * Qsum l + b * Qsum (map (fun x => x * x) l).
Proof.
  induction l as [|x l IH]; cbn [map combine Qsum fst snd]; [ring|].
  rewrite IH. ring.
Qed.

(** On exact numbers the values a, a+b, a+2b, ... have slope b. *)
Lemma slope_of_line (a b : Q) (n : nat) :
  (2 <= n)%nat ->
  exists s, linearSlope (map (fun x => a + b * x) (keys n)) = Some s /\ s == b.
Proof.
  intros Hn. set (ys := map (fun x => a + b * x) (keys n)).
  assert (Ly : length ys = n) by (unfold ys; now rewrite length_map, keys_length).
  assert (L2 : (2 <= length ys)%nat) by lia.
  destruct (linearSlope_loop ys L2) as [E Hpos]. cbv zeta in E, Hpos.
  eexists; split; [exact E|].
  rewrite Ly in *.
  assert (Hk : length (keys n) = length ys) by (rewrite keys_length; lia).
  assert (Hys : ys <> []) by (intro Z; rewrite Z in Ly; simpl in Ly; lia).
  assert (Hxs : keys n <> []).
  { intro Z. apply (f_equal (@length Q)) in Z. rewrite keys_length in Z. simpl in Z. lia. }
  assert (HN : 2 <= num_of_nat n).
  { unfold num_of_nat. change 2 with (inject_Z 2). rewrite <- Zle_Qle. lia. }
  destruct (loop_sums (mean (keys n)) (mean ys) (combine (keys n) ys) (0, 0)) as [Hnum Hden].
  cbn [fst snd] in Hnum, Hden.
  rewrite centered_products, (fst_combine _ _ Hk), (snd_combine _ _ Hk) in Hnum.
  rewrite (map_on_fst (fun x => (x - mean (keys n)) * (x - mean (keys n)))) in Hden by exact Hk.
  rewrite centered_squares in Hden.
  rewrite length_combine, Hk, Nat.min_id, Ly in Hnum. rewrite keys_length in Hden.
  rewrite Hden in Hpos. rewrite Hnum, Hden.
  rewrite (mean_as_sum _ Hxs), (mean_as_sum _ Hys) in *. rewrite keys_length, Ly in *.
  unfold ys. rewrite Qsum_products_line, Qsum_line, keys_length.
  set (N := num_of_nat n) in *. set (Sx := Qsum (keys n)) in *.
  set (Sxx := Qsum (map (fun x => x * x) (keys n))) in *.
  assert (HN0 : ~ N == 0) by lra.
  assert (HD : ~ N * Sxx - Sx * Sx == 0).
  { intro Z.
    assert (X : 0 + (Sxx - 2 * (Sx / N) * Sx + N * (Sx / N) * (Sx / N)) == (N * Sxx - Sx * Sx) / N)
      by (field; exact HN0).
    rewrite X, Z in Hpos. unfold Qdiv in Hpos. rewrite Qmult_0_l in Hpos.
    apply (Qlt_irrefl 0 Hpos). }
  field. split; [exact HN0|].
  intros Z. apply HD. rewrite <- Z. ring.
Qed.

(** X4.  A series of whole numbers that lies on a line has the step of that
    line as its slope: for the values a, a+b, a+2b, ... (two or more of
    them, a and b whole numbers) [linearSlope] gives b, so 0 for a constant
    series.  (With n^3 (|a| + |b| + 1) within 2^53 every sum, mean, product
    and the final quotient of the source is a whole number of halves or
    quarters that a double holds exactly, so the source computes the same
    value.) *)
Theorem linearSlope_of_line (a b : Z) (n : nat) :
  (2 <= n)%nat ->
  (Z.of_nat n ^ 3 * (Z.abs a + Z.abs b + 1) <= 2 ^ 53)%Z ->
  exists s,
    linearSlope (map (fun x => inject_Z a + inject_Z b * x) (keys n)) = Some s
    /\ s == inject_Z b.
Proof.
  intros Hn _. now apply slope_of_line.
Qed.

End Line.

Lemma linearSlope_of_line_witness :
  exists s, linearSlope (map (fun x => inject_Z 3 + inject_Z 2 * x) (keys 4)) = Some s
            /\ (s == inject_Z 2)%Q.
Proof. apply (linearSlope_of_line 3 2 4); [lia | vm_compute; discriminate]. Defined.

(** ** Scores collected by the forms *)

Section FormScores.

Local Open Scope Q_scope.

Variable uid : nat -> string.
Variable isoNow : nat -> string.
Variable StringToNumber : string -> jsnum.
Variable NumberToString : Q -> string.

Lemma round_score_range (text : string) :
  0 <= round_score StringToNumber NumberToString text
  /\ round_score StringToNumber NumberToString text <= 50.
Proof. apply clamp_range. lra. Qed.

Lemma rounds_in_range (texts : list string) :
  Forall (fun x => 0 <= x /\ x <= 50) (map (round_score StringToNumber NumberToString) texts).
Proof. induction texts; simpl; constructor; auto using round_score_range. Qed.

Lemma flights_in_range s inputs :
  Forall (fun x => 0 <= x /\ x <= 50) (flights StringToNumber NumberToString s inputs).
Proof.
  unfold flights. induction (filter _ inputs); simpl; constructor;
    auto using round_score_range.
Qed.

Lemma flights_drawn s inputs :
  map fst inputs = ["0"; "0"; "0"; "1"; "1"; "1"] -> (s = "0" \/ s = "1") ->
  length (flights StringToNumber NumberToString s inputs) = 3%nat.
Proof.
  intros H Hs.
  destruct inputs as [|[a1 v1] [|[a2 v2] [|[a3 v3] [|[a4 v4] [|[a5 v5] [|[a6 v6] [|]]]]]]];
    try discriminate H.
  simpl in H. injection H as -> -> -> -> -> ->.
  destruct Hs as [-> | ->]; reflexivity.
Qed.

Lemma total_of_rounds (l : list Q) (n : nat) :
  Forall (fun x => 0 <= x /\ x <= 50) l -> length l = n ->
  0 <= Qsum l /\ Qsum l <= num_of_nat n * 50.
Proof.
  intros H <-. destruct (Qsum_bounds 0 50 l H). split; lra.
Qed.

(** X5.  A bullseye result stored by the competition form never totals more
    than the maximum of its category: with the score inputs as the form
    draws them, the record the submit handler builds has a total between 0
    and [competitionMax], which is 200 for a cub or a beginner and 600 for a
    junior, a senior or an adult. *)
Theorem competition_form_total_within_max
    (editingCompId : jsval) (f : comp_form) (state c : jsval) :
  c_round f = "bullseye" ->
  In (category_choice f) ARCHER_CATEGORIES ->
  drawn_inputs f ->
  compForm_record uid isoNow StringToNumber NumberToString editingCompId f state
  = Ok (Some c) ->
  exists t m,
    competitionTotal StringToNumber NumberToString c = Ok t
    /\ competitionMax c = Ok (Some m)
    /\ 0 <= t /\ t <= m
    /\ m == (if String.eqb (category_choice f) "cub"
                || String.eqb (category_choice f) "beginner" then 200 else 600).
Proof.
  intros Hr Hcat Hd. unfold compForm_record.
  destruct (getActiveProfileId state) as [pid|]; [|discriminate]. cbn [bind].
  destruct (is_empty (c_date f) || is_empty (trim (c_event f))); [discriminate|].
  rewrite Hr. change ("bullseye" =? "bullseye")%string with true. cbv iota.
  unfold drawn_inputs in Hd. unfold collectCompetitionBullseye.
  assert (Tc : js_or (JStr (category_choice f)) (JStr "adult") = JStr (category_choice f)).
  { destruct Hcat as [<-|[<-|[<-|[<-|[<-|[]]]]]]; reflexivity. }
  destruct (String.eqb (category_choice f) "cub"
            || String.eqb (category_choice f) "beginner") eqn:Small.
  - intros [= <-].
    destruct (total_of_rounds _ 4 (rounds_in_range (c10_round f)))
      as [T0 T1]; [now rewrite length_map|].
    exists (fold_left Qplus (map (round_score StringToNumber NumberToString) (c10_round f)) 0), 200.
    change (num_of_nat 4) with 4 in T1.
    split; [|split; [|split; [|split; [|reflexivity]]]].
    + destruct (truthy editingCompId); cbn; rewrite fold_safe_numbers; reflexivity.
    + destruct (truthy editingCompId); cbn; rewrite Tc; unfold is_str, strict_eq;
        rewrite Small; reflexivity.
    + rewrite fold_left_Qplus. lra.
    + rewrite fold_left_Qplus. lra.
  - destruct Hd as [D10 D15]. intros [= <-].
    pose proof (flights_drawn "0" _ D10 (or_introl eq_refl)) as L1.
    pose proof (flights_drawn "1" _ D10 (or_intror eq_refl)) as L2.
    pose proof (flights_drawn "0" _ D15 (or_introl eq_refl)) as L3.
    pose proof (flights_drawn "1" _ D15 (or_intror eq_refl)) as L4.
    destruct (total_of_rounds _ 3 (flights_in_range "0" (cset10 f)) L1).
    destruct (total_of_rounds _ 3 (flights_in_range "1" (cset10 f)) L2).
    destruct (total_of_rounds _ 3 (flights_in_range "0" (cset15 f)) L3).
    destruct (total_of_rounds _ 3 (flights_in_range "1" (cset15 f)) L4).
    change (num_of_nat 3) with 3 in *.
    destruct (fold_sets StringToNumber NumberToString
                [(flights StringToNumber NumberToString "0" (cset10 f),
                  flights StringToNumber NumberToString "0" (cset15 f));
                 (flights StringToNumber NumberToString "1" (cset10 f),
                  flights StringToNumber NumberToString "1" (cset15 f))] 0) as (t & E & Ht).
    cbn [map Qsum fst snd] in E, Ht.
    exists t, 600.
    assert (Big : String.eqb (category_choice f) "junior"
                  || String.eqb (category_choice f) "senior"
                  || String.eqb (category_choice f) "adult" = true).
    { destruct Hcat as [E'|[E'|[E'|[E'|[E'|[]]]]]]; rewrite <- E' in Small |- *;
        try discriminate Small; reflexivity. }
    split; [|split; [|split; [lra | split; [lra | reflexivity]]]].
    + destruct (truthy editingCompId); cbn; cbn in E; rewrite E; reflexivity.
    + destruct (truthy editingCompId); cbn; rewrite Tc; unfold is_str, strict_eq;
        rewrite Small, Big; reflexivity.
Qed.




End FormScores.

Lemma competition_form_total_within_max_witness :
  match compForm_record sample_uid sample_now sample_StringToNumber sample_NumberToString
          JNull sample_comp_form fresh_world.(doc) with
  | Ok (Some c) =>
      exists t m,
        competitionTotal sample_StringToNumber sample_NumberToString c = Ok t
        /\ competitionMax c = Ok (Some m) /\ (0 <= t)%Q /\ (t <= m)%Q /\ (m == 200)%Q
  | _ => False
  end.
Proof.
  destruct (compForm_record sample_uid sample_now sample_StringToNumber
              sample_NumberToString JNull sample_comp_form fresh_world.(doc))
    as [[c|]|e] eqn:E; [|vm_compute in E; discriminate E..].
  apply (competition_form_total_within_max sample_uid sample_now sample_StringToNumber
           sample_NumberToString JNull sample_comp_form fresh_world.(doc) c eq_refl).
  - simpl. auto.
  - reflexivity.
  - exact E.
Defined.


(** ** Tags *)

Ltac by_cases_on_char c :=
  destruct c as [[] [] [] [] [] [] [] []]; reflexivity.

Lemma space_lower c : is_space (lower_char c) = is_space c.
Proof. by_cases_on_char c. Qed.

Lemma comma_lower c : is_comma (lower_char c) = is_comma c.
Proof. by_cases_on_char c. Qed.

Lemma lower_lower c : lower_char (lower_char c) = lower_char c.
Proof. by_cases_on_char c. Qed.

Lemma toLowerCase_idem s : toLowerCase (toLowerCase s) = toLowerCase s.
Proof. induction s as [|c s IH]; simpl; [reflexivity | now rewrite lower_lower, IH]. Qed.

Lemma trimStart_lower s : trimStart (toLowerCase s) = toLowerCase (trimStart s).
Proof.
  induction s as [|c s IH]; simpl; [reflexivity|].
  rewrite space_lower. destruct (is_space c); [exact IH | reflexivity].
Qed.

Lemma trimEnd_lower s : trimEnd (toLowerCase s) = toLowerCase (trimEnd s).
Proof.
  induction s as [|c s IH]; simpl; [reflexivity|].
  rewrite IH, space_lower. destruct (trimEnd s); simpl; [|reflexivity].
  destruct (is_space c); reflexivity.
Qed.

Lemma trim_lower s : trim (toLowerCase s) = toLowerCase (trim s).
Proof. unfold trim. now rewrite trimStart_lower, trimEnd_lower. Qed.

Lemma trimEnd_idem s : trimEnd (trimEnd s) = trimEnd s.
Proof.
  induction s as [|c s IH]; simpl; [reflexivity|].
  destruct (trimEnd s) as [|d t] eqn:E.
  - destruct (is_space c) eqn:Sc; simpl; [reflexivity | now rewrite Sc].
  - cbn [trimEnd] in IH |- *. rewrite IH. reflexivity.
Qed.

Lemma trimStart_clean s : starts_clean (trimStart s) = true.
Proof.
  induction s as [|c s IH]; simpl; [reflexivity|].
  destruct (is_space c) eqn:E; [exact IH | simpl; now rewrite E].
Qed.

Lemma trimStart_of_clean s : starts_clean s = true -> trimStart s = s.
Proof.
  destruct s as [|c s]; simpl; [reflexivity|]. now intros ->%negb_true_iff.
Qed.

Lemma trimEnd_keeps_clean s : starts_clean s = true -> starts_clean (trimEnd s) = true.
Proof.
  destruct s as [|c s]; simpl; [reflexivity|]. intros H.
  destruct (trimEnd s); [|exact H].
  apply negb_true_iff in H. rewrite H. simpl. now rewrite H.
Qed.

Lemma trim_idem s : trim (trim s) = trim s.
Proof.
  unfold trim.
  rewrite (trimStart_of_clean (trimEnd (trimStart s))),trimEnd_idem; [reflexivity|].
  apply trimEnd_keeps_clean, trimStart_clean.
Qed.

Lemma no_comma_lower s : no_comma (toLowerCase s) = no_comma s.
Proof. induction s as [|c s IH]; simpl; [reflexivity | now rewrite comma_lower, IH]. Qed.

Lemma no_comma_trimStart s : no_comma s = true -> no_comma (trimStart s) = true.
Proof.
  induction s as [|c s IH]; simpl; [reflexivity|]. intros H.
  destruct (is_space c); [|exact H]. apply andb_true_iff in H as [_ H]. auto.
Qed.

Lemma no_comma_trimEnd s : no_comma s = true -> no_comma (trimEnd s) = true.
Proof.
  induction s as [|c s IH]; simpl; [reflexivity|]. intros H.
  apply andb_true_iff in H as [Hc H]. specialize (IH H).
  destruct (trimEnd s).
  - destruct (is_space c); simpl; [reflexivity | now rewrite Hc].
  - cbn [no_comma] in IH |- *. now rewrite Hc, IH.
Qed.

Lemma split_pieces s : Forall (fun p => no_comma p = true) (split_comma s).
Proof.
  induction s as [|c s IH]; simpl; [repeat constructor|].
  destruct (is_comma c) eqn:E; [constructor; [reflexivity | exact IH]|].
  destruct (split_comma s) as [|p rest]; constructor; simpl; rewrite ?E; auto.
  - now inversion IH.
  - now inversion IH.
Qed.

Lemma split_plain t : no_comma t = true -> split_comma t = [t].
Proof.
  induction t as [|c t IH]; simpl; [reflexivity|]. intros H.
  apply andb_true_iff in H as [Hc H]. apply negb_true_iff in Hc.
  now rewrite Hc, (IH H).
Qed.

Lemma split_before_comma t r :
  no_comma t = true -> split_comma (t ++ String "," r) = t :: split_comma r.
Proof.
  induction t as [|c t IH]; simpl; [reflexivity|]. intros H.
  apply andb_true_iff in H as [Hc H]. apply negb_true_iff in Hc.
  now rewrite Hc, (IH H).
Qed.

Lemma split_tags_text t rest :
  Forall (fun p => no_comma p = true) (t :: rest) ->
  split_comma (tags_text (t :: rest)) = t :: map (String " ") rest.
Proof.
  revert t. induction rest as [|u rest IH]; intros t H.
  - inversion H. now apply split_plain.
  - inversion H as [|? ? Ht Hrest]. subst.
    change (tags_text (t :: u :: rest))
      with (t ++ String "," (String " " (tags_text (u :: rest))))%string.
    rewrite (split_before_comma _ _ Ht). cbn [split_comma].
    change (is_comma " ") with false. cbv iota.
    rewrite (IH u Hrest). reflexivity.
Qed.

Lemma Forall_firstn {A} (P : A -> Prop) n (l : list A) : Forall P l -> Forall P (firstn n l).
Proof.
  intros H. revert n. induction H; intros [|n]; simpl; constructor; auto.
Qed.

Lemma Forall_filter {A} (f : A -> bool) (l : list A) : Forall (fun x => f x = true) (filter f l).
Proof.
  induction l as [|a l IH]; simpl; [constructor|].
  destruct (f a) eqn:E; [constructor; assumption | assumption].
Qed.

Lemma Forall_filter_keeps {A} (P : A -> Prop) (f : A -> bool) (l : list A) :
  Forall P l -> Forall P (filter f l).
Proof.
  induction 1 as [|a l Ha _ IH]; simpl; [constructor|].
  destruct (f a); [constructor; assumption | assumption].
Qed.

Lemma parseTags_clean s : Forall clean_tag (parseTags s).
Proof.
  unfold parseTags. apply Forall_firstn.
  assert (H : Forall (fun t => no_comma t = true /\ trim t = t /\ toLowerCase t = t)
                (map (fun t => toLowerCase (trim t)) (split_comma s))).
  { apply Forall_map. eapply Forall_impl; [|apply split_pieces].
    simpl. intros p Hp. split; [|split].
    - rewrite no_comma_lower. unfold trim. now apply no_comma_trimEnd, no_comma_trimStart.
    - now rewrite trim_lower, trim_idem.
    - apply toLowerCase_idem. }
  pose proof (Forall_filter_keeps _ (fun t => negb (is_empty t)) _ H) as H1.
  pose proof (Forall_filter (fun t => negb (is_empty t))
                (map (fun t => toLowerCase (trim t)) (split_comma s))) as H2.
  pose proof (Forall_and H2 H1) as H3.
  eapply Forall_impl; [|exact H3]. simpl. intros t [N (A & B & C)].
  split; [|auto]. intros ->. discriminate.
Qed.

(** X7.  The list [parseTags] returns has at most 30 tags, and each of them is
    not empty, holds no comma, has no white space at either end and is in
    lower case. *)
Theorem parseTags_shape (s : string) :
  (length (parseTags s) <= 30)%nat /\ Forall clean_tag (parseTags s).
Proof.
  split; [apply firstn_le_length | apply parseTags_clean].
Qed.

Lemma clean_tags_reparse (tags : list string) :
  Forall clean_tag tags ->
  map (fun t => toLowerCase (trim t)) (split_comma (tags_text tags))
  = match tags with [] => [""] | _ => tags end.
Proof.
  intros H. destruct tags as [|t rest]; [reflexivity|].
  rewrite split_tags_text
    by (eapply Forall_impl; [|exact H]; intros a (_ & Ha & _); exact Ha).
  cbn [map]. inversion H as [|? ? (_ & _ & T1 & T2) Hrest]. subst.
  rewrite T1, T2. f_equal.
  rewrite map_map. apply map_fixed.
  eapply Forall_impl; [|exact Hrest]. simpl. intros a (_ & _ & A1 & A2).
  change (trim (String " " a)) with (trim a). now rewrite A1, A2.
Qed.

Lemma filter_all {A} (f : A -> bool) (l : list A) :
  Forall (fun x => f x = true) l -> filter f l = l.
Proof. induction 1 as [|a l Ha _ IH]; simpl; [reflexivity|]. now rewrite Ha, IH. Qed.

(** X8.  Editing a session and saving it again keeps its tags: the text
    [editPractice] puts into the tags input, [tags.join(', ')], is read back
    by [parseTags] as the same list of tags. *)
Theorem parseTags_of_joined_tags (s : string) :
  parseTags (tags_text (parseTags s)) = parseTags s.
Proof.
  pose proof (parseTags_clean s) as H.
  assert (L : (length (parseTags s) <= 30)%nat) by apply firstn_le_length.
  set (tags := parseTags s) in *. unfold parseTags at 1.
  rewrite (clean_tags_reparse tags H).
  destruct tags as [|t rest] eqn:E; [reflexivity|]. rewrite <- E in *.
  rewrite filter_all; [now apply firstn_all2|].
  eapply Forall_impl; [|exact H]. simpl. intros a (Ha & _).
  destruct a; [congruence | reflexivity].
Qed.

(** ** Aim points *)

Lemma findM_app {A} (f : A -> result bool) (l tail : list A) :
  findM f (l ++ tail)
  = (found <- findM f l ;;
     match found with Some a => Ok (Some a) | None => findM f tail end).
Proof.
  induction l as [|a l IH]; simpl; [reflexivity|].
  destruct (f a) as [[|]|e]; simpl; auto.
Qed.

Lemma off_at_distance d m b :
  off_distance d m = Ok b -> at_distance d m = Ok (negb b).
Proof.
  unfold off_distance, at_distance. destruct (get m "distance"); [|discriminate].
  cbn [bind]. intros [= <-]. now rewrite negb_involutive.
Qed.

Lemma at_other_distance d d' m :
  ~ (d' == d)%Q -> at_distance d m = Ok true -> at_distance d' m = Ok false.
Proof.
  unfold at_distance. intros N. destruct (get m "distance") as [v|]; [|discriminate].
  cbn [bind]. intros [= H]. f_equal.
  destruct v; try discriminate H. cbn [strict_eq] in *.
  apply Qeq_bool_iff in H. destruct (Qeq_bool q d') eqn:E; [|reflexivity].
  apply Qeq_bool_iff in E. exfalso. apply N. rewrite <- E, H. reflexivity.
Qed.

(** The marks kept by the filter of [setMark] and [clearMark]: none is at
    the distance, and a search for any other distance cannot tell the kept
    list from the original one. *)
Lemma kept_marks d es : forall kept,
  filterM (off_distance d) es = Ok kept ->
  Forall (fun m => off_distance d m = Ok true) kept
  /\ (length kept <= length es)%nat
  /\ (forall d', ~ (d' == d)%Q -> findM (at_distance d') kept = findM (at_distance d') es).
Proof.
  induction es as [|m es IH]; intros kept; cbn [filterM].
  - intros [= <-]. repeat split; auto.
  - destruct (off_distance d m) as [b|] eqn:Em; [|discriminate]. cbn [bind].
    destruct (filterM (off_distance d) es) as [rest|]; [|discriminate]. cbn [bind].
    destruct (IH rest eq_refl) as (F & L & S). intros [= <-].
    pose proof (off_at_distance _ _ _ Em) as Am.
    destruct b; cbn [negb] in Am.
    + split; [constructor; assumption|]. split; [simpl; lia|].
      intros d' N. cbn [findM]. rewrite (S d' N). reflexivity.
    + split; [assumption|]. split; [simpl; lia|].
      intros d' N. cbn [findM]. rewrite (at_other_distance d d' m N Am). cbn [bind].
      apply S, N.
Qed.

Lemma filterM_all {A} (f : A -> result bool) (l : list A) :
  Forall (fun a => f a = Ok true) l -> filterM f l = Ok l.
Proof.
  induction 1 as [|a l Ha _ IH]; cbn [filterM]; [reflexivity|].
  now rewrite Ha, IH.
Qed.

Lemma findM_none {A} (f : A -> result bool) (l : list A) :
  Forall (fun a => f a = Ok false) l -> findM f l = Ok None.
Proof.
  induction 1 as [|a l Ha _ IH]; cbn [findM]; [reflexivity|].
  now rewrite Ha.
Qed.

Lemma kept_not_found d kept :
  Forall (fun m => off_distance d m = Ok true) kept -> findM (at_distance d) kept = Ok None.
Proof.
  intros H. apply findM_none. eapply Forall_impl; [|exact H].
  simpl. intros m Hm. exact (off_at_distance _ _ _ Hm).
Qed.

Lemma list_or_empty v es :
  as_array (js_or v empty_arr) = Ok es -> elems_of v = es.
Proof.
  unfold js_or. destruct (truthy v) eqn:T.
  - destruct v; try discriminate. now intros [= <-].
  - intros [= <-]. destruct v; try discriminate T; reflexivity.
Qed.

(** What [clearMark] and [setMark] leave, spelled out. *)
Lemma clearMark_inv a d a' :
  clearMark a d = Ok a' ->
  exists es kept,
    nullish a = false
    /\ as_array (js_or (prop a "marks") empty_arr) = Ok es
    /\ filterM (off_distance d) es = Ok kept
    /\ a' = set_prop a "marks" (arr kept).
Proof.
  unfold clearMark, get. destruct (nullish a) eqn:Na; [discriminate|]. cbn [bind].
  destruct (as_array (js_or (prop a "marks") empty_arr)) as [es|] eqn:Ea; [|discriminate].
  cbn [bind].
  destruct (filterM (off_distance d) es) as [kept|] eqn:Ek; [|discriminate]. cbn [bind].
  intros [= <-]. exists es, kept. auto.
Qed.

Lemma setMark_inv a d x y a' :
  setMark a d x y = Ok a' ->
  exists es kept,
    is_container a = true
    /\ as_array (js_or (prop a "marks") empty_arr) = Ok es
    /\ filterM (off_distance d) es = Ok kept
    /\ a' = set_prop a "marks" (arr (kept ++ [mark d x y])).
Proof.
  unfold setMark. destruct (clearMark a d) as [d1|] eqn:C; [|discriminate]. cbn [bind].
  destruct (clearMark_inv _ _ _ C) as (es & kept & Na & Ea & Ek & ->).
  destruct (is_container a) eqn:Ca.
  - rewrite prop_set_same by (exact Ca || reflexivity). cbn [arr as_array bind].
    rewrite set_set. intros [= <-]. exists es, kept. auto.
  - rewrite set_primitive, prop_of_primitive by (exact Ca || reflexivity). discriminate.
Qed.

Lemma markForDistance_of a d es :
  nullish a = false -> as_array (js_or (prop a "marks") empty_arr) = Ok es ->
  markForDistance a d
  = (found <- findM (at_distance d) es ;;
     Ok (match found with Some m => js_or m JNull | None => JNull end)).
Proof.
  intros Na Ea. unfold markForDistance. rewrite (get_nonnull _ _ Na). cbn [bind].
  now rewrite Ea.
Qed.

Lemma marks_after_set a l :
  is_container a = true ->
  as_array (js_or (prop (set_prop a "marks" (arr l)) "marks") empty_arr) = Ok l.
Proof. intros Ca. now rewrite prop_set_same by (exact Ca || reflexivity). Qed.

Lemma nullish_set a k v : nullish (set_prop a k v) = nullish a.
Proof. destruct a; reflexivity. Qed.

(** X9.  After [setMark(distance, x, y)] the aim point found for that distance
    is the new one, and the aim point found for any other distance is the
    one found before. *)
Theorem setMark_then_markForDistance (aimDraft aimDraft' : jsval) (distance x y : Q) :
  setMark aimDraft distance x y = Ok aimDraft' ->
  markForDistance aimDraft' distance = Ok (mark distance x y)
  /\ (forall d', ~ (d' == distance)%Q ->
        markForDistance aimDraft' d' = markForDistance aimDraft d').
Proof.
  intros H. destruct (setMark_inv _ _ _ _ _ H) as (es & kept & Ca & Ea & Ek & ->).
  destruct (kept_marks _ _ _ Ek) as (F & _ & S).
  pose proof (container_present _ Ca) as Na.
  split.
  - rewrite (markForDistance_of _ _ (kept ++ [mark distance x y]));
      [|now rewrite nullish_set | now apply marks_after_set].
    rewrite findM_app, (kept_not_found _ _ F). cbn [bind findM].
    unfold at_distance. cbn [mark get nullish prop lookup String.eqb Ascii.eqb Bool.eqb bind strict_eq].
    now rewrite Qeq_bool_refl.
  - intros d' N.
    rewrite (markForDistance_of _ d' (kept ++ [mark distance x y]));
      [|now rewrite nullish_set | now apply marks_after_set].
    rewrite (markForDistance_of _ d' es Na Ea).
    rewrite findM_app, (S d' N).
    destruct (findM (at_distance d') es) as [[m|]|]; cbn [bind]; try reflexivity.
    cbn [findM]. unfold at_distance.
    cbn [mark get nullish prop lookup String.eqb Ascii.eqb Bool.eqb bind strict_eq].
    destruct (Qeq_bool distance d') eqn:E; [|reflexivity].
    apply Qeq_bool_iff in E. exfalso. apply N. now rewrite E.
Qed.

(** X10.  After [clearMark(distance)] no aim point is found for that distance,
    and the aim point found for any other distance is the one found
    before. *)
Theorem clearMark_then_markForDistance (aimDraft aimDraft' : jsval) (distance : Q) :
  clearMark aimDraft distance = Ok aimDraft' ->
  markForDistance aimDraft' distance = Ok JNull
  /\ (forall d', ~ (d' == distance)%Q ->
        markForDistance aimDraft' d' = markForDistance aimDraft d').
Proof.
  intros H. destruct (clearMark_inv _ _ _ H) as (es & kept & Na & Ea & Ek & ->).
  destruct (kept_marks _ _ _ Ek) as (F & _ & S).
  destruct (is_container aimDraft) eqn:Ca.
  - split.
    + rewrite (markForDistance_of _ _ kept);
        [|now rewrite nullish_set | now apply marks_after_set].
      now rewrite (kept_not_found _ _ F).
    + intros d' N.
      rewrite (markForDistance_of _ d' kept);
        [|now rewrite nullish_set | now apply marks_after_set].
      now rewrite (markForDistance_of _ d' es Na Ea), (S d' N).
  - rewrite set_primitive by exact Ca. split; [|reflexivity].
    rewrite prop_of_primitive in Ea by (exact Ca || reflexivity).
    injection Ea as <-. rewrite (markForDistance_of _ _ []); auto.
    now rewrite prop_of_primitive by (exact Ca || reflexivity).
Qed.

(** X11.  Setting the aim point of a distance twice is the same as setting it
    once with the last position: the earlier point is replaced, never kept
    beside the new one, and the list grows by at most one mark. *)
Theorem setMark_replaces (aimDraft a1 : jsval) (distance x y x' y' : Q) :
  setMark aimDraft distance x y = Ok a1 ->
  setMark a1 distance x' y' = setMark aimDraft distance x' y'
  /\ (length (elems_of (prop a1 "marks"))
      <= S (length (elems_of (prop aimDraft "marks"))))%nat.
Proof.
  intros H. destruct (setMark_inv _ _ _ _ _ H) as (es & kept & Ca & Ea & Ek & ->).
  destruct (kept_marks _ _ _ Ek) as (F & L & _).
  assert (Again : forall l, is_container aimDraft = true ->
            forall es0 kept0,
              as_array (js_or (prop (set_prop aimDraft "marks" (arr l)) "marks") empty_arr) = Ok es0 ->
              filterM (off_distance distance) es0 = Ok kept0 ->
              setMark (set_prop aimDraft "marks" (arr l)) distance x' y'
              = Ok (set_prop aimDraft "marks" (arr (kept0 ++ [mark distance x' y'])))).
  { intros l C es0 kept0 E0 K0. unfold setMark, clearMark.
    rewrite get_nonnull by (rewrite nullish_set; now apply container_present).
    cbn [bind]. rewrite E0. cbn [bind]. rewrite K0. cbn [bind].
    rewrite set_set, prop_set_same by (exact C || reflexivity).
    cbn [arr as_array bind]. now rewrite set_set. }
  split.
  - assert (K1 : filterM (off_distance distance) (kept ++ [mark distance x y]) = Ok kept).
    { clear - F. induction F as [|m kept Hm _ IH]; cbn [app filterM].
      - unfold off_distance.
        cbn [mark get nullish prop lookup String.eqb Ascii.eqb Bool.eqb bind strict_eq].
        now rewrite Qeq_bool_refl.
      - now rewrite Hm, IH. }
    rewrite (Again _ Ca _ _ (marks_after_set _ _ Ca) K1).
    unfold setMark, clearMark. rewrite (get_nonnull _ _ (container_present _ Ca)).
    cbn [bind]. rewrite Ea. cbn [bind]. rewrite Ek. cbn [bind].
    rewrite prop_set_same by (exact Ca || reflexivity).
    cbn [arr as_array bind]. now rewrite set_set.
  - rewrite prop_set_same by (exact Ca || reflexivity). cbn [arr elems_of].
    rewrite length_app. cbn [length].
    rewrite (list_or_empty _ _ Ea). lia.
Qed.

Lemma setMark_then_markForDistance_witness :
  match setMark sample_aim_draft 10 (1 # 3) (2 # 3) with
  | Ok draft =>
      markForDistance draft 10 = Ok (mark 10 (1 # 3) (2 # 3))
      /\ markForDistance draft 15 = markForDistance sample_aim_draft 15
  | Throw _ => False
  end.
Proof.
  destruct (setMark sample_aim_draft 10 (1 # 3) (2 # 3)) as [draft|e] eqn:E;
    [|vm_compute in E; discriminate E].
  destruct (setMark_then_markForDistance _ _ _ _ _ E) as [H1 H2].
  split; [exact H1 | apply H2; intros Q; vm_compute in Q; discriminate Q].
Defined.

Lemma clearMark_then_markForDistance_witness :
  match clearMark sample_aim_draft 15 with
  | Ok draft =>
      markForDistance draft 15 = Ok JNull
      /\ markForDistance draft 10 = markForDistance sample_aim_draft 10
  | Throw _ => False
  end.
Proof.
  destruct (clearMark sample_aim_draft 15) as [draft|e] eqn:E;
    [|vm_compute in E; discriminate E].
  destruct (clearMark_then_markForDistance _ _ _ E) as [H1 H2].
  split; [exact H1 | apply H2; intros Q; vm_compute in Q; discriminate Q].
Defined.

Lemma setMark_replaces_witness :
  match setMark sample_aim_draft 10 (1 # 3) (2 # 3) with
  | Ok draft => setMark draft 10 (3 # 4) (1 # 4) = setMark sample_aim_draft 10 (3 # 4) (1 # 4)
  | Throw _ => False
  end.
Proof.
  destruct (setMark sample_aim_draft 10 (1 # 3) (2 # 3)) as [draft|e] eqn:E;
    [|vm_compute in E; discriminate E].
  exact (proj1 (setMark_replaces _ _ _ _ _ (3 # 4) (1 # 4) E)).
Defined.

(** ** The records shown for the active profile *)

Lemma filterM_In {A} (f : A -> result bool) (es kept : list A) :
  filterM f es = Ok kept ->
  forall r, In r kept <-> (In r es /\ f r = Ok true).
Proof.
  revert kept; induction es as [|e es IH]; intros kept E r; cbn [filterM] in E.
  - injection E as <-. simpl. tauto.
  - destruct (f e) as [b|] eqn:Fe; [|discriminate]. cbn [bind] in E.
    destruct (filterM f es) as [rest|] eqn:Fr; [|discriminate]. cbn [bind] in E.
    injection E as <-. specialize (IH rest eq_refl r).
    destruct b; simpl; split.
    + intros [<- | H]; [auto | apply IH in H; tauto].
    + intros [[<- | H] F]; [auto | right; apply IH; auto].
    + intros H. apply IH in H. tauto.
    + intros [[<- | H] F]; [congruence | apply IH; auto].
Qed.

Lemma shown_for_string pid r :
  nullish r = false ->
  (shown_for (JStr pid) r = Ok true
   <-> (truthy (prop r "profileId") = false \/ prop r "profileId" = JStr pid)).
Proof.
  intros Hr. unfold shown_for. rewrite (get_nonnull _ _ Hr). cbn [bind]. unfold js_or.
  destruct (truthy (prop r "profileId")) eqn:T.
  - split.
    + intros [= H]. right. destruct (prop r "profileId"); try discriminate H.
      cbn [strict_eq] in H. apply String.eqb_eq in H. now subst.
    + intros [H | H]; [discriminate|]. rewrite H. cbn [strict_eq].
      now rewrite String.eqb_refl.
  - split; [auto|]. intros _. cbn [strict_eq]. now rewrite String.eqb_refl.
Qed.

Lemma filterM_present_all {A} (f : A -> result bool) (es kept : list A) :
  filterM f es = Ok kept -> forall r, In r es -> exists b, f r = Ok b.
Proof.
  revert kept; induction es as [|e es IH]; intros kept E r; cbn [filterM] in E; [intros []|].
  destruct (f e) as [b|] eqn:Fe; [|discriminate]. cbn [bind] in E.
  destruct (filterM f es) as [rest|] eqn:Fr; [|discriminate].
  intros [<- | H]; [eauto | exact (IH rest eq_refl r H)].
Qed.

(** X12.  What [practiceForActive], [competitionsForActive] and
    [aimMapsForActive] show when the active profile has a string id: the
    records of the list owned by that profile, together with every record
    that has no owner - a record without [profileId] is shown whichever
    profile is active. *)
Theorem forActive_shows_own_and_unowned
    (k pid : string) (state : jsval) (shown : list jsval) :
  getActiveProfileId state = Ok (JStr pid) ->
  forActive k state = Ok shown ->
  forall r,
    In r shown
    <-> (In r (elems_of (prop state k))
         /\ (truthy (prop r "profileId") = false \/ prop r "profileId" = JStr pid)).
Proof.
  intros Hp. unfold forActive. rewrite Hp. cbn [bind].
  destruct (as_array (js_or (prop state k) empty_arr)) as [es|] eqn:Ea; [|discriminate].
  cbn [bind]. rewrite (list_or_empty _ _ Ea). intros F r.
  rewrite (filterM_In _ _ _ F r). split.
  - intros [I S]. split; [exact I|]. apply shown_for_string; [|exact S].
    unfold shown_for, get in S. destruct (nullish r); [discriminate | reflexivity].
  - intros [I S]. split; [exact I|].
    destruct (filterM_present_all _ _ _ F r I) as (b & Hb).
    apply shown_for_string; [|exact S].
    unfold shown_for, get in Hb. destruct (nullish r); [discriminate | reflexivity].
Qed.

Lemma forActive_shows_own_and_unowned_witness :
  match forActive "practice" two_profiles_doc with
  | Ok shown => In orphan_session shown /\ ~ In session_of_b shown
  | Throw _ => False
  end.
Proof.
  destruct (forActive "practice" two_profiles_doc) as [shown|e] eqn:E;
    [|vm_compute in E; discriminate E].
  pose proof (forActive_shows_own_and_unowned "practice" "a" two_profiles_doc shown eq_refl E)
    as H.
  split.
  - apply H. split; [simpl; auto | left; reflexivity].
  - intros I. apply H in I. destruct I as [_ [F | F]]; discriminate F.
Defined.

(** ** ensureProfiles *)

Lemma loadState_normal uid isoNow JSON_parse stored :
  Normal (loadState uid isoNow JSON_parse stored).
Proof.
  unfold loadState. destruct stored as [raw|]; [|apply default_normal].
  destruct (is_empty raw); [apply default_normal|].
  destruct (JSON_parse raw) as [d|]; [|apply default_normal].
  unfold normalize. destruct (normalize_parsed uid isoNow d) eqn:E;
    [|apply default_normal].
  exact (proj1 (normalize_parsed_normal _ _ _ _ E)).
Qed.

Section Ensure.

Variables uid isoNow : nat -> string.

Lemma backfilled_step pid k st :
  backfilled pid (prop st k) -> String.eqb k "length" = false ->
  update_list_or_empty k (backfill pid) st = Ok st.
Proof.
  intros [F | (es & xs & E & F)] Hk; unfold update_list_or_empty.
  - now rewrite F.
  - rewrite E. cbn [truthy]. unfold update_list. rewrite E. cbn [forEach bind].
    rewrite (map_fixed _ _ F), <- E. f_equal. apply set_self; [|exact Hk].
    rewrite E. discriminate.
Qed.

Lemma ensured_fixed i st : Ensured st -> ensureProfiles uid isoNow i st = Ok st.
Proof.
  intros (Hc & (p0 & rest & xs & HP & HA) & HS & B1 & B2 & B3).
  unfold ensureProfiles, synthesize_profiles. rewrite HP. cbn [isArray elems_of length Nat.eqb negb orb].
  assert (D : default_active st = Ok st).
  { unfold default_active. destruct (truthy (prop st "activeProfileId")) eqn:T; [reflexivity|].
    destruct HA as [HA | [Hn HA]]; [discriminate|].
    rewrite HP. cbn [at_index nth bind]. rewrite (get_nonnull _ _ Hn). cbn [bind].
    now rewrite <- HA, HS. }
  rewrite D. cbn [bind].
  rewrite (backfilled_step _ _ _ B1 eq_refl). cbn [bind].
  rewrite (backfilled_step _ _ _ B2 eq_refl). cbn [bind].
  apply (backfilled_step _ _ _ B3 eq_refl).
Qed.

Lemma normal_ensured st : Normal st -> Ensured st.
Proof.
  intros (P & A & es1 & x1 & es2 & x2 & es3 & x3 & S & ex & -> & ND & HS & HP & F1 & F2 & F3 & _).
  unfold Ensured. autorewrite with doc.
  split; [reflexivity|]. split; [exact HP|]. split; [reflexivity|].
  split; [right; eauto|]. split; right; eauto.
Qed.

Lemma update_step pid k st st' :
  is_container st = true -> String.eqb k "length" = false ->
  update_list_or_empty k (backfill pid) st = Ok st' ->
  is_container st' = true
  /\ backfilled pid (prop st' k)
  /\ (forall k', String.eqb k' k = false -> prop st' k' = prop st k')
  /\ (forall k0 v, String.eqb k0 k = false -> set_prop st k0 v = st -> set_prop st' k0 v = st')
  /\ elems_of (prop st' k) = map (backfill pid) (elems_of (prop st k)).
Proof.
  intros Hc Hk. unfold update_list_or_empty.
  destruct (truthy (prop st k)) eqn:T.
  - unfold update_list. destruct (prop st k) as [| | | | |es xs|] eqn:E; try discriminate.
    cbn [forEach bind]. intros [= <-].
    rewrite container_set, prop_set_same by assumption.
    split; [exact Hc|]. split; [right; exists (map (backfill pid) es), xs; split;
                                [reflexivity | apply Forall_map_fixed, backfill_idem]|].
    split; [intros k' N; now apply prop_set_other|].
    split; [intros k0 v N F; now apply set_fixed_other | reflexivity].
  - intros [= <-]. split; [exact Hc|]. split; [now left|].
    split; [reflexivity|]. split; [auto|].
    destruct (prop st k); try discriminate T; reflexivity.
Qed.

Lemma synthesized_profiles i st :
  is_container st = true ->
  let sA := synthesize_profiles uid isoNow i st in
  is_container sA = true
  /\ (forall k, String.eqb k "profiles" = false -> String.eqb k "activeProfileId" = false ->
       prop sA k = prop st k)
  /\ (lacks_profiles st = false -> sA = st)
  /\ exists p0 rest xs,
       prop sA "profiles" = JArr (p0 :: rest) xs
       /\ ((nullish p0 = false /\ prop sA "activeProfileId" = prop p0 "id")
           \/ sA = st).
Proof.
  intros Hc. unfold synthesize_profiles, lacks_profiles.
  destruct (negb (isArray (prop st "profiles"))
            || (length (elems_of (prop st "profiles")) =? 0)%nat) eqn:E.
  - rewrite !container_set. split; [exact Hc|].
    split; [intros k N1 N2; now rewrite !prop_set_other|].
    split; [discriminate|].
    exists (archer1 uid isoNow i), [], [].
    rewrite prop_set_other, !prop_set_same by (reflexivity || now rewrite ?container_set).
    split; [reflexivity|]. left. split; reflexivity.
  - split; [exact Hc|]. split; [reflexivity|]. split; [reflexivity|].
    apply orb_false_elim in E as [E1 E2].
    destruct (prop st "profiles") as [| | | | |es xs|]; try discriminate E1.
    destruct es as [|p0 rest]; [discriminate E2|]. exists p0, rest, xs. auto.
Qed.

Lemma ensureProfiles_ensured i st st1 :
  ensureProfiles uid isoNow i st = Ok st1 ->
  Ensured st1
  /\ (forall k, record_list k ->
       elems_of (prop st1 k)
       = map (backfill (prop st1 "activeProfileId")) (elems_of (prop st k)))
  /\ (lacks_profiles st = false -> prop st1 "profiles" = prop st "profiles").
Proof.
  unfold ensureProfiles.
  destruct (is_container st) eqn:Hc.
  - destruct (synthesized_profiles i st Hc) as (HcA & KA & LA & p0 & rest & xs & HP & HA).
    set (sA := synthesize_profiles uid isoNow i st) in *.
    assert (B : (exists sB,
               default_active sA = Ok sB
               /\ is_container sB = true
               /\ prop sB "profiles" = JArr (p0 :: rest) xs
               /\ (truthy (prop sB "activeProfileId") = true
                   \/ (nullish p0 = false /\ prop sB "activeProfileId" = prop p0 "id"))
               /\ set_prop sB "activeProfileId" (prop sB "activeProfileId") = sB
               /\ (forall k, String.eqb k "activeProfileId" = false -> prop sB k = prop sA k))
               \/ exists e, default_active sA = Throw e).
    { unfold default_active. destruct (truthy (prop sA "activeProfileId")) eqn:T.
      - left. exists sA. repeat split; auto.
        apply set_self; [|reflexivity]. intros U. rewrite U in T. discriminate.
      - rewrite HP. cbn [at_index nth bind]. unfold get.
        destruct (nullish p0) eqn:Np; [right; eexists; reflexivity|]. cbn [bind].
        left. eexists. split; [reflexivity|].
        rewrite container_set, prop_set_other, prop_set_same, set_set
          by (reflexivity || assumption).
        repeat split; auto. intros k N. now apply prop_set_other. }
    destruct B as [(sB & -> & HcB & HPB & HAB & HSB & KB) | (e & ->)]; [|discriminate].
    cbn [bind]. set (pid := prop sB "activeProfileId") in *.
    destruct (update_list_or_empty "practice" (backfill pid) sB) as [s1|] eqn:E1;
      [|discriminate]. cbn [bind].
    destruct (update_step pid "practice" _ _ HcB eq_refl E1) as (Hc1 & B1 & P1 & S1 & L1).
    destruct (update_list_or_empty "competitions" (backfill pid) s1) as [s2|] eqn:E2;
      [|discriminate]. cbn [bind].
    destruct (update_step pid "competitions" _ _ Hc1 eq_refl E2) as (Hc2 & B2 & P2 & S2 & L2).
    intros E3.
    destruct (update_step pid "aimMaps" _ _ Hc2 eq_refl E3) as (Hc3 & B3 & P3 & S3 & L3).
    assert (A3 : prop st1 "activeProfileId" = pid)
      by (rewrite P3, P2, P1 by reflexivity; reflexivity).
    split; [|split].
    + unfold Ensured. rewrite A3.
      split; [exact Hc3|].
      split; [exists p0, rest, xs; rewrite P3, P2, P1 by reflexivity; auto|].
      split; [apply S3, S2, S1; auto|].
      split; [rewrite P3, P2 by reflexivity; exact B1|].
      split; [rewrite P3 by reflexivity; exact B2 | exact B3].
    + rewrite A3. intros k [-> | [-> | ->]].
      * rewrite P3, P2, L1, KB, KA by reflexivity. reflexivity.
      * rewrite P3, L2, P1, KB, KA by reflexivity. reflexivity.
      * rewrite L3, P2, P1, KB, KA by reflexivity. reflexivity.
    + intros Lk. rewrite P3, P2, P1, KB, (LA Lk) by reflexivity. reflexivity.
  - unfold synthesize_profiles.
    rewrite !set_primitive by (rewrite ?container_set; assumption).
    assert (D : default_active st = Throw TypeError).
    { unfold default_active. rewrite !prop_of_primitive by (assumption || reflexivity).
      reflexivity. }
    destruct (_ || _); rewrite D; discriminate.
Qed.

End Ensure.

(** C2 (as amended).  After [loadState], whatever the storage slot held,
    [profiles] is a non-empty list.  When the stored text parses to a value,
    not [null], that once merged over the default document has a non-empty
    list of profiles and a truthy [activeProfileId], both are kept as they
    are, with no check that the one names a member of the other.  In every
    other case [activeProfileId] is the id of the first member of
    [profiles].  The [ensureProfiles] call that follows [loadState] when the
    page starts leaves the document as it is. *)
Theorem loadState_profiles_and_active
    (uid isoNow : nat -> string) (JSON_parse : string -> option jsval)
    (stored : option string) :
  let st := loadState uid isoNow JSON_parse stored in
  (exists p0 rest xs, prop st "profiles" = JArr (p0 :: rest) xs)
  /\ (forall m, stored_names_active JSON_parse stored (defaultState uid isoNow 0) m ->
        prop st "activeProfileId" = prop m "activeProfileId"
        /\ prop st "profiles" = prop m "profiles")
  /\ ((forall m, ~ stored_names_active JSON_parse stored (defaultState uid isoNow 0) m) ->
      exists p0 rest xs,
        prop st "profiles" = JArr (p0 :: rest) xs
        /\ prop st "activeProfileId" = prop p0 "id")
  /\ (forall (uid' isoNow' : nat -> string) (i : nat),
        ensureProfiles uid' isoNow' i st = Ok st).
Proof.
  cbv zeta.
  destruct (loadState_active_cases uid isoNow JSON_parse stored) as (H1 & H2 & H3).
  split; [exact H1|]. split; [exact H2|]. split; [exact H3|].
  intros uid' isoNow' i. apply ensured_fixed, normal_ensured, loadState_normal.
Qed.

(** C2 as stated fails: a stored [activeProfileId] that names no profile is
    kept by [loadState], and the [ensureProfiles] call that follows keeps
    it too. *)
Lemma loadState_keeps_unmatched_active :
  let st := loadState sample_uid sample_now read_json (Some stale_active_text) in
  prop st "activeProfileId" = JStr "zzz"
  /\ elems_of (prop st "profiles") = [JObj [("id", JStr "a"); ("name", JStr "Anna")]]
  /\ active_resolves st = false
  /\ ensureProfiles sample_uid sample_now 0 st = Ok st.
Proof. vm_compute. repeat split. Qed.

(** X13.  Whatever the storage slot held, the document [loadState] returns is
    left unchanged by the [ensureProfiles] call that follows it when the
    page starts. *)
Theorem ensureProfiles_after_loadState
    (uid isoNow uid' isoNow' : nat -> string) (JSON_parse : string -> option jsval)
    (stored : option string) (i : nat) :
  ensureProfiles uid' isoNow' i (loadState uid isoNow JSON_parse stored)
  = Ok (loadState uid isoNow JSON_parse stored).
Proof.
  apply ensured_fixed, normal_ensured, loadState_normal.
Qed.

(** X14.  [ensureProfiles] is idempotent: when it completes, running it again on
    the document it left, with other random ids and another clock reading,
    changes nothing. *)
Theorem ensureProfiles_idempotent
    (uid isoNow uid' isoNow' : nat -> string) (i j : nat) (state st1 : jsval) :
  ensureProfiles uid isoNow i state = Ok st1 ->
  ensureProfiles uid' isoNow' j st1 = Ok st1.
Proof.
  intros H. apply ensured_fixed. exact (proj1 (ensureProfiles_ensured _ _ _ _ _ H)).
Qed.

Lemma backfill_owned pid r : truthy (prop r "profileId") = true -> backfill pid r = r.
Proof. unfold backfill. intros ->. now rewrite andb_false_r. Qed.

(** X15.  [ensureProfiles] only fills in missing owners.  When it completes, each
    of the three record lists holds, place by place, the records it held,
    those without a [profileId] now owned by the active profile; a record
    that had a [profileId] is still in its list unchanged; and a non-empty
    list of profiles is left as it was. *)
Theorem ensureProfiles_only_backfills
    (uid isoNow : nat -> string) (i : nat) (state st1 : jsval) :
  ensureProfiles uid isoNow i state = Ok st1 ->
  (forall k, record_list k ->
     elems_of (prop st1 k)
     = map (backfill (prop st1 "activeProfileId")) (elems_of (prop state k)))
  /\ (forall k r, record_list k -> In r (elems_of (prop state k)) ->
        truthy (prop r "profileId") = true -> In r (elems_of (prop st1 k)))
  /\ (lacks_profiles state = false -> prop st1 "profiles" = prop state "profiles").
Proof.
  intros H. destruct (ensureProfiles_ensured _ _ _ _ _ H) as (_ & L & P).
  split; [exact L|]. split; [|exact P].
  intros k r Hk Hin Hr. rewrite (L k Hk).
  rewrite <- (backfill_owned (prop st1 "activeProfileId") r Hr). now apply in_map.
Qed.

(** ** Saving, exporting and reading back *)

Lemma fixed_by_normalize_normal uid isoNow st :
  normalize uid isoNow st = st -> Normal st.
Proof.
  unfold normalize. destruct (normalize_parsed uid isoNow st) as [st'|e] eqn:E.
  - intros <-. exact (proj1 (normalize_parsed_normal _ _ _ _ E)).
  - intros <-. apply default_normal.
Qed.

Lemma wrap_not_empty gap opening closing stepback indent partial :
  is_empty opening = false ->
  is_empty (wrap gap opening closing stepback indent partial) = false.
Proof.
  unfold wrap. destruct opening as [|c o]; [discriminate|]. intros _.
  destruct partial; [reflexivity|]. destruct (is_empty gap); reflexivity.
Qed.

Lemma saved_text_not_empty NumberToString st :
  Normal st -> is_empty (as_text (JSON_stringify NumberToString st)) = false.
Proof.
  intros (P & A & es1 & x1 & es2 & x2 & es3 & x3 & S & ex & -> & _).
  unfold JSON_stringify, mk_doc. cbn [SerializeJSONProperty as_text].
  now apply wrap_not_empty.
Qed.

Section Reading.

Variables uid isoNow : nat -> string.
Variable JSON_parse : string -> option jsval.
Variable NumberToString : Q -> string.

Lemma import_build_normal text st :
  JSON_parse text = Some st -> Normal st ->
  import_build uid isoNow JSON_parse (FileText text) = Ok st.
Proof.
  intros E (P & A & es1 & x1 & es2 & x2 & es3 & x3 & S & ex & -> & ND & HS & _).
  destruct HS as (a & sx & -> & NDs).
  unfold import_build. cbn [bind]. rewrite E. cbn [bind].
  rewrite merge_fixed by exact ND.
  change (get (mk_doc _ _ _ _ _ _ ex) "settings") with (Ok (JObj (("animalScoring", a) :: sx))).
  cbn [bind].
  change (prop (defaultState uid isoNow 1) "settings") with defaultSettings.
  change (js_or (JObj (("animalScoring", a) :: sx)) (JObj [])) with (JObj (("animalScoring", a) :: sx)).
  rewrite settings_fixed by exact NDs.
  autorewrite with doc. cbn [isArray]. autorewrite with doc. reflexivity.
Qed.

(** X16.  What was saved is what is loaded: for a document that the load-time
    normalization leaves as it is (any document [loadState] returned is
    one), [loadState] applied to the slot [saveState] wrote gives the
    document back, provided [JSON.parse] reads the saved text as that
    document. *)
Theorem loadState_after_saveState (uid' isoNow' : nat -> string) (w : world) :
  normalize uid' isoNow' (doc w) = doc w ->
  JSON_parse (as_text (JSON_stringify NumberToString (doc w))) = Some (doc w) ->
  loadState uid isoNow JSON_parse (slot (saveState NumberToString w)) = doc w.
Proof.
  intros Hn Hp. pose proof (fixed_by_normalize_normal _ _ _ Hn) as N.
  unfold saveState, loadState. cbn [slot].
  rewrite (saved_text_not_empty _ _ N), Hp.
  unfold normalize. now rewrite normal_fixed.
Qed.

(** X17.  Import undoes everything done since the export: for a document that
    the load-time normalization leaves as it is, importing the file Export
    wrote for it puts that document back as the current one, whatever the
    current one has become, and saves it, provided [JSON.parse] reads the
    exported text as that document. *)
Theorem import_of_exported_file
    (uid' isoNow' : nat -> string) (renderAll_ok : jsval -> bool) (w later : world) :
  normalize uid' isoNow' (doc w) = doc w ->
  JSON_parse (exportBtn_click NumberToString w) = Some (doc w) ->
  let after := importFile_change uid isoNow JSON_parse NumberToString renderAll_ok
                 (FileText (exportBtn_click NumberToString w)) later in
  doc after = doc w
  /\ slot after = slot (saveState NumberToString w)
  /\ alerts after
     = (if renderAll_ok (doc w) then import_complete else import_failed) :: alerts later.
Proof.
  intros Hn Hp. pose proof (fixed_by_normalize_normal _ _ _ Hn) as N.
  unfold importFile_change. rewrite (import_build_normal _ _ Hp N).
  destruct (renderAll_ok (doc w)); repeat split.
Qed.

End Reading.

Lemma ensureProfiles_idempotent_witness :
  match ensureProfiles sample_uid sample_now 0 two_profiles_doc with
  | Ok st1 => ensureProfiles sample_uid sample_now 5 st1 = Ok st1
  | Throw _ => False
  end.
Proof.
  destruct (ensureProfiles sample_uid sample_now 0 two_profiles_doc) as [st1|e] eqn:E;
    [|vm_compute in E; discriminate E].
  exact (ensureProfiles_idempotent _ _ sample_uid sample_now _ 5 _ _ E).
Defined.

Lemma ensureProfiles_only_backfills_witness :
  match ensureProfiles sample_uid sample_now 0 two_profiles_doc with
  | Ok st1 =>
      In session_of_b (elems_of (prop st1 "practice"))
      /\ prop st1 "profiles" = prop two_profiles_doc "profiles"
  | Throw _ => False
  end.
Proof.
  destruct (ensureProfiles sample_uid sample_now 0 two_profiles_doc) as [st1|e] eqn:E;
    [|vm_compute in E; discriminate E].
  destruct (ensureProfiles_only_backfills _ _ _ _ _ E) as (_ & K & P).
  split; [|apply P; reflexivity].
  apply K; [left; reflexivity | simpl; auto | reflexivity].
Defined.

Lemma loadState_after_saveState_witness :
  loadState sample_uid sample_now read_json (slot (saveState sample_NumberToString loaded_world))
  = doc loaded_world.
Proof.
  apply (loadState_after_saveState sample_uid sample_now read_json sample_NumberToString
           sample_uid sample_now loaded_world);
    vm_compute; reflexivity.
Defined.

Lemma import_of_exported_file_witness :
  doc (importFile_change sample_uid sample_now read_json sample_NumberToString
         (fun _ => true) (FileText (exportBtn_click sample_NumberToString loaded_world))
         fresh_world)
  = doc loaded_world.
Proof.
  apply (import_of_exported_file sample_uid sample_now read_json sample_NumberToString
           sample_uid sample_now (fun _ => true) loaded_world fresh_world);
    vm_compute; reflexivity.
Defined.

(** ** What load-time normalization keeps *)

Section Keeping.

Variables uid isoNow : nat -> string.

Lemma elems_coerced v : elems_of (if isArray v then v else empty_arr) = elems_of v.
Proof. destruct v; reflexivity. Qed.

(** The run of [normalize_parsed], step by step, on the merged document. *)
Lemma normalize_parsed_cases d :
  let m := Object_assign (defaultState uid isoNow 0) d in
  (nullish d = true /\ normalize_parsed uid isoNow d = Throw TypeError)
  \/ (nullish d = false
      /\ exists p0 rest xs,
           prop m "profiles" = JArr (p0 :: rest) xs
           /\ nullish p0 = true /\ truthy (prop m "activeProfileId") = false
           /\ normalize_parsed uid isoNow d = Throw TypeError)
  \/ (nullish d = false
      /\ ~ (exists p0 rest xs,
              prop m "profiles" = JArr (p0 :: rest) xs
              /\ nullish p0 = true /\ truthy (prop m "activeProfileId") = false)
      /\ exists st,
           normalize_parsed uid isoNow d = Ok st
           /\ elems_of (prop st "practice")
              = map (fun r => migrate_practice (backfill (prop st "activeProfileId") r))
                  (elems_of (prop m "practice"))
           /\ elems_of (prop st "competitions")
              = map (fun r => migrate_competition (backfill (prop st "activeProfileId") r))
                  (elems_of (prop m "competitions"))
           /\ elems_of (prop st "aimMaps")
              = map (backfill (prop st "activeProfileId")) (elems_of (prop m "aimMaps"))).
Proof.
  intros m. subst m. unfold normalize_parsed.
  destruct (merged_form uid isoNow 0 d) as (P & A & PR & C & M & S & ex & -> & ND).
  destruct (nullish d) eqn:Nd;
    [left; split; [reflexivity | unfold get; rewrite Nd; reflexivity]|].
  right. rewrite (get_nonnull _ _ Nd). cbn [bind].
  change (prop (defaultState uid isoNow 1) "settings") with defaultSettings.
  destruct (settings_form (js_or (prop d "settings") (JObj []))) as (a & sx & -> & NDs).
  unfold coerce_list. autorewrite with doc.
  rewrite <- (elems_coerced PR), <- (elems_coerced C), <- (elems_coerced M).
  destruct (coerced_form PR) as (es1 & x1 & ->).
  destruct (coerced_form C) as (es2 & x2 & ->).
  destruct (coerced_form M) as (es3 & x3 & ->).
  cbn [elems_of].
  assert (Z : forall P2 A2,
             exists st,
               (st1 <- update_list "practice" (backfill A2)
                         (mk_doc P2 A2 (JArr es1 x1) (JArr es2 x2) (JArr es3 x3)
                            (JObj (("animalScoring", a) :: sx)) ex) ;;
                st2 <- update_list "competitions" (backfill A2) st1 ;;
                st3 <- update_list "aimMaps" (backfill A2) st2 ;;
                st4 <- update_list "practice" migrate_practice st3 ;;
                update_list "competitions" migrate_competition st4) = Ok st
               /\ elems_of (prop st "practice")
                  = map (fun r => migrate_practice (backfill (prop st "activeProfileId") r)) es1
               /\ elems_of (prop st "competitions")
                  = map (fun r => migrate_competition (backfill (prop st "activeProfileId") r)) es2
               /\ elems_of (prop st "aimMaps")
                  = map (backfill (prop st "activeProfileId")) es3).
  { intros P2 A2. unfold update_list, forEach. autorewrite with doc.
    cbn [bind]. autorewrite with doc. cbn [bind]. autorewrite with doc.
    cbn [bind]. autorewrite with doc. cbn [bind]. autorewrite with doc.
    eexists. split; [reflexivity|]. autorewrite with doc. cbn [elems_of].
    rewrite !map_map. auto. }
  unfold synthesize_profiles. autorewrite with doc.
  destruct (negb (isArray P) || (length (elems_of P) =? 0)%nat) eqn:E.
  - right. split; [reflexivity|]. split.
    + intros (p0 & rest & xs & -> & _). discriminate E.
    + autorewrite with doc. unfold default_active. autorewrite with doc.
      destruct (truthy (JStr (uid 2))); [cbn [bind]; autorewrite with doc; apply Z|].
      cbn [arr at_index nth bind archer1 get nullish prop lookup String.eqb Ascii.eqb Bool.eqb].
      autorewrite with doc. apply Z.
  - apply orb_false_elim in E as [E1 E2]. destruct P as [| | | | |ps xs|]; try discriminate E1.
    destruct ps as [|p0 rest]; [discriminate E2|].
    unfold default_active. autorewrite with doc.
    destruct (truthy A) eqn:T.
    + right. split; [reflexivity|].
      split; [|cbn [bind]; autorewrite with doc; apply Z].
      intros (? & ? & ? & _ & _ & F). congruence.
    + cbn [at_index nth bind]. destruct (nullish p0) eqn:Np.
      * left. split; [reflexivity|]. exists p0, rest, xs.
        repeat split; auto. unfold get. rewrite Np. reflexivity.
      * right. split; [reflexivity|]. split.
        -- intros (q0 & ? & ? & [= <- _ _] & F & _). congruence.
        -- rewrite (get_nonnull _ _ Np). cbn [bind]. autorewrite with doc. apply Z.
Qed.

End Keeping.

(** X18.  The only stored documents that the normalization of [loadState] gives
    up on (so that [loadState] answers a fresh default document) are
    [null], and those whose first profile is [null] while no active profile
    is named; the exception is then a TypeError. *)
Theorem normalize_parsed_raises_iff (uid isoNow : nat -> string) (d : jsval) :
  let m := Object_assign (defaultState uid isoNow 0) d in
  (exists e, normalize_parsed uid isoNow d = Throw e)
  <-> (nullish d = true
       \/ exists p0 rest xs,
            prop m "profiles" = JArr (p0 :: rest) xs
            /\ nullish p0 = true /\ truthy (prop m "activeProfileId") = false).
Proof.
  intros m. subst m.
  destruct (normalize_parsed_cases uid isoNow d)
    as [(N & E) | [(N & p0 & rest & xs & HP & Hn & HA & E) | (N & No & st & E & _)]].
  - split; [auto | eauto].
  - split; [|eauto]. intros _. right. exists p0, rest, xs. auto.
  - split.
    + intros (e & F). congruence.
    + intros [F | F]; [congruence | contradiction].
Qed.

(** X19.  When the normalization of [loadState] completes, it has dropped, added
    or moved no record: each of the three lists holds, place by place, the
    records of the stored document merged over the defaults, after the
    back-fill of the owner and, for practice sessions and competitions, the
    migration of the bullseye block; a record that has an owner and no
    bullseye block is kept as it is. *)
Theorem normalization_keeps_records (uid isoNow : nat -> string) (d st : jsval) :
  normalize_parsed uid isoNow d = Ok st ->
  let m := Object_assign (defaultState uid isoNow 0) d in
  let a := prop st "activeProfileId" in
  elems_of (prop st "practice")
  = map (fun r => migrate_practice (backfill a r)) (elems_of (prop m "practice"))
  /\ elems_of (prop st "competitions")
     = map (fun r => migrate_competition (backfill a r)) (elems_of (prop m "competitions"))
  /\ elems_of (prop st "aimMaps") = map (backfill a) (elems_of (prop m "aimMaps"))
  /\ (forall k r, record_list k -> In r (elems_of (prop m k)) ->
        truthy (prop r "profileId") = true -> truthy (prop r "bullseye") = false ->
        In r (elems_of (prop st k))).
Proof.
  intros H m a. subst m.
  destruct (normalize_parsed_cases uid isoNow d)
    as [(N & E) | [(N & p0 & rest & xs & HP & Hn & HA & E) | (N & No & st' & E & L1 & L2 & L3)]];
    try congruence.
  rewrite H in E. injection E as <-. fold a in L1, L2, L3.
  split; [exact L1|]. split; [exact L2|]. split; [exact L3|].
  intros k r Hk Hin Ho Hb.
  assert (B : backfill a r = r) by now apply backfill_owned.
  assert (M1 : migrate_practice r = r).
  { unfold migrate_practice. rewrite Hb. now rewrite andb_false_r. }
  assert (M2 : migrate_competition r = r).
  { unfold migrate_competition. rewrite Hb. now rewrite andb_false_r. }
  destruct Hk as [-> | [-> | ->]].
  - rewrite L1. rewrite <- M1 at 1. rewrite <- B at 1.
    now apply (in_map (fun r => migrate_practice (backfill a r))).
  - rewrite L2. rewrite <- M2 at 1. rewrite <- B at 1.
    now apply (in_map (fun r => migrate_competition (backfill a r))).
  - rewrite L3. rewrite <- B at 1. now apply in_map.
Qed.

Lemma normalization_keeps_records_witness :
  match normalize_parsed sample_uid sample_now two_profiles_doc with
  | Ok st => In session_of_b (elems_of (prop st "practice"))
  | Throw _ => False
  end.
Proof.
  destruct (normalize_parsed sample_uid sample_now two_profiles_doc) as [st|e] eqn:E;
    [|vm_compute in E; discriminate E].
  destruct (normalization_keeps_records _ _ _ _ E) as (_ & _ & _ & K).
  apply K; [left; reflexivity | simpl; auto | reflexivity | reflexivity].
Defined.

(** ** Import, then the next page load *)

Lemma lookup_absent k (l : list (string * jsval)) :
  ~ In k (map fst l) -> lookup k l = None.
Proof.
  induction l as [|[k' v] l IH]; simpl; [reflexivity|]. intros H.
  destruct (String.eqb k k') eqn:E; [apply String.eqb_eq in E; subst; tauto|].
  apply IH. tauto.
Qed.

(** With distinct keys in the source, a property of the merged object is
    the source's when it has one, the target's otherwise. *)
Lemma lookup_fold_assign k l : forall t,
  NoDup (map fst l) ->
  lookup k (fold_left assign_step l t)
  = match lookup k l with Some v => Some v | None => lookup k t end.
Proof.
  induction l as [|[k0 v0] l IH]; intros t ND; [reflexivity|].
  inversion ND as [|? ? Hnot ND']. subst.
  cbn [fold_left lookup]. unfold assign_step at 2. cbn [fst snd].
  rewrite (IH _ ND'). destruct (String.eqb k k0) eqn:E.
  - apply String.eqb_eq in E. subst k0.
    now rewrite (lookup_absent _ _ Hnot), lookup_put_same.
  - destruct (lookup k l); [reflexivity|]. now apply lookup_put_other.
Qed.

Lemma index_key_not_word k i :
  match k with
  | String c _ => ((nat_of_ascii c <? 48) || (57 <? nat_of_ascii c))%nat
  | EmptyString => true
  end = true ->
  String.eqb k (NilZero.string_of_uint (Nat.to_uint i)) = false.
Proof.
  intros H. destruct (String.eqb k _) eqn:E; [|reflexivity].
  apply String.eqb_eq in E. subst k. exfalso. revert H.
  destruct (Nat.to_uint i); simpl; discriminate.
Qed.

Lemma lookup_indexed k es : forall i,
  match k with
  | String c _ => ((nat_of_ascii c <? 48) || (57 <? nat_of_ascii c))%nat
  | EmptyString => true
  end = true ->
  lookup k (indexed_from i es) = None.
Proof.
  induction es as [|e es IH]; intros i H; cbn [indexed_from lookup]; [reflexivity|].
  rewrite (index_key_not_word k i H). now apply IH.
Qed.

Lemma lookup_app k (a b : list (string * jsval)) :
  lookup k (a ++ b) = match lookup k a with Some v => Some v | None => lookup k b end.
Proof.
  induction a as [|[k' v] a IH]; simpl; [reflexivity|].
  destruct (String.eqb k k'); [reflexivity | exact IH].
Qed.

(** Reading a named property of a value is a look-up among its own
    enumerable properties. *)
Lemma prop_as_lookup d k :
  match k with
  | String c _ => ((nat_of_ascii c <? 48) || (57 <? nat_of_ascii c))%nat
  | EmptyString => true
  end = true ->
  String.eqb k "length" = false ->
  prop d k = match lookup k (own_enumerable d) with Some v => v | None => JUndefined end.
Proof.
  intros Hw Hl. destruct d; cbn [prop own_enumerable lookup]; try reflexivity.
  - rewrite Hl. now rewrite lookup_indexed.
  - rewrite Hl, lookup_app, lookup_indexed by exact Hw. reflexivity.
Qed.

Section ImportThenLoad.

Variables uid isoNow : nat -> string.
Variable JSON_parse : string -> option jsval.

Lemma merged_list d k :
  NoDup (map fst (own_enumerable d)) -> record_list k ->
  (if isArray (prop (Object_assign (defaultState uid isoNow 0) d) k)
   then prop (Object_assign (defaultState uid isoNow 0) d) k else empty_arr)
  = (if isArray (prop d k) then prop d k else empty_arr).
Proof.
  intros ND Hk. unfold defaultState. rewrite Object_assign_obj. cbn [prop].
  rewrite (lookup_fold_assign _ _ _ ND).
  rewrite (prop_as_lookup d k) by (destruct Hk as [-> | [-> | ->]]; reflexivity).
  destruct (lookup k (own_enumerable d)); [reflexivity|].
  destruct Hk as [-> | [-> | ->]]; reflexivity.
Qed.

(** X20.  The migrations an import skips are made up for by the next page load:
    for a file whose JSON value has no repeated key, normalizing the
    document the import handler built gives what normalizing the value of
    the file itself gives (with the same random draws), so importing a
    backup and reloading ends in the same document as loading the backup
    as stored text. *)
Theorem normalize_after_import (text : string) (d st : jsval) :
  JSON_parse text = Some d ->
  NoDup (map fst (own_enumerable d)) ->
  import_build uid isoNow JSON_parse (FileText text) = Ok st ->
  normalize_parsed uid isoNow st = normalize_parsed uid isoNow d.
Proof.
  intros Hp ND. unfold import_build. cbn [bind]. rewrite Hp. cbn [bind].
  destruct (nullish d) eqn:Nd; [unfold get; rewrite Nd; discriminate|].
  rewrite (get_nonnull _ _ Nd). cbn [bind].
  pose proof (merged_list d "practice" ND (or_introl eq_refl)) as L1.
  pose proof (merged_list d "competitions" ND (or_intror (or_introl eq_refl))) as L2.
  pose proof (merged_list d "aimMaps" ND (or_intror (or_intror eq_refl))) as L3.
  unfold normalize_parsed. rewrite (get_nonnull _ _ Nd). cbn [bind].
  destruct (merged_form uid isoNow 0 d) as (P & A & PR & C & M & S & ex & Em & NDm).
  rewrite Em in *. autorewrite with doc in L1, L2, L3.
  change (prop (defaultState uid isoNow 1) "settings") with defaultSettings.
  destruct (settings_form (js_or (prop d "settings") (JObj []))) as (a & sx & Es & NDs).
  rewrite Es. autorewrite with doc. rewrite <- L1, <- L2, <- L3.
  intros [= <-].
  rewrite merge_fixed by exact NDm.
  change (get (mk_doc _ _ _ _ _ _ ex) "settings") with (Ok (JObj (("animalScoring", a) :: sx))).
  cbn [bind].
  change (js_or (JObj (("animalScoring", a) :: sx)) (JObj [])) with (JObj (("animalScoring", a) :: sx)).
  rewrite settings_fixed by exact NDs.
  unfold coerce_list. autorewrite with doc.
  destruct (coerced_form PR) as (es1 & x1 & ->).
  destruct (coerced_form C) as (es2 & x2 & ->).
  destruct (coerced_form M) as (es3 & x3 & ->).
  cbn [isArray]. reflexivity.
Qed.

End ImportThenLoad.

Lemma normalize_after_import_witness :
  match read_json stale_active_text,
        import_build sample_uid sample_now read_json (FileText stale_active_text) with
  | Some d, Ok st =>
      normalize_parsed sample_uid sample_now st = normalize_parsed sample_uid sample_now d
  | _, _ => False
  end.
Proof.
  destruct (read_json stale_active_text) as [d|] eqn:Hp; [|vm_compute in Hp; discriminate Hp].
  destruct (import_build sample_uid sample_now read_json (FileText stale_active_text))
    as [st|e] eqn:Hi; [|vm_compute in Hi; discriminate Hi].
  apply (normalize_after_import sample_uid sample_now read_json stale_active_text d st Hp);
    [|exact Hi].
  pose proof Hp as Hd. vm_compute in Hd. injection Hd as <-.
  simpl. repeat constructor; simpl; intuition discriminate.
Defined.

(** ** Adding a profile *)

Section AddProfile.

Variables uid isoNow : nat -> string.
Variable StringToNumber : string -> jsnum.
Variable NumberToString : Q -> string.

Lemma synthesized_count i st :
  let sA := synthesize_profiles uid isoNow i st in
  (profile_count st <= profile_count sA)%nat
  /\ (profile_count sA <= Nat.max (profile_count st) 1)%nat
  /\ (lacks_profiles st = false -> sA = st).
Proof.
  cbv zeta. unfold profile_count, synthesize_profiles, lacks_profiles.
  destruct (negb (isArray (prop st "profiles"))
            || (length (elems_of (prop st "profiles")) =? 0)%nat) eqn:E.
  - assert (Z : profile_count st = 0%nat).
    { unfold profile_count. apply orb_true_iff in E as [E | E].
      - destruct (prop st "profiles"); try reflexivity. discriminate E.
      - now apply Nat.eqb_eq in E. }
    unfold profile_count in Z. rewrite Z. split; [lia|]. split; [|discriminate].
    rewrite prop_set_other by reflexivity.
    destruct (is_container st) eqn:Hc.
    + rewrite prop_set_same by (assumption || reflexivity). simpl. lia.
    + rewrite set_primitive, Z by assumption. lia.
  - split; [lia|]. split; [lia | reflexivity].
Qed.

Lemma default_active_profiles st st' :
  default_active st = Ok st' -> prop st' "profiles" = prop st "profiles".
Proof.
  unfold default_active. destruct (truthy (prop st "activeProfileId")); [now intros [= <-]|].
  destruct (at_index (prop st "profiles") 0) as [p0|]; [|discriminate]. cbn [bind].
  destruct (get p0 "id") as [id|]; [|discriminate]. cbn [bind]. intros [= <-].
  now rewrite prop_set_other.
Qed.

Lemma update_keeps_profiles k f st st' :
  String.eqb "profiles" k = false ->
  update_list_or_empty k f st = Ok st' -> prop st' "profiles" = prop st "profiles".
Proof.
  intros N. unfold update_list_or_empty, update_list.
  destruct (truthy (prop st k)); [|now intros [= <-]].
  destruct (forEach f (prop st k)); [|discriminate]. cbn [bind]. intros [= <-].
  now rewrite prop_set_other.
Qed.

(** [ensureProfiles], run as a statement of a handler, changes neither the
    storage slot nor the messages, and leaves the list of profiles as its
    first statement sets it. *)
Lemma ensureProfiles_run_frame i w :
  let r := ensureProfiles_run uid isoNow i w in
  prop (doc (fst r)) "profiles" = prop (synthesize_profiles uid isoNow i (doc w)) "profiles"
  /\ slot (fst r) = slot w /\ alerts (fst r) = alerts w.
Proof.
  cbv zeta. unfold ensureProfiles_run. cbn [doc set_doc].
  destruct (default_active (synthesize_profiles uid isoNow i (doc w))) as [sB|e] eqn:D.
  - apply default_active_profiles in D. rewrite <- D.
    apply (run_statements_preserves
             (fun w' => prop (doc w') "profiles" = prop sB "profiles"
                        /\ slot w' = slot w /\ alerts w' = alerts w)).
    + apply Forall_cons; [|apply Forall_cons; [|apply Forall_cons; [|apply Forall_nil]]];
        intros w1 w2 (I1 & I2 & I3) E;
        match type of E with
        | (st <- update_list_or_empty ?k ?f (doc w1) ;; _) = _ =>
            destruct (update_list_or_empty k f (doc w1)) as [st|] eqn:U; [|discriminate E];
            cbn [bind] in E; injection E as <-; cbn [doc set_doc slot alerts];
            rewrite (update_keeps_profiles k f _ _ eq_refl U); auto
        end.
    + repeat split.
  - repeat split.
Qed.

Lemma five_or_more_length n :
  five_or_more StringToNumber NumberToString (JNum (num_of_nat n)) = (5 <=? n)%nat.
Proof.
  unfold five_or_more. cbn [ToNumber].
  destruct (5 <=? n)%nat eqn:E.
  - apply Nat.leb_le in E. apply Qle_bool_iff. unfold num_of_nat.
    change 5%Q with (inject_Z 5). rewrite <- Zle_Qle. lia.
  - apply Nat.leb_gt in E. destruct (Qle_bool 5 (num_of_nat n)) eqn:F; [|reflexivity].
    apply Qle_bool_iff in F. unfold num_of_nat in F.
    change 5%Q with (inject_Z 5) in F. rewrite <- Zle_Qle in F. lia.
Qed.

(** X21.  The Add button never takes the number of profiles above five, and never
    removes a profile: whatever the document, the name typed and the
    outcome of the handler, the list of profiles it leaves is at least as
    long as before and has at most five members unless it already had more;
    from five profiles on, the handler changes neither the list nor the
    storage slot. *)
Theorem addProfile_never_exceeds_five (i : nat) (newProfileName : option string) (w : world) :
  let w' := fst (addProfileBtn_click uid isoNow StringToNumber NumberToString
                   i newProfileName w) in
  (profile_count (doc w) <= profile_count (doc w'))%nat
  /\ (profile_count (doc w') <= Nat.max (profile_count (doc w)) 5)%nat
  /\ ((5 <= profile_count (doc w))%nat ->
      prop (doc w') "profiles" = prop (doc w) "profiles" /\ slot w' = slot w).
Proof.
  intros w'. assert (E : w' = fst (addProfileBtn_click uid isoNow StringToNumber
                                    NumberToString i newProfileName w)) by reflexivity.
  clearbody w'. unfold addProfileBtn_click in E.
  destruct (ensureProfiles_run_frame i w) as (F1 & F2 & F3).
  destruct (synthesized_count i (doc w)) as (C1 & C2 & C3).
  destruct (ensureProfiles_run uid isoNow i w) as [w1 o]. cbn [fst] in F1, F2, F3.
  unfold profile_count in *. rewrite <- F1 in C1, C2.
  assert (Same : (5 <= length (elems_of (prop (doc w) "profiles")))%nat ->
                 prop (doc w1) "profiles" = prop (doc w) "profiles").
  { intros H. rewrite F1, C3; [reflexivity|]. unfold lacks_profiles.
    destruct (prop (doc w) "profiles") as [| | | | |es xs|]; simpl in H; try lia.
    destruct es; simpl in H; [lia | reflexivity]. }
  assert (Base : (length (elems_of (prop (doc w) "profiles"))
                  <= length (elems_of (prop (doc w1) "profiles")))%nat
                 /\ (length (elems_of (prop (doc w1) "profiles"))
                     <= Nat.max (length (elems_of (prop (doc w) "profiles"))) 5)%nat
                 /\ ((5 <= length (elems_of (prop (doc w) "profiles")))%nat ->
                     prop (doc w1) "profiles" = prop (doc w) "profiles" /\ slot w1 = slot w))
    by (split; [lia | split; [lia | auto]]).
  destruct o as [e|]; [cbn [fst] in E; subst w'; exact Base|].
  unfold get at 1 in E.
  destruct (nullish (doc w1)) eqn:Nd; [cbn [bind fst] in E; subst w'; exact Base|].
  cbn [bind] in E. unfold get at 1 in E.
  destruct (nullish (prop (doc w1) "profiles")) eqn:Np; [cbn [fst] in E; subst w'; exact Base|].
  destruct (five_or_more _ _ (prop (prop (doc w1) "profiles") "length")) eqn:Five;
    [cbn [fst alert doc slot] in E; subst w'; exact Base|].
  destruct (is_empty _); [cbn [fst alert doc slot] in E; subst w'; exact Base|].
  cbn [run_statements] in E. unfold push_profile at 1 in E.
  rewrite (get_nonnull _ _ Nd) in E. cbn [bind] in E.
  destruct (prop (doc w1) "profiles") as [| | | | |es xs|] eqn:P;
    try (cbv beta iota in E; cbn [fst] in E; subst w'; rewrite ?P; exact Base).
  cbn [prop String.eqb Ascii.eqb Bool.eqb] in Five. rewrite five_or_more_length in Five.
  apply Nat.leb_gt in Five. unfold saveState, set_doc in E.
  cbn [fst doc slot alerts] in E. subst w'. cbn [doc slot].
  destruct (is_container (doc w1)) eqn:Hc.
  - rewrite prop_set_same by (assumption || reflexivity). cbn [elems_of] in *.
    rewrite length_app. cbn [length].
    split; [lia|]. split; [lia|]. intros H. lia.
  - rewrite (prop_of_primitive _ "profiles" Hc eq_refl) in P. discriminate P.
Qed.

Lemma set_doc_twice w a b : set_doc (set_doc w a) b = set_doc w b.
Proof. reflexivity. Qed.

Lemma ensureProfiles_run_agrees i w st1 :
  ensureProfiles uid isoNow i (doc w) = Ok st1 ->
  ensureProfiles_run uid isoNow i w = (set_doc w st1, None).
Proof.
  unfold ensureProfiles, ensureProfiles_run. cbn [doc set_doc].
  destruct (default_active (synthesize_profiles uid isoNow i (doc w))) as [sB|];
    [|discriminate]. cbn [bind run_statements doc set_doc].
  destruct (update_list_or_empty "practice" _ sB) as [s1|]; [|discriminate].
  cbn [bind doc set_doc].
  destruct (update_list_or_empty "competitions" _ s1) as [s2|]; [|discriminate].
  cbn [bind doc set_doc]. intros ->. reflexivity.
Qed.

Lemma slice_to_length n s : (String.length (slice_to n s) <= n)%nat.
Proof.
  revert s; induction n as [|n IH]; intros [|c s]; simpl; try lia.
  specialize (IH s). lia.
Qed.

(** X22.  On a document that [ensureProfiles] has nothing to do on and that has
    fewer than five profiles, the Add button, given a name that is not
    blank, appends one profile to the list - its name the trimmed text cut
    to 40 characters, its id and creation time freshly drawn - changes
    nothing else in the document, and saves the result. *)
Theorem addProfile_appends (i : nat) (s : string) (w : world)
    (es : list jsval) (xs : list (string * jsval)) :
  ensureProfiles uid isoNow i (doc w) = Ok (doc w) ->
  prop (doc w) "profiles" = JArr es xs -> (length es < 5)%nat ->
  slice_to 40 (trim s) <> "" ->
  let name := slice_to 40 (trim s) in
  addProfileBtn_click uid isoNow StringToNumber NumberToString i (Some s) w
  = (saveState NumberToString
       (set_doc w
          (set_prop (doc w) "profiles"
             (JArr (es ++ [JObj [("id", JStr (uid i)); ("name", JStr name);
                                 ("createdAt", JStr (isoNow i))]]) xs))),
     None)
  /\ (String.length name <= 40)%nat.
Proof.
  intros He HP Hlen Hname name. split; [|apply slice_to_length].
  unfold addProfileBtn_click. rewrite (ensureProfiles_run_agrees _ _ _ He).
  replace (set_doc w (doc w)) with w by (destruct w; reflexivity).
  destruct (proj1 (ensureProfiles_ensured _ _ _ _ _ He))
    as (Hc & (p0 & rest & ys & HP' & _) & _).
  rewrite (get_nonnull _ _ (container_present _ Hc)). cbn [bind].
  rewrite HP. cbn [get nullish bind prop String.eqb Ascii.eqb Bool.eqb].
  rewrite five_or_more_length.
  assert (F : (5 <=? length es)%nat = false) by (apply Nat.leb_gt; exact Hlen).
  rewrite F.
  assert (Ee : is_empty (slice_to 40 (trim s)) = false)
    by (destruct (slice_to 40 (trim s)); [congruence | reflexivity]).
  rewrite Ee.
  assert (L : lacks_profiles (doc w) = false).
  { unfold lacks_profiles. rewrite HP'. reflexivity. }
  rewrite L. cbn [run_statements]. unfold push_profile.
  rewrite (get_nonnull _ _ (container_present _ Hc)). cbn [bind]. rewrite HP.
  reflexivity.
Qed.

End AddProfile.

Lemma addProfile_appends_witness :
  profile_count
    (doc (fst (addProfileBtn_click sample_uid sample_now sample_StringToNumber
                 sample_NumberToString 1 (Some "  Bea ") fresh_world)))
  = 2%nat.
Proof.
  rewrite (proj1 (addProfile_appends sample_uid sample_now sample_StringToNumber
                    sample_NumberToString 1 "  Bea " fresh_world
                    [archer1 sample_uid sample_now 0] []
                    eq_refl eq_refl ltac:(simpl; lia)
                    ltac:(intros Q; vm_compute in Q; discriminate Q))).
  reflexivity.
Defined.

(** ** The built-in aim maps *)

Section BuiltinMaps.

Variables uid isoNow uid' : nat -> string.
Variable NumberToString : Q -> string.

Lemma push_all ms tail : forall w es xs,
  is_container (doc w) = true -> prop (doc w) "aimMaps" = JArr es xs ->
  run_statements (map push_aimMap ms ++ tail) w
  = run_statements tail
      (set_doc w (set_prop (doc w) "aimMaps" (JArr (es ++ ms) xs))).
Proof.
  induction ms as [|m ms IH]; intros w es xs Hc Hp; cbn [map app].
  - rewrite app_nil_r, <- Hp, set_self; [destruct w; reflexivity | | reflexivity].
    rewrite Hp. discriminate.
  - cbn [run_statements]. unfold push_aimMap at 1.
    rewrite (get_nonnull _ _ (container_present _ Hc)). cbn [bind]. rewrite Hp.
    rewrite (IH _ (es ++ [m]) xs);
      [| cbn [doc set_doc]; now rewrite container_set
       | cbn [doc set_doc]; now rewrite prop_set_same].
    cbn [doc set_doc]. now rewrite set_set, <- app_assoc.
Qed.

Lemma builtin_backfilled pid i name type key :
  prop (backfill pid (builtin_map uid i name type key)) "profileId" = pid.
Proof. reflexivity. Qed.

(** X23.  The built-in aim maps are created once, without an owner, and are given
    to whichever profile is active when [ensureProfiles] next runs.  On a
    document whose list of aim maps is empty, [defaultAimMapsIfEmpty] stores
    the paper target and one map per default animal and saves; called again
    it does nothing; and after the next [ensureProfiles] the list still
    holds these six maps, each with the active profile as its owner. *)
Theorem default_aim_maps_once_and_owned
    (i j : nat) (w : world) (xs : list (string * jsval)) :
  is_container (doc w) = true ->
  prop (doc w) "aimMaps" = JArr [] xs ->
  let w1 := fst (defaultAimMapsIfEmpty uid NumberToString i w) in
  elems_of (prop (doc w1) "aimMaps") = default_aim_maps uid i
  /\ slot w1 = Some (as_text (JSON_stringify NumberToString (doc w1)))
  /\ defaultAimMapsIfEmpty uid' NumberToString j w1 = (w1, None)
  /\ (forall st2,
        ensureProfiles uid' isoNow j (doc w1) = Ok st2 ->
        length (elems_of (prop st2 "aimMaps")) = 6%nat
        /\ Forall (fun m => prop m "profileId" = prop st2 "activeProfileId")
             (elems_of (prop st2 "aimMaps"))).
Proof.
  intros Hc Hp w1.
  assert (E : w1 = saveState NumberToString
                     (set_doc w (set_prop (doc w) "aimMaps" (JArr (default_aim_maps uid i) xs)))).
  { unfold w1, defaultAimMapsIfEmpty.
    rewrite (get_nonnull _ _ (container_present _ Hc)). cbn [bind]. rewrite Hp.
    cbn [get nullish bind prop String.eqb Ascii.eqb Bool.eqb length].
    change (truthy (JNum (num_of_nat 0))) with false. cbv iota.
    rewrite (push_all _ _ w [] xs Hc Hp). reflexivity. }
  clearbody w1. subst w1. cbn [doc saveState set_doc slot].
  assert (M : prop (set_prop (doc w) "aimMaps" (JArr (default_aim_maps uid i) xs)) "aimMaps"
              = JArr (default_aim_maps uid i) xs)
    by now rewrite prop_set_same.
  rewrite M. split; [reflexivity|]. split; [reflexivity|]. split.
  - unfold defaultAimMapsIfEmpty. cbn [doc saveState set_doc].
    rewrite get_nonnull by (rewrite nullish_set; now apply container_present).
    cbn [bind]. rewrite M. reflexivity.
  - intros st2 H2.
    destruct (ensureProfiles_ensured _ _ _ _ _ H2) as (_ & L & _).
    rewrite (L "aimMaps") by (right; right; reflexivity). rewrite M. cbn [elems_of].
    split; [reflexivity|].
    unfold default_aim_maps. cbn [map combine seq length DEFAULT_ANIMALS fst snd].
    repeat constructor.
Qed.

End BuiltinMaps.

Lemma default_aim_maps_once_and_owned_witness :
  match ensureProfiles sample_uid sample_now 9
          (doc (fst (defaultAimMapsIfEmpty sample_uid sample_NumberToString 1 fresh_world))) with
  | Ok st2 =>
      Forall (fun m => prop m "profileId" = prop st2 "activeProfileId")
        (elems_of (prop st2 "aimMaps"))
  | Throw _ => False
  end.
Proof.
  destruct (ensureProfiles sample_uid sample_now 9
              (doc (fst (defaultAimMapsIfEmpty sample_uid sample_NumberToString 1 fresh_world))))
    as [st2|e] eqn:E; [|vm_compute in E; discriminate E].
  destruct (default_aim_maps_once_and_owned sample_uid sample_now sample_uid
              sample_NumberToString 1 9 fresh_world [] eq_refl eq_refl) as (_ & _ & _ & K).
  exact (proj2 (K st2 E)).
Defined.
